(** * NCC-Bandits: the partial-observation state indexer and the
      fixed-observation oracle

    A shallow embedding of [algorithms/utilities.py] and
    [src/algorithms/oracle_simoos.py], followed by the properties of the
    enumerator, the state indexer, the substate generator, the
    round-completion predicate and the oracle.

    Conventions of the embedding.
    - Python exceptions are the [Raise] branch of the [result] monad; every
      indexing operation is bounds checked as numpy checks it.
    - A 1-D ndarray is a list; a 2-D ndarray whose [shape] the code reads is
      an [array2] (its column count survives an empty row list); tables that
      are only indexed are nested lists.
    - Integer-valued float arrays (feature counts, state indices, visit
      counts) are lists of [Z]: the rounding of float64 above 2^53 is not
      modelled.  Rewards and values are [npfloat]: exact rationals plus
      [nan], with numpy's propagation of [nan] through sums, maxima and
      [argmax].
    - Observation actions hold the floats 0.0 and 1.0 only; they are lists
      of [bool], turned into numbers with [Z.b2z] where the code computes
      with them.
    - Feature values are integers (categorical codes); the unobserved
      sentinel [None] is the [None] of [option Z]. *)

From Stdlib Require Import QArith Qcanon.
From stdpp Require Import base list numbers sorting.
Close Scope Qc_scope.
Close Scope Q_scope.

(** ** Exceptions and the error monad *)

Inductive exn : Type :=
  | ValueError
  | IndexError
  | AssertionError
  | ZeroDivisionError
  | AttributeError
  | UnboundLocalError.

Inductive result (A : Type) : Type :=
  | Ok (a : A)
  | Raise (e : exn).
Arguments Ok {A} a.
Arguments Raise {A} e.

#[global] Instance result_ret : MRet result := λ A a, Ok a.
#[global] Instance result_bind : MBind result := λ A B k c,
  match c with
  | Ok a => k a
  | Raise e => Raise e
  end.
#[global] Instance result_fmap : FMap result := λ A B f c,
  match c with
  | Ok a => Ok (f a)
  | Raise e => Raise e
  end.

(** [for x in xs: body], threading the variables the body assigns. *)
Fixpoint for_each {X S : Type} (xs : list X) (body : X → S → result S) (s : S)
    : result S :=
  match xs with
  | [] => Ok s
  | x :: xs' => s' ← body x s; for_each xs' body s'
  end.

Definition range (n : nat) : list nat := seq 0 n.

(** [list(enumerate(l))] *)
Definition enumerate {A : Type} (l : list A) : list (nat * A) :=
  zip (seq 0 (length l)) l.

(** [a[i]] and [a[i] = x] on a list or 1-D array, for a non-negative [i]. *)
Definition getitem {A : Type} (a : list A) (i : nat) : result A :=
  match a !! i with
  | Some x => Ok x
  | None => Raise IndexError
  end.

Definition setitem {A : Type} (a : list A) (i : nat) (x : A) : result (list A) :=
  if decide (i < length a) then Ok (<[i:=x]> a) else Raise IndexError.

(** [l.index(x)]: the first position holding [x]. *)
Fixpoint list_index `{EqDecision A} (l : list A) (x : A) : result nat :=
  match l with
  | [] => Raise ValueError
  | y :: l' => if decide (y = x) then Ok 0 else S <$> list_index l' x
  end.

(** ** numpy *)

Record array2 (A : Type) : Type := Array2 {
  shape1 : nat;
  rows : list (list A)
}.
Arguments Array2 {A} shape1 rows.
Arguments shape1 {A} a.
Arguments rows {A} a.

Definition shape0 {A : Type} (a : array2 A) : nat := length (rows a).

Definition np_zeros {A : Type} (zero : A) (n : nat) : list A := replicate n zero.

Definition np_zeros2 {A : Type} (zero : A) (n m : nat) : array2 A :=
  Array2 m (replicate n (replicate m zero)).

(** Broadcasting a 1-D value to a row of [width] entries. *)
Definition broadcast_to {A : Type} (src : list A) (width : nat) : result (list A) :=
  if decide (length src = width) then Ok src
  else match src with
       | [x] => Ok (replicate width x)
       | _ => Raise ValueError
       end.

(** [a[i, :] = src] *)
Definition set_row {A : Type} (a : array2 A) (i : nat) (src : list A)
    : result (array2 A) :=
  if decide (i < shape0 a) then
    r ← broadcast_to src (shape1 a);
    Ok (Array2 (shape1 a) (<[i:=r]> (rows a)))
  else Raise IndexError.

(** [a[:, i]] *)
Definition column {A : Type} (zero : A) (a : array2 A) (i : nat) : list A :=
  (λ r, default zero (r !! i)) <$> rows a.

(** [np.concatenate((a, b), axis=0)] *)
Definition np_concatenate {A : Type} (a b : array2 A) : result (array2 A) :=
  if decide (shape1 a = shape1 b) then Ok (Array2 (shape1 a) (rows a ++ rows b))
  else Raise ValueError.

(** Sorting.  [np.unique] sorts and drops duplicates; on rows ([axis=0])
    the order is lexicographic.  [sorted] keeps duplicates. *)
Section Sorting.
Context {T : Type} (cmp : T → T → comparison).

Fixpoint lex_compare (u v : list T) : comparison :=
  match u, v with
  | [], [] => Eq
  | [], _ :: _ => Lt
  | _ :: _, [] => Gt
  | x :: u', y :: v' =>
      match cmp x y with
      | Eq => lex_compare u' v'
      | c => c
      end
  end.

Fixpoint insert_unique (x : T) (l : list T) : list T :=
  match l with
  | [] => [x]
  | y :: l' =>
      match cmp x y with
      | Lt => x :: l
      | Eq => l
      | Gt => y :: insert_unique x l'
      end
  end.

Definition sort_unique (l : list T) : list T := foldr insert_unique [] l.

Fixpoint insert_sorted (x : T) (l : list T) : list T :=
  match l with
  | [] => [x]
  | y :: l' =>
      match cmp x y with
      | Gt => y :: insert_sorted x l'
      | _ => x :: l
      end
  end.

Definition sort_list (l : list T) : list T := foldr insert_sorted [] l.
End Sorting.

Definition np_unique (l : list Z) : list Z := sort_unique Z.compare l.

Definition sorted (l : list Z) : list Z := sort_list Z.compare l.

Definition np_unique_rows {T : Type} (cmp : T → T → comparison) (a : array2 T)
    : array2 T :=
  Array2 (shape1 a) (sort_unique (lex_compare cmp) (rows a)).

(** Elementwise operations on 1-D arrays, with numpy's broadcasting of a
    one-element operand. *)
Definition broadcast2 {A B C : Type} (f : A → B → C) (a : list A) (b : list B)
    : result (list C) :=
  if decide (length a = length b) then Ok (zip_with f a b)
  else match a, b with
       | [x], _ => Ok (f x <$> b)
       | _, [y] => Ok ((λ x, f x y) <$> a)
       | _, _ => Raise ValueError
       end.

(** [np.dot] of two 1-D integer-valued arrays. *)
Definition np_dot_Z (a b : list Z) : result Z :=
  if decide (length a = length b) then Ok (foldl Z.add 0%Z (zip_with Z.mul a b))
  else Raise ValueError.

(** [a * v] for a 2-D and a 1-D array of zeros and ones: [v] is broadcast
    over the rows of [a]; a single column of [a], or a single entry of [v],
    is broadcast along the row. *)
Definition np_multiply_rows (a : array2 bool) (v : list bool)
    : result (array2 bool) :=
  if decide (shape1 a = length v) then
    Ok (Array2 (shape1 a) ((λ r : list bool, zip_with andb r v) <$> rows a))
  else match v with
       | [x] =>
           Ok (Array2 (shape1 a)
                 ((λ r : list bool, (λ y, y && x) <$> r) <$> rows a))
       | _ =>
           if decide (shape1 a = 1) then
             Ok (Array2 (length v)
                   ((λ r : list bool, (λ x, default false (r !! 0) && x) <$> v)
                      <$> rows a))
           else Raise ValueError
       end.

(** ** itertools *)

(** Every element of [l] with the remaining elements, by position. *)
Fixpoint picks {A : Type} (l : list A) : list (A * list A) :=
  match l with
  | [] => []
  | x :: l' => (x, l') :: ((λ yr, (yr.1, x :: yr.2)) <$> picks l')
  end.

Fixpoint permutations_of_length {A : Type} (n : nat) (l : list A) : list (list A) :=
  match n with
  | 0 => [[]]
  | S n' =>
      xr ← picks l;
      (λ p, xr.1 :: p) <$> permutations_of_length n' xr.2
  end.

(** [itertools.permutations(l)]: all [len(l)!] orderings, by position, in
    lexicographic order of the positions. *)
Definition itertools_permutations {A : Type} (l : list A) : list (list A) :=
  permutations_of_length (length l) l.

(** ** algorithms/utilities.py *)

Module utilities.

(** [bin(p)[2:]], most significant digit first; the characters '0' and '1'
    are kept as the bits that [np.fromstring(s, 'u1') - ord('0')] makes of
    them. *)
Fixpoint bin (p : positive) : list bool :=
  match p with
  | xH => [true]
  | xO p' => bin p' ++ [false]
  | xI p' => bin p' ++ [true]
  end.

(** [np.binary_repr(num, width=width)] for [num >= 0]. *)
Definition binary_repr (num width : nat) : list bool :=
  match N.of_nat num with
  | N0 => replicate (if decide (width = 0) then 1 else width) false
  | Npos p =>
      let binary := bin p in
      let outwidth := length binary `max` width in
      replicate (outwidth - length binary) false ++ binary
  end.

Definition full_perm_construct (size : nat) : result (array2 bool) :=
  let all_perms := np_zeros2 false (2 ^ size) size in
  for_each (range (2 ^ size)) (λ i all_perms,
    let bin_arr := binary_repr i size in
    set_row all_perms i bin_arr) all_perms.

Definition perm_construct (org_dim_context max_no_red_context : nat)
    : result (array2 bool) :=
  if decide (org_dim_context = max_no_red_context) then
    full_perm_construct org_dim_context
  else
    all_perms ← for_each (range (max_no_red_context + 1))
      (λ i (all_perms : option (array2 bool)),
        let temp1 := replicate i true in
        let temp2 := replicate (org_dim_context - i) false in
        let temp_together := temp1 ++ temp2 in
        let temp := itertools_permutations temp_together in
        let p := np_unique_rows Bool.compare (Array2 (length temp_together) temp) in
        if decide (i = 0) then Ok (Some p)
        else match all_perms with
             | Some a => Some <$> np_concatenate a p
             | None => Raise UnboundLocalError
             end) None;
    match all_perms with
    | Some a => Ok a
    | None => Raise UnboundLocalError
    end.

(** [feature_values] is a [defaultdict(list)] with the keys [0 .. D-1],
    inserted in that order: it is kept as the list of its values, and a
    missing key reads as the empty list. *)
Abbreviation feature_values_t := (list (list (option Z))) (only parsing).

Definition fv_get (feature_values : feature_values_t) (i : nat) : list (option Z) :=
  default [] (feature_values !! i).

Definition save_feature_values (all_contexts : array2 Z)
    : feature_values_t * list Z :=
  let org_dim_context := shape1 all_contexts in
  foldl (λ '(feature_values, feature_counts) i,
      let unique_features := np_unique (column 0%Z all_contexts i) in
      let values := None :: (Some <$> sorted unique_features) in
      (feature_values ++ [values],
       <[i:=Z.of_nat (length values)]> feature_counts))
    ([], np_zeros 0%Z org_dim_context) (range org_dim_context).

Definition state_construct (all_feature_counts : list Z) (all_contexts : array2 Z)
    (one_perm : list bool) : result (Z * Z) :=
  let org_dim_context := shape1 all_contexts in
  number_of_observation_action ←
    np_dot_Z (Z.b2z <$> one_perm) (replicate org_dim_context 1%Z);
  if decide (0 < number_of_observation_action)%Z then
    for_each (range org_dim_context) (λ i '(psi, s_o),
      c ← getitem all_feature_counts i;
      b ← getitem one_perm i;
      Ok ((psi * (c - 1) ^ Z.b2z b)%Z, (s_o * c ^ Z.b2z b)%Z)) (1%Z, 1%Z)
  else Ok (1%Z, 1%Z).

Definition state_extract (feature_values : feature_values_t)
    (all_feature_counts : list Z) (context_at_t : list (option Z))
    (observation_action_at_t : list bool) : result Z :=
  let org_dim_context := length context_at_t in
  _ ← for_each (zip context_at_t observation_action_at_t)
    (λ '(feature, observation) (_ : unit),
      if observation : bool then
        if feature is Some _ then Ok () else Raise AssertionError
      else
        if feature is None then Ok () else Raise AssertionError) ();
  for_each (range org_dim_context) (λ i state_index,
    c ← getitem all_feature_counts i;
    let state_index := (state_index * c)%Z in
    x ← getitem context_at_t i;
    feature_index ← list_index (fv_get feature_values i) x;
    Ok (state_index + Z.of_nat feature_index)%Z) 0%Z.

(** The float array [context] stores [None] as nan and the last line turns
    nan back into [None]; an entry is kept as the [option Z] it ends as. *)
Definition state_create (state_index : Z) (feature_values : feature_values_t)
    : result (list (option Z)) :=
  let org_dim_context := length feature_values in
  let context := np_zeros (Some 0%Z) org_dim_context in
  '(_, context) ← for_each (reverse (range org_dim_context))
    (λ i '(state_index, context),
      let feature_count := Z.of_nat (length (fv_get feature_values i)) in
      if decide (feature_count = 0%Z) then Raise ZeroDivisionError
      else
        let feature_index := (state_index `mod` feature_count)%Z in
        v ← getitem (fv_get feature_values i) (Z.to_nat feature_index);
        context ← setitem context i v;
        let state_index := (state_index - feature_index)%Z in
        let state_index := (state_index `quot` feature_count)%Z in
        Ok (state_index, context)) (state_index, context);
  Ok context.

(** The flag is the int 1 (round over) or 0. *)
Definition is_round_over (N_old N : list Z) : result Z :=
  diff ← broadcast2 Z.sub N N_old;
  let floor := (λ x, x `max` 1)%Z <$> N_old in
  cmp ← broadcast2 (λ d m, bool_decide (m ≤ d)%Z) diff floor;
  Ok (Z.b2z (existsb id cmp)).

Definition generate_substate_observations (observation : list bool)
    : result (array2 bool) :=
  all_perms ← full_perm_construct (length observation);
  substate_observations ← np_multiply_rows all_perms observation;
  Ok (np_unique_rows Bool.compare substate_observations).

Definition get_substate (vector : list (option Z))
    (substate_observation : list bool) : result (list (option Z)) :=
  _ ← for_each (range (length substate_observation)) (λ i (_ : unit),
    x ← getitem vector i;
    if x is None then
      o ← getitem substate_observation i;
      if o : bool then Raise AssertionError else Ok ()
    else Ok ()) ();
  mapM (λ i,
      o ← getitem substate_observation i;
      if o : bool then getitem vector i else Ok None)
    (range (length substate_observation)).

(** [np.zeros(shape, dtype=object)] holds the int 0. *)
Definition generate_substates (partial_vector : list (option Z))
    (observation : list bool) : result (array2 (option Z) * array2 bool) :=
  substate_observations ← generate_substate_observations observation;
  let substates := np_zeros2 (Some 0%Z) (shape0 substate_observations)
                     (shape1 substate_observations) in
  substates ← for_each (enumerate (rows substate_observations))
    (λ '(i, substate_obs) substates,
      substate_vector ← get_substate partial_vector substate_obs;
      set_row substates i substate_vector) substates;
  Ok (substates, substate_observations).

End utilities.

(** ** float64 *)

(** A float is an exact rational or nan; infinities do not arise in the
    code modelled here (every divisor is a positive count), so [x / 0] is
    given as [nan]. *)
Inductive npfloat : Type :=
  | nan
  | num (q : Qc).

#[global] Instance npfloat_eq_dec : EqDecision npfloat.
Proof. solve_decision. Defined.

Definition float_of_Z (z : Z) : npfloat := num (Qc_of_Z z).

Definition fadd (x y : npfloat) : npfloat :=
  match x, y with
  | num a, num b => num (a + b)%Qc
  | _, _ => nan
  end.

Definition fsub (x y : npfloat) : npfloat :=
  match x, y with
  | num a, num b => num (a - b)%Qc
  | _, _ => nan
  end.

Definition fmul (x y : npfloat) : npfloat :=
  match x, y with
  | num a, num b => num (a * b)%Qc
  | _, _ => nan
  end.

Definition fdiv (x y : npfloat) : npfloat :=
  match x, y with
  | num a, num b => if decide (b = 0%Qc) then nan else num (a / b)%Qc
  | _, _ => nan
  end.

(** [x <= y]; false when either side is nan. *)
Definition fle (x y : npfloat) : bool :=
  match x, y with
  | num a, num b => bool_decide (a ≤ b)%Qc
  | _, _ => false
  end.

Definition np_sum (l : list npfloat) : npfloat := foldl fadd (float_of_Z 0) l.

(** [np.dot] of two 1-D float arrays. *)
Definition np_dot (a b : list npfloat) : result npfloat :=
  if decide (length a = length b) then Ok (np_sum (zip_with fmul a b))
  else Raise ValueError.

(** [np.max]: nan propagates. *)
Definition fmax (x y : npfloat) : npfloat :=
  match x, y with
  | num a, num b => if bool_decide (a ≤ b)%Qc then y else x
  | _, _ => nan
  end.

Definition np_max (l : list npfloat) : result npfloat :=
  match l with
  | [] => Raise ValueError
  | x :: l' => Ok (foldl fmax x l')
  end.

(** [np.argmax] as numpy scans: the running maximum [mp] at [max_ind] is
    replaced by the entry at [i] when [not (entry <= mp)]; a nan, once met,
    is maximal and ends the scan. *)
Fixpoint argmax_scan (l : list npfloat) (i : nat) (mp : npfloat) (max_ind : nat) : nat :=
  match l with
  | [] => max_ind
  | x :: l' =>
      if mp is nan then max_ind
      else if fle x mp then argmax_scan l' (S i) mp max_ind
      else argmax_scan l' (S i) x i
  end.

Definition np_argmax (l : list npfloat) : result nat :=
  match l with
  | [] => Raise ValueError
  | x :: l' => Ok (argmax_scan l' 1 x 0)
  end.

(** [np.amax] of an integer-valued array. *)
Definition np_amax_Z (l : list Z) : result Z :=
  match l with
  | [] => Raise ValueError
  | x :: l' => Ok (foldl Z.max x l')
  end.

(** [t[i, j]], [t[i, j] = x], [t[i, j, k]] and [t[i, j, k] = x] on tables. *)
Definition get2 {A : Type} (t : list (list A)) (i j : nat) : result A :=
  r ← getitem t i; getitem r j.

Definition set2 {A : Type} (t : list (list A)) (i j : nat) (x : A)
    : result (list (list A)) :=
  r ← getitem t i; r' ← setitem r j x; setitem t i r'.

Definition get3 {A : Type} (t : list (list (list A))) (i j k : nat) : result A :=
  r ← get2 t i j; getitem r k.

Definition set3 {A : Type} (t : list (list (list A))) (i j k : nat) (x : A)
    : result (list (list (list A))) :=
  r ← get2 t i j; r' ← setitem r k x; set2 t i j r'.

Definition np_zeros3 {A : Type} (zero : A) (n m k : nat) : list (list (list A)) :=
  replicate n (replicate m (replicate k zero)).

(** [np.tile(v, [n, 1])] *)
Definition np_tile {A : Type} (v : list A) (n : nat) : array2 A :=
  Array2 (length v) (replicate n v).

(** [a * b] on 2-D arrays with the same number of columns; a one-row
    operand is broadcast over the rows of the other. *)
Definition np_multiply (a b : array2 Z) : result (array2 Z) :=
  if decide (shape1 a = shape1 b) then
    if decide (shape0 a = shape0 b) then
      Ok (Array2 (shape1 a) (zip_with (zip_with Z.mul) (rows a) (rows b)))
    else match rows a, rows b with
         | [r], _ => Ok (Array2 (shape1 a) (zip_with Z.mul r <$> rows b))
         | _, [r] => Ok (Array2 (shape1 a) ((λ x, zip_with Z.mul x r) <$> rows a))
         | _, _ => Raise ValueError
         end
  else Raise ValueError.

(** [a[mask, :]] for a boolean mask over the rows. *)
Definition np_bool_index {A : Type} (a : array2 A) (mask : list bool)
    : result (array2 A) :=
  if decide (length mask = shape0 a) then
    Ok (Array2 (shape1 a) ((λ rm, rm.1) <$> filter (λ rm, rm.2 = true) (zip (rows a) mask)))
  else Raise IndexError.

(** The right-hand side of [a[i] = v]: a number, or the pair a function
    returned. *)
Inductive pyvalue : Type :=
  | PyNum (x : Z)
  | PyTuple (x y : Z).

(** [a[i] = v] on a 1-D float array: a sequence cannot be stored in one
    element ("setting an array element with a sequence"). *)
Definition ndarray_setitem (a : list Z) (i : nat) (v : pyvalue) : result (list Z) :=
  if decide (i < length a) then
    match v with
    | PyNum x => Ok (<[i:=x]> a)
    | PyTuple _ _ => Raise ValueError
    end
  else Raise IndexError.

(** ** src/algorithms/oracle_simoos.py *)

Module oracle_simoos.

Definition general (all_contexts : array2 Z) (all_rewards : array2 npfloat)
    (max_num_observations s_o_max_general : nat)
    : result (list (list npfloat) * list (list (list npfloat)) * list Z) :=
  let time_horizon := shape0 all_rewards in
  let number_of_actions := shape1 all_rewards in
  let context_dimensionality := shape1 all_contexts in
  all_perms ← utilities.perm_construct context_dimensionality max_num_observations;
  let number_of_perms_general := shape0 all_perms in
  let number_of_unique_state_s_when_applying_perm_i :=
    rows (np_zeros2 0%Z number_of_perms_general s_o_max_general) in
  let true_prob_so :=
    rows (np_zeros2 (float_of_Z 0) number_of_perms_general s_o_max_general) in
  let S_Size := np_zeros 0%Z number_of_perms_general in
  let true_average_reward :=
    np_zeros3 (float_of_Z 0) number_of_perms_general s_o_max_general number_of_actions in
  let number_of_visits_for_average_reward :=
    np_zeros3 0%Z number_of_perms_general s_o_max_general number_of_actions in
  let sum_of_rewards :=
    np_zeros3 (float_of_Z 0) number_of_perms_general s_o_max_general number_of_actions in
  '(_, true_prob_so, S_Size, true_average_reward, _, _) ←
    for_each (range number_of_perms_general)
      (λ i '(number_of_unique, true_prob_so, S_Size, true_average_reward,
             number_of_visits, sum_of_rewards),
        one_perm ← getitem (rows all_perms) i;
        let O_temp := np_tile (Z.b2z <$> one_perm) time_horizon in
        all_contexts_temp ← np_multiply all_contexts O_temp;
        let S_i := np_unique_rows Z.compare all_contexts_temp in
        S_Size ← setitem S_Size i (Z.of_nat (shape0 S_i));
        S_Size_i ← getitem S_Size i;
        for_each (range (Z.to_nat S_Size_i))
          (λ j '(number_of_unique, true_prob_so, S_Size, true_average_reward,
                 number_of_visits, sum_of_rewards),
            S_i_j ← getitem (rows S_i) j;
            let all_unique_state_s_when_applying_perm_i :=
              (λ r, bool_decide (r = S_i_j)) <$> rows all_contexts_temp in
            old ← get2 number_of_unique i j;
            number_of_unique ← set2 number_of_unique i j
              (old + Z.of_nat (length (filter (λ b, b = true)
                                 all_unique_state_s_when_applying_perm_i)))%Z;
            n ← get2 number_of_unique i j;
            true_prob_so ← set2 true_prob_so i j
              (fdiv (float_of_Z n) (float_of_Z (Z.of_nat time_horizon)));
            all_rewards_temp ←
              np_bool_index all_rewards all_unique_state_s_when_applying_perm_i;
            '(true_average_reward, number_of_visits, sum_of_rewards) ←
              for_each (range number_of_actions)
                (λ k '(true_average_reward, number_of_visits, sum_of_rewards),
                  let col := column nan all_rewards_temp k in
                  number_of_visits ← set3 number_of_visits i j k
                    (Z.of_nat (length col));
                  sum_of_rewards ← set3 sum_of_rewards i j k (np_sum col);
                  s ← get3 sum_of_rewards i j k;
                  v ← get3 number_of_visits i j k;
                  true_average_reward ← set3 true_average_reward i j k
                    (fdiv s (float_of_Z v));
                  Ok (true_average_reward, number_of_visits, sum_of_rewards))
                (true_average_reward, number_of_visits, sum_of_rewards);
            Ok (number_of_unique, true_prob_so, S_Size, true_average_reward,
                number_of_visits, sum_of_rewards))
          (number_of_unique, true_prob_so, S_Size, true_average_reward,
           number_of_visits, sum_of_rewards))
      (number_of_unique_state_s_when_applying_perm_i, true_prob_so, S_Size,
       true_average_reward, number_of_visits_for_average_reward, sum_of_rewards);
  Ok (true_prob_so, true_average_reward, S_Size).

(** The attributes of a [SimOOS_Oracle] object that the constructor,
    [choose_features_to_observe] and [choose_arm] use ([name],
    [perm_to_index] and the logs that only [update] writes are left out).
    [observation_action_at_t] and [action_at_t] do not exist until a method
    assigns them. *)
Record SimOOS_Oracle : Type := {
  self_time_horizon : nat;
  self_context_dimensionality : nat;
  self_max_num_observations : nat;
  self_number_of_actions : nat;
  self_beta : npfloat;
  self_all_perms : array2 bool;
  self_number_of_perms : nat;
  self_s_o : list Z;
  self_states : list Z;
  self_true_average_rewards : array2 npfloat;
  self_feature_values : list (list (option Z));
  self_all_feature_counts : list Z;
  self_s_o_max : nat;
  self_Psi_total : Z;
  self_true_prob_so : list (list npfloat);
  self_true_average_reward : list (list (list npfloat));
  self_S_Size : list Z;
  self_r_star : list (list npfloat);
  self_action_star : list (list Z);
  self_value_o : list npfloat;
  self_index_of_observation_action_star : nat;
  self_selected_observation_action_at_t : list bool;
  self_observation_action_at_t : option (list bool);
  self_action_at_t : option Z
}.

(** Lines 118-125 of [__init__]: the loop that fills [self.s_o].  The
    right-hand side of the assignment is what [state_construct] returns,
    the pair [(psi, s_o)]. *)
Definition init_s_o (all_feature_counts : list Z) (all_contexts : array2 Z)
    (all_perms : array2 bool) : result (list Z) :=
  let number_of_perms := shape0 all_perms in
  for_each (range number_of_perms) (λ i s_o,
    one_perm ← getitem (rows all_perms) i;
    '(psi_i, s_o_i) ← utilities.state_construct all_feature_counts all_contexts one_perm;
    ndarray_setitem s_o i (PyTuple psi_i s_o_i)) (np_zeros 0%Z number_of_perms).

(** Lines 127-154 of [__init__], as a function of the contents of
    [self.s_o]. *)
Definition init_tables (all_contexts : array2 Z) (all_rewards : array2 npfloat)
    (cost_vector : list npfloat) (number_of_actions max_num_observations : nat)
    (beta : npfloat) (all_perms : array2 bool)
    (feature_values : list (list (option Z))) (all_feature_counts : list Z)
    (s_o : list Z) : result SimOOS_Oracle :=
  let time_horizon := shape0 all_contexts in
  let context_dimensionality := shape1 all_contexts in
  let number_of_perms := shape0 all_perms in
  s_o_max ← Z.to_nat <$> np_amax_Z s_o;
  let Psi_total := foldl Z.add 0%Z s_o in
  '(true_prob_so, true_average_reward, S_Size) ←
    general all_contexts all_rewards max_num_observations s_o_max;
  let r_star := rows (np_zeros2 (float_of_Z 0) number_of_perms s_o_max) in
  let action_star := rows (np_zeros2 0%Z number_of_perms s_o_max) in
  '(r_star, action_star) ←
    for_each (range number_of_perms) (λ i '(r_star, action_star),
      S_Size_i ← getitem S_Size i;
      for_each (range (Z.to_nat S_Size_i)) (λ j '(r_star, action_star),
        rewards ← get2 true_average_reward i j;
        best ← np_max rewards;
        r_star ← set2 r_star i j best;
        arm ← np_argmax rewards;
        action_star ← set2 action_star i j (Z.of_nat arm);
        Ok (r_star, action_star)) (r_star, action_star)) (r_star, action_star);
  value_o ←
    for_each (range number_of_perms) (λ i value_o,
      prob_i ← getitem true_prob_so i;
      r_star_i ← getitem r_star i;
      expected ← np_dot prob_i r_star_i;
      one_perm ← getitem (rows all_perms) i;
      cost ← np_dot ((λ b : bool, float_of_Z (Z.b2z b)) <$> one_perm) cost_vector;
      setitem value_o i (fsub (fmul beta expected) cost))
      (np_zeros (float_of_Z 0) number_of_perms);
  index_of_observation_action_star ← np_argmax value_o;
  selected_observation_action_at_t ←
    getitem (rows all_perms) index_of_observation_action_star;
  Ok {|
    self_time_horizon := time_horizon;
    self_context_dimensionality := context_dimensionality;
    self_max_num_observations := max_num_observations;
    self_number_of_actions := number_of_actions;
    self_beta := beta;
    self_all_perms := all_perms;
    self_number_of_perms := number_of_perms;
    self_s_o := s_o;
    self_states := np_zeros 0%Z time_horizon;
    self_true_average_rewards :=
      np_zeros2 (float_of_Z 0) time_horizon number_of_actions;
    self_feature_values := feature_values;
    self_all_feature_counts := all_feature_counts;
    self_s_o_max := s_o_max;
    self_Psi_total := Psi_total;
    self_true_prob_so := true_prob_so;
    self_true_average_reward := true_average_reward;
    self_S_Size := S_Size;
    self_r_star := r_star;
    self_action_star := action_star;
    self_value_o := value_o;
    self_index_of_observation_action_star := index_of_observation_action_star;
    self_selected_observation_action_at_t := selected_observation_action_at_t;
    self_observation_action_at_t := None;
    self_action_at_t := None
  |}.

(** [SimOOS_Oracle.__init__] *)
Definition __init__ (all_contexts : array2 Z) (all_rewards : array2 npfloat)
    (cost_vector : list npfloat) (number_of_actions max_num_observations : nat)
    (beta : npfloat) : result SimOOS_Oracle :=
  let context_dimensionality := shape1 all_contexts in
  all_perms ← utilities.perm_construct context_dimensionality max_num_observations;
  let '(feature_values, all_feature_counts) :=
    utilities.save_feature_values all_contexts in
  s_o ← init_s_o all_feature_counts all_contexts all_perms;
  init_tables all_contexts all_rewards cost_vector number_of_actions
    max_num_observations beta all_perms feature_values all_feature_counts s_o.

Definition set_observation_action_at_t (self : SimOOS_Oracle) (o : list bool)
    : SimOOS_Oracle :=
  {|
    self_time_horizon := self_time_horizon self;
    self_context_dimensionality := self_context_dimensionality self;
    self_max_num_observations := self_max_num_observations self;
    self_number_of_actions := self_number_of_actions self;
    self_beta := self_beta self;
    self_all_perms := self_all_perms self;
    self_number_of_perms := self_number_of_perms self;
    self_s_o := self_s_o self;
    self_states := self_states self;
    self_true_average_rewards := self_true_average_rewards self;
    self_feature_values := self_feature_values self;
    self_all_feature_counts := self_all_feature_counts self;
    self_s_o_max := self_s_o_max self;
    self_Psi_total := self_Psi_total self;
    self_true_prob_so := self_true_prob_so self;
    self_true_average_reward := self_true_average_reward self;
    self_S_Size := self_S_Size self;
    self_r_star := self_r_star self;
    self_action_star := self_action_star self;
    self_value_o := self_value_o self;
    self_index_of_observation_action_star :=
      self_index_of_observation_action_star self;
    self_selected_observation_action_at_t :=
      self_selected_observation_action_at_t self;
    self_observation_action_at_t := Some o;
    self_action_at_t := self_action_at_t self
  |}.

(** The assignments of [choose_arm] to [self.states],
    [self.true_average_rewards] and [self.action_at_t]. *)
Definition set_trial_log (self : SimOOS_Oracle) (states : list Z)
    (true_average_rewards : array2 npfloat) (action_at_t : Z) : SimOOS_Oracle :=
  {|
    self_time_horizon := self_time_horizon self;
    self_context_dimensionality := self_context_dimensionality self;
    self_max_num_observations := self_max_num_observations self;
    self_number_of_actions := self_number_of_actions self;
    self_beta := self_beta self;
    self_all_perms := self_all_perms self;
    self_number_of_perms := self_number_of_perms self;
    self_s_o := self_s_o self;
    self_states := states;
    self_true_average_rewards := true_average_rewards;
    self_feature_values := self_feature_values self;
    self_all_feature_counts := self_all_feature_counts self;
    self_s_o_max := self_s_o_max self;
    self_Psi_total := self_Psi_total self;
    self_true_prob_so := self_true_prob_so self;
    self_true_average_reward := self_true_average_reward self;
    self_S_Size := self_S_Size self;
    self_r_star := self_r_star self;
    self_action_star := self_action_star self;
    self_value_o := self_value_o self;
    self_index_of_observation_action_star :=
      self_index_of_observation_action_star self;
    self_selected_observation_action_at_t :=
      self_selected_observation_action_at_t self;
    self_observation_action_at_t := self_observation_action_at_t self;
    self_action_at_t := Some action_at_t
  |}.

(** [SimOOS_Oracle.choose_features_to_observe]: the new object state and
    the returned list. *)
Definition choose_features_to_observe (self : SimOOS_Oracle) (t : nat)
    (feature_indices : list nat) (cost_vector : list npfloat)
    : SimOOS_Oracle * list nat :=
  let self := set_observation_action_at_t self
                (self_selected_observation_action_at_t self) in
  (self,
   (λ iv, iv.1) <$>
     filter (λ iv, iv.2 = true)
       (enumerate (default [] (self_observation_action_at_t self)))).

(** [SimOOS_Oracle.choose_arm] *)
Definition choose_arm (self : SimOOS_Oracle) (t : nat)
    (context_at_t : list (option Z)) (pool_indices : list Z)
    : result (SimOOS_Oracle * nat) :=
  observation_action_at_t ←
    (if self_observation_action_at_t self is Some o then Ok o
     else Raise AttributeError);
  s_t ← utilities.state_extract (self_feature_values self)
         (self_all_feature_counts self) context_at_t observation_action_at_t;
  states ← setitem (self_states self) t s_t;
  rewards ← get2 (self_true_average_reward self)
              (self_index_of_observation_action_star self) (Z.to_nat s_t);
  true_average_rewards ← set_row (self_true_average_rewards self) t rewards;
  action_at_t ← get2 (self_action_star self)
                  (self_index_of_observation_action_star self) (Z.to_nat s_t);
  let self := set_trial_log self states true_average_rewards action_at_t in
  position ← list_index pool_indices action_at_t;
  Ok (self, position).

End oracle_simoos.

(** ** Vocabulary of the statements *)

(** The number of ones of an observation action. *)
Definition hamming_weight (v : list bool) : nat :=
  foldr (λ (b : bool) n, Nat.b2n b + n) 0 v.

(** The value of a bit string, most significant bit first. *)
Definition bits_value (v : list bool) : N :=
  foldl (λ acc (b : bool), (2 * acc + N.b2n b)%N) 0%N v.

(** The rows that iteration [i] of the loop of [perm_construct] adds. *)
Definition weight_class (D i : nat) : list (list bool) :=
  sort_unique (lex_compare Bool.compare)
    (itertools_permutations (replicate i true ++ replicate (D - i) false)).

(** The product of [f count[i]] over the positions [i] whose observation
    bit is 1. *)
Definition prod_observed (f : Z → Z) (counts : list Z) (perm : list bool) : Z :=
  foldr Z.mul 1%Z (zip_with (λ c (b : bool), if b then f c else 1%Z) counts perm).

(** A position breaks the partial-vector invariant when it holds the
    sentinel under observation bit 1 or a concrete value under bit 0. *)
Definition mismatch (x : option Z) (o : bool) : Prop :=
  (x = None ∧ o = true) ∨ (x ≠ None ∧ o = false).

#[global] Instance mismatch_dec x o : Decision (mismatch x o).
Proof. unfold mismatch. apply _. Defined.

(** The invariant of a partial vector: sentinel iff the bit is 0. *)
Definition sentinel_iff_unobserved (ctx : list (option Z)) (obs : list bool) : Prop :=
  Forall2 (λ x o, ¬ mismatch x o) ctx obs.

(** A feature-value catalog as the data model has it: per feature the
    sentinel followed by the distinct values in increasing order, and the
    count of that list. *)
Definition feature_ok (vals : list (option Z)) (c : Z) : Prop :=
  c = Z.of_nat (length vals) ∧
  ∃ vs, vals = None :: (Some <$> vs) ∧ StronglySorted Z.lt vs.

Definition catalog_ok (fv : utilities.feature_values_t) (counts : list Z) : Prop :=
  Forall2 feature_ok fv counts.

(** Every entry of the partial vector occurs in the catalog list of its
    feature. *)
Definition in_catalog (fv : utilities.feature_values_t) (ctx : list (option Z)) : Prop :=
  Forall2 (λ x vals, x ∈ vals) ctx fv.

(** ** Example data *)

(** Two historical trials over two features. *)
Definition two_feature_contexts : array2 Z := Array2 2 [[5; 1]; [7; 2]]%Z.

(** A history of two trials over one feature and two arms: arm 0 pays in
    the state 5, arm 1 in the state 7; observing the feature is free. *)
Definition one_feature_contexts : array2 Z := Array2 1 [[5]; [7]]%Z.

Definition one_feature_rewards : array2 npfloat :=
  Array2 2 [[float_of_Z 1; float_of_Z 0]; [float_of_Z 0; float_of_Z 1]].

Definition free_costs : list npfloat := [float_of_Z 0].

(** The object that lines 127-154 of the constructor build for that
    history, under a budget of one feature and beta = 1, when [self.s_o]
    holds the array sizes 1 and 3 that [state_construct] gives for the two
    observation actions [0] and [1]. *)
Definition one_feature_oracle : result oracle_simoos.SimOOS_Oracle :=
  all_perms ← utilities.perm_construct 1 1;
  oracle_simoos.init_tables one_feature_contexts one_feature_rewards free_costs
    2 1 (float_of_Z 1) all_perms
    (utilities.save_feature_values one_feature_contexts).1
    (utilities.save_feature_values one_feature_contexts).2 [1; 3]%Z.

(** ** Vocabulary of the statements about [general] *)

(** A context row masked to an observation action: [ctx * one_perm]. *)
Definition mask (one_perm : list bool) (ctx : list Z) : list Z :=
  zip_with Z.mul ctx (Z.b2z <$> one_perm).

(** The distinct masked rows of the history under an action, in the order
    of [np.unique]: one per group of trials. *)
Definition distinct_states (one_perm : list bool) (all_contexts : array2 Z)
    : list (list Z) :=
  sort_unique (lex_compare Z.compare) (mask one_perm <$> rows all_contexts).

(** The reward rows of the trials whose masked context is [state]. *)
Definition group_rewards (one_perm : list bool) (all_contexts : array2 Z)
    (all_rewards : array2 npfloat) (state : list Z) : list (list npfloat) :=
  (λ cr, cr.2) <$>
    filter (λ cr, mask one_perm cr.1 = state)
      (zip (rows all_contexts) (rows all_rewards)).

(** The rewards of arm [k] over a group. *)
Definition arm_rewards (k : nat) (group : list (list npfloat)) : list npfloat :=
  (λ r, default nan (r !! k)) <$> group.

(** A reward that was recorded is a number, not nan. *)
Definition recorded (x : npfloat) : Prop := x ≠ nan.

#[global] Instance recorded_dec x : Decision (recorded x).
Proof. unfold recorded. apply _. Defined.

Definition mean (l : list npfloat) : npfloat :=
  fdiv (np_sum l) (float_of_Z (Z.of_nat (length l))).

(** ** The loops of [general], named

    The three nested loop bodies of [general], innermost first, as
    functions of the variables they read; [general] is the same term
    (lemma [general_loops]). *)

Definition arm_loop (i j : nat) (all_rewards_temp : array2 npfloat) (k : nat)
    (tables : list (list (list npfloat)) * list (list (list Z))
              * list (list (list npfloat)))
    : result (list (list (list npfloat)) * list (list (list Z))
              * list (list (list npfloat))) :=
  let '(true_average_reward, number_of_visits, sum_of_rewards) := tables in
  let col := column nan all_rewards_temp k in
  number_of_visits ← set3 number_of_visits i j k (Z.of_nat (length col));
  sum_of_rewards ← set3 sum_of_rewards i j k (np_sum col);
  s ← get3 sum_of_rewards i j k;
  v ← get3 number_of_visits i j k;
  true_average_reward ← set3 true_average_reward i j k (fdiv s (float_of_Z v));
  Ok (true_average_reward, number_of_visits, sum_of_rewards).

Definition general_tables : Type :=
  list (list Z) * list (list npfloat) * list Z * list (list (list npfloat))
  * list (list (list Z)) * list (list (list npfloat)).

Definition state_loop (all_rewards : array2 npfloat) (i : nat)
    (S_i all_contexts_temp : array2 Z) (j : nat) (tables : general_tables)
    : result general_tables :=
  let time_horizon := shape0 all_rewards in
  let number_of_actions := shape1 all_rewards in
  let '(number_of_unique, true_prob_so, S_Size, true_average_reward,
        number_of_visits, sum_of_rewards) := tables in
  S_i_j ← getitem (rows S_i) j;
  let all_unique_state_s_when_applying_perm_i :=
    (λ r, bool_decide (r = S_i_j)) <$> rows all_contexts_temp in
  old ← get2 number_of_unique i j;
  number_of_unique ← set2 number_of_unique i j
    (old + Z.of_nat (length (filter (λ b, b = true)
                       all_unique_state_s_when_applying_perm_i)))%Z;
  n ← get2 number_of_unique i j;
  true_prob_so ← set2 true_prob_so i j
    (fdiv (float_of_Z n) (float_of_Z (Z.of_nat time_horizon)));
  all_rewards_temp ←
    np_bool_index all_rewards all_unique_state_s_when_applying_perm_i;
  '(true_average_reward, number_of_visits, sum_of_rewards) ←
    for_each (range number_of_actions) (arm_loop i j all_rewards_temp)
      (true_average_reward, number_of_visits, sum_of_rewards);
  Ok (number_of_unique, true_prob_so, S_Size, true_average_reward,
      number_of_visits, sum_of_rewards).

Definition action_loop (all_contexts : array2 Z) (all_rewards : array2 npfloat)
    (all_perms : array2 bool) (i : nat) (tables : general_tables)
    : result general_tables :=
  let time_horizon := shape0 all_rewards in
  let '(number_of_unique, true_prob_so, S_Size, true_average_reward,
        number_of_visits, sum_of_rewards) := tables in
  one_perm ← getitem (rows all_perms) i;
  let O_temp := np_tile (Z.b2z <$> one_perm) time_horizon in
  all_contexts_temp ← np_multiply all_contexts O_temp;
  let S_i := np_unique_rows Z.compare all_contexts_temp in
  S_Size ← setitem S_Size i (Z.of_nat (shape0 S_i));
  S_Size_i ← getitem S_Size i;
  for_each (range (Z.to_nat S_Size_i))
    (state_loop all_rewards i S_i all_contexts_temp)
    (number_of_unique, true_prob_so, S_Size, true_average_reward,
     number_of_visits, sum_of_rewards).

(** The entries [k .. k+m-1] of [r] replaced by [f k .. f (k+m-1)]. *)
Definition filled {A : Type} (f : nat → A) (k m : nat) (r : list A) : list A :=
  take k r ++ (f <$> seq k m) ++ drop (k + m) r.

(** What one pass of the loop over the states computes for the masked
    row [state]: the mask of its trials, their count, the occurrence
    probability, the reward rows of the group, and the three rows of
    per-arm statistics. *)
Definition state_mask (all_contexts_temp : array2 Z) (state : list Z) : list bool :=
  (λ r, bool_decide (r = state)) <$> rows all_contexts_temp.

Definition state_count (all_contexts_temp : array2 Z) (state : list Z) : Z :=
  Z.of_nat (length (filter (λ b, b = true) (state_mask all_contexts_temp state))).

Definition state_prob (all_rewards : array2 npfloat) (all_contexts_temp : array2 Z)
    (state : list Z) : npfloat :=
  fdiv (float_of_Z (state_count all_contexts_temp state))
       (float_of_Z (Z.of_nat (shape0 all_rewards))).

Definition state_rewards (all_rewards : array2 npfloat) (all_contexts_temp : array2 Z)
    (state : list Z) : array2 npfloat :=
  Array2 (shape1 all_rewards)
    ((λ rm, rm.1) <$>
       filter (λ rm, rm.2 = true)
         (zip (rows all_rewards) (state_mask all_contexts_temp state))).

Definition state_sums (all_rewards : array2 npfloat) (all_contexts_temp : array2 Z)
    (state : list Z) : list npfloat :=
  (λ k, np_sum (column nan (state_rewards all_rewards all_contexts_temp state) k))
    <$> seq 0 (shape1 all_rewards).

Definition state_visits (all_rewards : array2 npfloat) (all_contexts_temp : array2 Z)
    (state : list Z) : list Z :=
  (λ k, Z.of_nat (length (column nan
                            (state_rewards all_rewards all_contexts_temp state) k)))
    <$> seq 0 (shape1 all_rewards).

Definition state_averages (all_rewards : array2 npfloat) (all_contexts_temp : array2 Z)
    (state : list Z) : list npfloat :=
  (λ k, fdiv
     (np_sum (column nan (state_rewards all_rewards all_contexts_temp state) k))
     (float_of_Z (Z.of_nat (length (column nan
        (state_rewards all_rewards all_contexts_temp state) k)))))
    <$> seq 0 (shape1 all_rewards).

(** The [j]-th distinct state of [S_i]. *)
Definition state_at (S_i : array2 Z) (j : nat) : list Z :=
  default [] (rows S_i !! j).

(** What one pass of the loop over the observation actions computes: the
    masked history, its distinct rows [S_i], and the row of each table,
    whose first [S_Size[i]] cells are written and whose other cells keep
    their zero. *)
Definition masked_contexts (one_perm : list bool) (all_contexts : array2 Z)
    : array2 Z :=
  Array2 (shape1 all_contexts) (mask one_perm <$> rows all_contexts).

Definition action_states (one_perm : list bool) (all_contexts : array2 Z)
    : array2 Z :=
  np_unique_rows Z.compare (masked_contexts one_perm all_contexts).

Definition action_row {A : Type} (cell : array2 Z → list Z → A) (zero : A)
    (all_contexts : array2 Z) (width : nat) (one_perm : list bool) : list A :=
  filled
    (λ j, cell (masked_contexts one_perm all_contexts)
               (state_at (action_states one_perm all_contexts) j))
    0 (shape0 (action_states one_perm all_contexts)) (replicate width zero).

(** The observation action [all_perms[i]]. *)
Definition perm_at (all_perms : array2 bool) (i : nat) : list bool :=
  default [] (rows all_perms !! i).

(** A history of two trials with the same context, where the reward of the
    only arm was not recorded at the second trial. *)
Definition unrecorded_contexts : array2 Z := Array2 1 [[1]; [1]]%Z.

Definition unrecorded_rewards : array2 npfloat := Array2 1 [[float_of_Z 1]; [nan]].

(** ** Vocabulary of the statements about partial vectors and substates *)

(** What an observation action shows of a full context: the value where
    the bit is 1, the sentinel where it is 0. *)
Definition observe (obs : list bool) (ctx : list Z) : list (option Z) :=
  zip_with (λ (o : bool) x, if o then Some x else None) obs ctx.

(** A partial vector cut down to an observation action. *)
Definition restrict (vector : list (option Z)) (sub : list bool)
    : list (option Z) :=
  zip_with (λ x (o : bool), if o then x else None) vector sub.

(** [sub] observes no feature that [obs] does not. *)
Definition sub_observation (sub obs : list bool) : Prop :=
  Forall2 (λ s o : bool, s = true → o = true) sub obs.

(** The sub-observations of an observation action, in lexicographic
    order. *)
Fixpoint sub_observations (obs : list bool) : list (list bool) :=
  match obs with
  | [] => [[]]
  | o :: obs' =>
      (cons false <$> sub_observations obs')
      ++ (if o then cons true <$> sub_observations obs' else [])
  end.

Import utilities oracle_simoos.

(** * Properties *)

(** ** The error monad and loops *)

Lemma for_each_app {X S : Type} (xs ys : list X) (body : X → S → result S) (s : S) :
  for_each (xs ++ ys) body s = for_each xs body s ≫= for_each ys body.
Proof.
  revert s. induction xs as [|x xs IH]; intros s; simpl; [done|].
  destruct (body x s) as [s'|e]; simpl; [apply IH|done].
Qed.

Lemma for_each_ext {X S : Type} (xs : list X) (f g : X → S → result S) (s : S) :
  (∀ x s', x ∈ xs → f x s' = g x s') → for_each xs f s = for_each xs g s.
Proof.
  revert s. induction xs as [|x xs IH]; intros s Hfg; simpl; [done|].
  rewrite Hfg by left.
  destruct (g x s) as [s'|e]; simpl; [|done].
  apply IH. intros y t Hy. apply Hfg. by right.
Qed.

Lemma getitem_Ok {A : Type} (a : list A) (i : nat) (x : A) :
  getitem a i = Ok x ↔ a !! i = Some x.
Proof. unfold getitem. destruct (a !! i); naive_solver. Qed.

Lemma getitem_lt {A : Type} (a : list A) (i : nat) :
  i < length a → ∃ x, a !! i = Some x ∧ getitem a i = Ok x.
Proof.
  intros Hi. destruct (lookup_lt_is_Some_2 a i Hi) as [x Hx].
  exists x. split; [done|]. by apply getitem_Ok.
Qed.

Lemma setitem_lt {A : Type} (a : list A) (i : nat) (x : A) :
  i < length a → setitem a i x = Ok (<[i:=x]> a).
Proof. intros Hi. unfold setitem. by rewrite decide_True. Qed.

(** ** Sorting and [np.unique] *)

Section SortingFacts.
Context {T : Type} (cmp : T → T → comparison).
Hypothesis cmp_eq : ∀ x y, cmp x y = Eq ↔ x = y.
Hypothesis cmp_antisym : ∀ x y, cmp y x = CompOpp (cmp x y).
Hypothesis cmp_trans : ∀ x y z, cmp x y = Lt → cmp y z = Lt → cmp x z = Lt.

Lemma cmp_refl x : cmp x x = Eq.
Proof. by apply cmp_eq. Qed.

Lemma cmp_Gt_Lt x y : cmp x y = Gt → cmp y x = Lt.
Proof. intros H. by rewrite cmp_antisym, H. Qed.

Lemma elem_of_insert_unique x y l :
  y ∈ insert_unique cmp x l ↔ y = x ∨ y ∈ l.
Proof.
  induction l as [|z l IH]; simpl.
  - rewrite list_elem_of_singleton, elem_of_nil. tauto.
  - destruct (cmp x z) eqn:E.
    + apply cmp_eq in E as ->. rewrite elem_of_cons.
      split; [tauto|]. intros [->|H]; [by left|done].
    + rewrite !elem_of_cons. tauto.
    + rewrite !elem_of_cons, IH. tauto.
Qed.

Lemma elem_of_sort_unique x l : x ∈ sort_unique cmp l ↔ x ∈ l.
Proof.
  induction l as [|z l IH]; simpl; [done|].
  rewrite elem_of_insert_unique, IH, elem_of_cons. tauto.
Qed.

Lemma insert_unique_sorted x l :
  StronglySorted (λ a b, cmp a b = Lt) l →
StronglySorted (λ a b, cmp a b = Lt) (insert_unique cmp x l).
Proof.
  induction 1 as [|z l Hl IH Hz]; simpl.
  - repeat constructor.
  - destruct (cmp x z) eqn:E.
    + by constructor.
    + constructor; [by constructor|]. constructor; [done|].
      eapply Forall_impl; [exact Hz|]. intros w Hw. by eapply cmp_trans.
    + constructor; [done|]. apply Forall_forall. intros w Hw.
      apply elem_of_insert_unique in Hw as [->|Hw].
      * by apply cmp_Gt_Lt.
      * by eapply Forall_forall in Hz.
Qed.

Lemma sort_unique_sorted l : StronglySorted (λ a b, cmp a b = Lt) (sort_unique cmp l).
Proof.
  induction l as [|z l IH]; simpl; [constructor|].
  by apply insert_unique_sorted.
Qed.

Lemma sort_unique_NoDup l : NoDup (sort_unique cmp l).
Proof.
  generalize (sort_unique_sorted l). generalize (sort_unique cmp l). clear l.
  induction 1 as [|z l Hl IH Hz]; constructor; [|done].
  intros Hin. eapply Forall_forall in Hz; [|exact Hin].
  simpl in Hz. by rewrite cmp_refl in Hz.
Qed.

Lemma sort_unique_nonempty l : l ≠ [] → sort_unique cmp l ≠ [].
Proof.
  destruct l as [|x l]; [done|]. intros _ Hnil.
  assert (Hx : x ∈ sort_unique cmp (x :: l)) by (apply elem_of_sort_unique; left).
  rewrite Hnil in Hx. by apply not_elem_of_nil in Hx.
Qed.

Lemma lex_compare_eq u v : lex_compare cmp u v = Eq ↔ u = v.
Proof.
  revert v. induction u as [|x u IH]; intros [|y v]; simpl; try done.
  destruct (cmp x y) eqn:E.
  - apply cmp_eq in E as ->. rewrite IH.
    split; [by intros ->|by intros [= ->]].
  - split; [done|]. intros [= -> _]. by rewrite cmp_refl in E.
  - split; [done|]. intros [= -> _]. by rewrite cmp_refl in E.
Qed.

Lemma lex_compare_antisym u v :
  lex_compare cmp v u = CompOpp (lex_compare cmp u v).
Proof.
  revert v. induction u as [|x u IH]; intros [|y v]; simpl; try done.
  rewrite (cmp_antisym x y). destruct (cmp x y); simpl; auto.
Qed.

Lemma lex_compare_trans u v w :
  lex_compare cmp u v = Lt → lex_compare cmp v w = Lt →
  lex_compare cmp u w = Lt.
Proof.
  revert v w. induction u as [|x u IH]; intros [|y v] [|z w]; simpl; try done.
  destruct (cmp x y) eqn:Exy; [|clear IH|done];
    destruct (cmp y z) eqn:Eyz; try done.
  - apply cmp_eq in Exy as ->. rewrite Eyz. apply IH.
  - apply cmp_eq in Exy as ->. by rewrite Eyz.
  - apply cmp_eq in Eyz as ->. by rewrite Exy.
  - by rewrite (cmp_trans x y z).
Qed.
End SortingFacts.

Lemma Bool_compare_eq (x y : bool) : Bool.compare x y = Eq ↔ x = y.
Proof. by destruct x, y. Qed.

Lemma Bool_compare_antisym (x y : bool) :
  Bool.compare y x = CompOpp (Bool.compare x y).
Proof. by destruct x, y. Qed.

Lemma Bool_compare_trans (x y z : bool) :
  Bool.compare x y = Lt → Bool.compare y z = Lt → Bool.compare x z = Lt.
Proof. by destruct x, y, z. Qed.

Lemma Z_compare_trans (x y z : Z) :
  (x ?= y)%Z = Lt → (y ?= z)%Z = Lt → (x ?= z)%Z = Lt.
Proof. rewrite !Z.compare_lt_iff. lia. Qed.

(** ** itertools.permutations *)

Lemma picks_Permutation {A : Type} (l : list A) (x : A) (r : list A) :
  (x, r) ∈ picks l → l ≡ₚ x :: r.
Proof.
  revert x r. induction l as [|y l IH]; intros x r; simpl.
  - by intros ?%elem_of_nil.
  - rewrite elem_of_cons, list_elem_of_fmap.
    intros [[= -> ->]|([z s] & [= -> ->] & Hin)]; [done|].
    simpl. rewrite (IH _ _ Hin). apply Permutation_swap.
Qed.

Lemma permutations_of_length_Permutation {A : Type} (n : nat) (l p : list A) :
  n = length l → p ∈ permutations_of_length n l → p ≡ₚ l.
Proof.
  revert l p. induction n as [|n IH]; intros l p Hn; simpl.
  - intros ->%list_elem_of_singleton. symmetry in Hn.
    by apply nil_length_inv in Hn as ->.
  - rewrite list_elem_of_bind. intros ([x r] & Hp & Hxr). simpl in Hp.
    apply list_elem_of_fmap in Hp as (q & -> & Hq).
    apply picks_Permutation in Hxr. rewrite Hxr.
    constructor. apply IH; [|done].
    apply Permutation_length in Hxr. simpl in Hxr. lia.
Qed.

Lemma itertools_permutations_Permutation {A : Type} (l p : list A) :
  p ∈ itertools_permutations l → p ≡ₚ l.
Proof. by apply permutations_of_length_Permutation. Qed.

Lemma itertools_permutations_self {A : Type} (l : list A) :
  l ∈ itertools_permutations l.
Proof.
  unfold itertools_permutations.
  induction l as [|x l IH]; simpl; [by left|].
  apply elem_of_app. left. apply list_elem_of_fmap. by exists l.
Qed.

(** ** Hamming weight *)

Lemma hamming_weight_Permutation (u v : list bool) :
  u ≡ₚ v → hamming_weight u = hamming_weight v.
Proof. induction 1; simpl; lia. Qed.

Lemma hamming_weight_app (u v : list bool) :
  hamming_weight (u ++ v) = hamming_weight u + hamming_weight v.
Proof. induction u as [|b u IH]; simpl; lia. Qed.

Lemma hamming_weight_replicate (n : nat) (b : bool) :
  hamming_weight (replicate n b) = n * Nat.b2n b.
Proof. induction n as [|n IH]; simpl; lia. Qed.

Lemma hamming_weight_le_length (v : list bool) : hamming_weight v ≤ length v.
Proof. induction v as [|[] v IH]; simpl; lia. Qed.

(** ** The rows of one weight *)

Lemma weight_class_spec (D i : nat) (v : list bool) :
  i ≤ D → v ∈ weight_class D i → length v = D ∧ hamming_weight v = i.
Proof.
  intros Hi Hv. unfold weight_class in Hv.
  apply elem_of_sort_unique in Hv;
    [|apply lex_compare_eq, Bool_compare_eq].
  apply itertools_permutations_Permutation in Hv. split.
  - rewrite Hv, length_app, !length_replicate. lia.
  - rewrite (hamming_weight_Permutation _ _ Hv), hamming_weight_app,
      !hamming_weight_replicate. simpl. lia.
Qed.

Lemma weight_class_NoDup (D i : nat) : NoDup (weight_class D i).
Proof.
  apply sort_unique_NoDup.
  - apply lex_compare_eq, Bool_compare_eq.
  - apply lex_compare_antisym, Bool_compare_antisym.
  - apply lex_compare_trans;
      [apply Bool_compare_eq|apply Bool_compare_trans].
Qed.

Lemma weight_class_nonempty (D i : nat) : weight_class D i ≠ [].
Proof.
  apply sort_unique_nonempty; [apply lex_compare_eq, Bool_compare_eq|].
  intros Hnil.
  pose proof (itertools_permutations_self
    (replicate i true ++ replicate (D - i) false)) as Hin.
  rewrite Hnil in Hin. by apply not_elem_of_nil in Hin.
Qed.

Lemma weight_classes_NoDup (D k m : nat) :
  k + m ≤ S D → NoDup (mjoin (weight_class D <$> seq k m)).
Proof.
  revert k. induction m as [|m IH]; intros k Hk; simpl; [constructor|].
  apply NoDup_app. split; [apply weight_class_NoDup|]. split; [|apply IH; lia].
  intros v Hv Hv'.
  apply weight_class_spec in Hv as [_ Hw]; [|lia].
  apply list_elem_of_join in Hv' as (c & Hvc & Hc).
  apply list_elem_of_fmap in Hc as (j & -> & Hj).
  apply elem_of_seq in Hj.
  apply weight_class_spec in Hvc as [_ Hw']; lia.
Qed.


(** ** The enumerator *)

Lemma bits_value_snoc (v : list bool) (b : bool) :
  bits_value (v ++ [b]) = (2 * bits_value v + N.b2n b)%N.
Proof. unfold bits_value. by rewrite foldl_snoc. Qed.

Lemma bits_value_zeros (n : nat) (v : list bool) :
  bits_value (replicate n false ++ v) = bits_value v.
Proof.
  unfold bits_value. rewrite foldl_app. f_equal.
  induction n as [|n IH]; simpl; [done|]. exact IH.
Qed.

Lemma bits_value_bin (p : positive) : bits_value (bin p) = Npos p.
Proof.
  induction p as [p IH|p IH|]; simpl; [| |done];
    rewrite bits_value_snoc, IH; simpl; lia.
Qed.

Lemma length_bin (p : positive) (n : nat) :
  Pos.to_nat p < 2 ^ n → length (bin p) ≤ n.
Proof.
  revert n. induction p as [p IH|p IH|]; intros [|n]; simpl; try lia.
  - intros Hp. rewrite length_app. simpl.
    specialize (IH n). rewrite Pos2Nat.inj_xI in Hp. lia.
  - intros Hp. rewrite length_app. simpl.
    specialize (IH n). rewrite Pos2Nat.inj_xO in Hp. lia.
Qed.

(** The row that [all_perms[i, :] = bin_arr] stores. *)
Lemma binary_repr_row (i size : nat) :
  i < 2 ^ size →
  ∃ r, broadcast_to (binary_repr i size) size = Ok r ∧
       length r = size ∧ bits_value r = N.of_nat i.
Proof.
  intros Hi. unfold binary_repr.
  destruct (N.of_nat i) as [|p] eqn:Ep.
  - destruct (decide (size = 0)) as [->|Hs].
    + exists []. by cbn.
    + exists (replicate size false). unfold broadcast_to.
      rewrite decide_True by apply length_replicate.
      split; [done|]. split; [apply length_replicate|].
      by rewrite <- (app_nil_r (replicate _ _)), bits_value_zeros.
  - assert (Hp : length (bin p) ≤ size).
    { apply length_bin. replace (Pos.to_nat p) with i; [done|]. lia. }
    eexists. unfold broadcast_to. rewrite decide_True.
    + split; [done|]. split.
      * rewrite length_app, length_replicate. lia.
      * by rewrite bits_value_zeros, bits_value_bin.
    + rewrite length_app, length_replicate. lia.
Qed.

Lemma set_row_Ok {A : Type} (w i : nat) (rs : list (list A)) (src r : list A) :
  i < length rs → broadcast_to src w = Ok r →
  set_row (Array2 w rs) i src = Ok (Array2 w (<[i:=r]> rs)).
Proof.
  intros Hi Hr. unfold set_row, shape0. cbn [shape1 rows].
  rewrite decide_True by done. by rewrite Hr.
Qed.

Lemma for_each_set_row {A : Type} (f g : nat → list A) (w k m : nat)
    (rs : list (list A)) :
  (∀ i, k ≤ i < k + m → broadcast_to (f i) w = Ok (g i)) →
  k + m ≤ length rs →
  for_each (seq k m) (λ i a, set_row a i (f i)) (Array2 w rs)
  = Ok (Array2 w (take k rs ++ (g <$> seq k m) ++ drop (k + m) rs)).
Proof.
  revert k rs. induction m as [|m IH]; intros k rs Hf Hlen; simpl.
  - by rewrite Nat.add_0_r, take_drop.
  - rewrite (set_row_Ok w k rs (f k) (g k)) by (lia || (apply Hf; lia)).
    cbn [mbind result_bind].
    rewrite IH.
    + do 2 f_equal. rewrite drop_insert_lt by lia.
      rewrite (take_S_r _ _ (g k)) by (apply list_lookup_insert_eq; lia).
      rewrite take_insert_ge by lia.
      rewrite <- (assoc_L (++)). simpl. do 4 f_equal. lia.
    + intros i Hi. apply Hf. lia.
    + rewrite length_insert. lia.
Qed.

Lemma full_perm_construct_Ok (size : nat) :
  ∃ rs, full_perm_construct size = Ok (Array2 size rs) ∧
        length rs = 2 ^ size ∧
        Forall (λ v, length v = size) rs ∧
        NoDup rs.
Proof.
  set (g := λ i, match broadcast_to (binary_repr i size) size with
                 | Ok r => r
                 | Raise _ => []
                 end).
  assert (Hg : ∀ i, i < 2 ^ size →
    broadcast_to (binary_repr i size) size = Ok (g i) ∧
    length (g i) = size ∧ bits_value (g i) = N.of_nat i).
  { intros i Hi. destruct (binary_repr_row i size Hi) as (r & Hr & Hl & Hv).
    unfold g. by rewrite Hr. }
  exists (g <$> seq 0 (2 ^ size)). split; [|split; [|split]].
  - unfold full_perm_construct, np_zeros2, range.
    rewrite (for_each_set_row _ g).
    + rewrite take_0. simpl. rewrite drop_ge, app_nil_r; [done|].
      by rewrite length_replicate.
    + intros i Hi. apply Hg. lia.
    + by rewrite length_replicate.
  - by rewrite length_fmap, length_seq.
  - apply Forall_fmap, Forall_forall. intros i Hi%elem_of_seq.
    simpl. apply Hg. lia.
  - apply NoDup_fmap_2_strong; [|apply NoDup_seq].
    intros i j Hi%elem_of_seq Hj%elem_of_seq Hij.
    destruct (Hg i) as (_ & _ & Hvi); [lia|].
    destruct (Hg j) as (_ & _ & Hvj); [lia|].
    rewrite Hij in Hvi. lia.
Qed.

(** The loop of [perm_construct], from iteration [k >= 1] on. *)
Lemma perm_construct_loop (D k m : nat) (rs : list (list bool)) :
  0 < k → k + m ≤ S D →
  for_each (seq k m)
    (λ i (all_perms : option (array2 bool)),
      let temp1 := replicate i true in
      let temp2 := replicate (D - i) false in
      let temp_together := temp1 ++ temp2 in
      let temp := itertools_permutations temp_together in
      let p := np_unique_rows Bool.compare (Array2 (length temp_together) temp) in
      if decide (i = 0) then Ok (Some p)
      else match all_perms with
           | Some a => Some <$> np_concatenate a p
           | None => Raise UnboundLocalError
           end) (Some (Array2 D rs))
  = Ok (Some (Array2 D (rs ++ mjoin (weight_class D <$> seq k m)))).
Proof.
  revert k rs. induction m as [|m IH]; intros k rs Hk Hkm; simpl.
  - by rewrite app_nil_r.
  - rewrite decide_False by lia.
    unfold np_concatenate, np_unique_rows. simpl.
    rewrite decide_True by (rewrite length_app, !length_replicate; lia).
    simpl. rewrite IH by lia. by rewrite <- (assoc_L (++)).
Qed.

Lemma perm_construct_partial (D M : nat) :
  M < D →
  perm_construct D M = Ok (Array2 D (mjoin (weight_class D <$> seq 0 (S M)))).
Proof.
  intros HM. unfold perm_construct. rewrite decide_False by lia.
  unfold range. rewrite Nat.add_1_r.
  match goal with |- context [for_each _ ?b None] => set (body := b) end.
  change (seq 0 (S M)) with (0 :: seq 1 M).
  change (for_each (0 :: seq 1 M) body None)
    with (body 0 None ≫= for_each (seq 1 M) body).
  assert (Hfirst : body 0 None = Ok (Some (Array2 D (weight_class D 0)))).
  { unfold body, np_unique_rows, weight_class. simpl.
    by rewrite length_replicate, Nat.sub_0_r. }
  rewrite Hfirst. cbn [mbind result_bind].
  unfold body. rewrite (perm_construct_loop D 1 M) by lia. done.
Qed.

(** For a budget within the dimensionality [perm_construct] returns, and
    its rows have the length of the dimensionality. *)
Lemma perm_construct_rows (D M : nat) :
  M ≤ D →
  ∃ all_perms,
    perm_construct D M = Ok all_perms ∧
    shape1 all_perms = D ∧
    Forall (λ v, length v = D) (rows all_perms).
Proof.
  intros HM. destruct (decide (D = M)) as [->|Hne].
  - destruct (full_perm_construct_Ok M) as (rs & Hrs & _ & Hall & _).
    exists (Array2 M rs). unfold perm_construct. by rewrite decide_True.
  - eexists. split; [apply perm_construct_partial; lia|]. split; [done|].
    apply Forall_forall. intros v Hv. cbn [rows] in Hv.
    apply list_elem_of_join in Hv as (c & Hvc & Hc).
    apply list_elem_of_fmap in Hc as (j & -> & Hj).
    apply elem_of_seq in Hj.
    apply weight_class_spec in Hvc as [Hl _]; lia.
Qed.

(** C6.  For a budget [M <= D] the enumerator [perm_construct] returns an
    array of binary vectors of length [D], without duplicate vectors, each
    of Hamming weight at most [M]; when [M = D] it has exactly [2^D] rows. *)
Theorem perm_construct_enumerates (D M : nat) :
  M ≤ D →
  ∃ all_perms,
    perm_construct D M = Ok all_perms ∧
    shape1 all_perms = D ∧
    Forall (λ v, length v = D ∧ hamming_weight v ≤ M) (rows all_perms) ∧
    NoDup (rows all_perms) ∧
    (M = D → shape0 all_perms = 2 ^ D).
Proof.
  intros HM. destruct (decide (D = M)) as [->|Hne].
  - destruct (full_perm_construct_Ok M) as (rs & Hrs & Hlen & Hall & Hnd).
    exists (Array2 M rs). unfold perm_construct. rewrite decide_True by done.
    split; [done|]. split; [done|]. split; [|done].
    eapply Forall_impl; [exact Hall|]. simpl. intros v Hv. split; [done|].
    rewrite <- Hv. apply hamming_weight_le_length.
  - eexists. split; [apply perm_construct_partial; lia|].
    split; [done|]. split; [|split].
    + apply Forall_forall. intros v Hv. cbn [rows] in Hv.
      apply list_elem_of_join in Hv as (c & Hvc & Hc).
      apply list_elem_of_fmap in Hc as (j & -> & Hj).
      apply elem_of_seq in Hj.
      apply weight_class_spec in Hvc as [Hl Hw]; lia.
    + apply weight_classes_NoDup. lia.
    + intros ->. lia.
Qed.

Lemma perm_construct_enumerates_witness :
  2 ≤ 3 ∧
  ∃ all_perms,
    perm_construct 3 2 = Ok all_perms ∧
    shape1 all_perms = 3 ∧
    Forall (λ v, length v = 3 ∧ hamming_weight v ≤ 2) (rows all_perms) ∧
    NoDup (rows all_perms) ∧
    (2 = 3 → shape0 all_perms = 2 ^ 3).
Proof. split; [lia|]. apply (perm_construct_enumerates 3 2). lia. Defined.


(** ** The size of the state space *)

Lemma np_dot_Z_ones (perm : list bool) :
  np_dot_Z (Z.b2z <$> perm) (replicate (length perm) 1%Z)
  = Ok (Z.of_nat (hamming_weight perm)).
Proof.
  unfold np_dot_Z.
  rewrite decide_True by (by rewrite length_fmap, length_replicate).
  f_equal.
  assert (H : ∀ acc, foldl Z.add acc
      (zip_with Z.mul (Z.b2z <$> perm) (replicate (length perm) 1%Z))
    = (acc + Z.of_nat (hamming_weight perm))%Z); [|by rewrite H].
  induction perm as [|b perm IH]; intros acc; simpl; [lia|].
  rewrite IH. destruct b; simpl; lia.
Qed.

Lemma hamming_weight_0 (perm : list bool) :
  hamming_weight perm = 0 ↔ perm = replicate (length perm) false.
Proof.
  induction perm as [|[] perm IH]; simpl; [done| |].
  - split; [lia|done].
  - rewrite IH. split; [by intros <-|by intros [= <-]].
Qed.

Lemma prod_observed_unobserved (f : Z → Z) (counts : list Z) (n : nat) :
  prod_observed f counts (replicate n false) = 1%Z.
Proof.
  unfold prod_observed. revert n.
  induction counts as [|c counts IH]; intros [|n]; simpl; try done.
  rewrite IH. lia.
Qed.

Lemma prod_observed_insert (f : Z → Z) (counts : list Z) (perm : list bool)
    (i : nat) (c : Z) :
  counts !! i = Some c → perm !! i = Some false →
  prod_observed f counts (<[i:=true]> perm)
  = (f c * prod_observed f counts perm)%Z.
Proof.
  unfold prod_observed. revert perm i.
  induction counts as [|c' counts IH]; intros [|b perm] [|i]; simpl; try done.
  - intros [= ->] [= ->]. lia.
  - intros Hc Hb. rewrite (IH _ _ Hc Hb). lia.
Qed.

Lemma getitem_middle {A : Type} (l1 l2 : list A) (x : A) (n : nat) :
  n = length l1 → getitem (l1 ++ x :: l2) n = Ok x.
Proof. intros ->. unfold getitem. by rewrite list_lookup_middle. Qed.

(** The loop of [state_construct] over the positions [k .. k+m-1]. *)
Lemma state_construct_loop (pre_c counts : list Z) (pre_p perm : list bool)
    (psi s_o : Z) :
  length pre_c = length pre_p → length counts = length perm →
  for_each (seq (length pre_c) (length counts)) (λ i '(psi, s_o),
    c ← getitem (pre_c ++ counts) i;
    b ← getitem (pre_p ++ perm) i;
    Ok ((psi * (c - 1) ^ Z.b2z b)%Z, (s_o * c ^ Z.b2z b)%Z)) (psi, s_o)
  = Ok ((psi * prod_observed (λ c, c - 1)%Z counts perm)%Z,
        (s_o * prod_observed id counts perm)%Z).
Proof.
  revert pre_c pre_p perm psi s_o.
  induction counts as [|c counts IH]; intros pre_c pre_p [|b perm] psi s_o Hpre Hlen;
    simpl in Hlen; try done.
  - simpl. unfold prod_observed. simpl. do 2 f_equal; lia.
  - cbn [length seq for_each].
    rewrite (getitem_middle pre_c counts c) by done.
    rewrite (getitem_middle pre_p perm b) by done.
    cbn [mbind result_bind].
    specialize (IH (pre_c ++ [c]) (pre_p ++ [b]) perm).
    rewrite !length_app, <- !(assoc_L (++)) in IH. simpl in IH.
    rewrite Nat.add_1_r in IH. rewrite IH by (simpl; lia).
    unfold prod_observed. simpl. destruct b; simpl; do 2 f_equal; lia.
Qed.

Lemma state_construct_Ok (all_feature_counts : list Z) (all_contexts : array2 Z)
    (one_perm : list bool) :
  shape1 all_contexts = length all_feature_counts →
  length one_perm = length all_feature_counts →
  state_construct all_feature_counts all_contexts one_perm
  = Ok (prod_observed (λ c, c - 1)%Z all_feature_counts one_perm,
        prod_observed id all_feature_counts one_perm).
Proof.
  intros HD Hlen. unfold state_construct. rewrite HD, <- Hlen, np_dot_Z_ones.
  cbn [mbind result_bind]. case_decide as Hw.
  - unfold range. rewrite Hlen.
    rewrite (state_construct_loop [] all_feature_counts [] one_perm) by done.
    do 2 f_equal; lia.
  - assert (H0 : hamming_weight one_perm = 0) by lia.
    apply hamming_weight_0 in H0. rewrite H0.
    by rewrite !prod_observed_unobserved.
Qed.




(** ** The state indexer *)

Lemma getitem_app_l {A : Type} (l1 l2 : list A) (i : nat) :
  i < length l1 → getitem (l1 ++ l2) i = getitem l1 i.
Proof. intros Hi. unfold getitem. by rewrite lookup_app_l. Qed.

Lemma fv_get_app_l (fv1 fv2 : feature_values_t) (i : nat) :
  i < length fv1 → fv_get (fv1 ++ fv2) i = fv_get fv1 i.
Proof. intros Hi. unfold fv_get. by rewrite lookup_app_l. Qed.

Lemma fv_get_middle (fv1 fv2 : feature_values_t) (vals : list (option Z)) (n : nat) :
  n = length fv1 → fv_get (fv1 ++ vals :: fv2) n = vals.
Proof. intros ->. unfold fv_get. by rewrite list_lookup_middle. Qed.

Lemma not_mismatch_observed (z : Z) : ¬ mismatch (Some z) true.
Proof. by intros [[? _]|[_ ?]]. Qed.

Lemma not_mismatch_unobserved : ¬ mismatch None false.
Proof. by intros [[_ ?]|[? _]]. Qed.

(** The sanity-check loop either passes or raises the assertion. *)
Lemma sanity_check_cases (l : list (option Z * bool)) :
  let check := λ '(feature, observation) (_ : unit),
      if observation : bool then
        if feature is Some _ then Ok () else Raise AssertionError
      else
        if feature is None then Ok () else Raise AssertionError in
  (Forall (λ xo, ¬ mismatch xo.1 xo.2) l ∧ for_each l check () = Ok ()) ∨
  (Exists (λ xo, mismatch xo.1 xo.2) l ∧ for_each l check () = Raise AssertionError).
Proof.
  intros check. induction l as [|[x o] l IH]; simpl.
  - left. by split.
  - destruct o, x as [z|]; simpl.
    + destruct IH as [[H1 H2]|[H1 H2]]; [left|right]; (split; [|done]).
      * constructor; [|done]. apply not_mismatch_observed.
      * by apply Exists_cons_tl.
    + right. split; [|done]. apply Exists_cons_hd. left. done.
    + right. split; [|done]. apply Exists_cons_hd. right. done.
    + destruct IH as [[H1 H2]|[H1 H2]]; [left|right]; (split; [|done]).
      * constructor; [|done]. apply not_mismatch_unobserved.
      * by apply Exists_cons_tl.
Qed.

Lemma getitem_error {A : Type} (a : list A) (i : nat) (e : exn) :
  getitem a i = Raise e → e = IndexError.
Proof. unfold getitem. destruct (a !! i); [done|]. by intros [= <-]. Qed.

Lemma list_index_error `{EqDecision A} (l : list A) (x : A) (e : exn) :
  list_index l x = Raise e → e = ValueError.
Proof.
  induction l as [|y l IH]; simpl; [by intros [= <-]|].
  case_decide; [done|]. destruct (list_index l x); simpl; [done|].
  intros [= ->]. by apply IH.
Qed.

(** The index loop raises [IndexError] or [ValueError] only. *)
Lemma index_loop_error (fv : feature_values_t) (counts : list Z)
    (ctx : list (option Z)) (k m : nat) (s : Z) (e : exn) :
  for_each (seq k m) (λ i state_index,
    c ← getitem counts i;
    let state_index := (state_index * c)%Z in
    x ← getitem ctx i;
    feature_index ← list_index (fv_get fv i) x;
    Ok (state_index + Z.of_nat feature_index)%Z) s = Raise e →
  e = IndexError ∨ e = ValueError.
Proof.
  revert k s. induction m as [|m IH]; intros k s; simpl; [done|].
  destruct (getitem counts k) as [c|e1] eqn:E1; cbn [mbind result_bind];
    [|intros [= <-]; left; by eapply getitem_error].
  destruct (getitem ctx k) as [x|e2] eqn:E2; cbn [mbind result_bind];
    [|intros [= <-]; left; by eapply getitem_error].
  destruct (list_index _ _) as [d|e3] eqn:E3; cbn [mbind result_bind].
  - apply IH.
  - intros [= <-]. right. by eapply list_index_error.
Qed.

Lemma state_extract_nil (fv : feature_values_t) (counts : list Z) :
  state_extract fv counts [] [] = Ok 0%Z.
Proof. done. Qed.

(** [state_extract] one feature at a time, from the last feature. *)
Lemma state_extract_snoc (fv : feature_values_t) (counts : list Z)
    (ctx : list (option Z)) (obs : list bool)
    (vals : list (option Z)) (c : Z) (x : option Z) (o : bool) :
  length fv = length ctx → length counts = length ctx → length obs = length ctx →
  state_extract (fv ++ [vals]) (counts ++ [c]) (ctx ++ [x]) (obs ++ [o]) =
    match state_extract fv counts ctx obs with
    | Raise AssertionError => Raise AssertionError
    | r => if decide (mismatch x o) then Raise AssertionError
           else idx ← r; d ← list_index vals x; Ok (idx * c + Z.of_nat d)%Z
    end.
Proof.
  intros Hfv Hcounts Hobs. unfold state_extract.
  rewrite zip_with_app by done. rewrite for_each_app.
  match goal with |- context [for_each (zip ctx obs) ?b ()] => set (check := b) end.
  rewrite length_app, Nat.add_1_r. unfold range. rewrite seq_S. simpl "+".
  rewrite for_each_app.
  match goal with |- context [for_each (seq 0 (length ctx)) ?b 0%Z] =>
    set (body' := b) end.
  match goal with |- context [for_each (seq 0 (length ctx)) ?b 0%Z] =>
    lazymatch b with body' => fail | _ => set (body := b) end end.
  assert (Hext : for_each (seq 0 (length ctx)) body' 0%Z
               = for_each (seq 0 (length ctx)) body 0%Z).
  { apply for_each_ext. intros i s Hi%elem_of_seq. unfold body', body.
    rewrite !getitem_app_l, fv_get_app_l by lia. done. }
  rewrite Hext. clear Hext.
  destruct (sanity_check_cases (zip ctx obs)) as [[_ Hc]|[_ Hc]];
    fold check in Hc; rewrite Hc; cbn [mbind result_bind]; [|done].
  assert (Hlast : ∀ s, body' (length ctx) s =
    d ← list_index vals x; Ok (s * c + Z.of_nat d)%Z).
  { intros s. unfold body'.
    rewrite (getitem_middle counts [] c), (getitem_middle ctx [] x) by done.
    cbn [mbind result_bind]. by rewrite (fv_get_middle fv []). }
  assert (Hx : check (x, o) () =
    if decide (mismatch x o) then Raise AssertionError else Ok ()).
  { destruct (decide (mismatch x o)) as [Hm|Hm]; destruct o, x as [z|];
      simpl; try done; exfalso.
    - by apply (not_mismatch_observed z).
    - by apply not_mismatch_unobserved.
    - apply Hm. by left.
    - apply Hm. by right. }
  cbn [zip_with for_each]. rewrite Hx.
  destruct (for_each (seq 0 (length ctx)) body 0%Z) as [idx|e] eqn:Eloop.
  - case_decide; cbn [mbind result_bind]; [done|].
    rewrite Hlast. by destruct (list_index vals x).
  - apply index_loop_error in Eloop.
    case_decide; destruct Eloop as [-> | ->]; done.
Qed.


Lemma list_index_elem `{EqDecision A} (l : list A) (x : A) :
  x ∈ l → ∃ d, list_index l x = Ok d ∧ l !! d = Some x.
Proof.
  induction l as [|y l IH]; simpl; [by intros ?%elem_of_nil|].
  intros Hx. case_decide as Hy.
  - subst y. by exists 0.
  - apply elem_of_cons in Hx as [->|Hx]; [done|].
    destruct (IH Hx) as (d & Hd & Hl). exists (S d). by rewrite Hd.
Qed.

Lemma list_index_NoDup `{EqDecision A} (l : list A) (x : A) (d : nat) :
  NoDup l → l !! d = Some x → list_index l x = Ok d.
Proof.
  intros Hnd. revert d. induction Hnd as [|y l Hy Hnd IH]; intros d; [done|].
  destruct d as [|d]; simpl.
  - intros [= ->]. by rewrite decide_True.
  - intros Hd. rewrite decide_False.
    + by rewrite (IH d Hd).
    + intros ->. apply Hy. by eapply list_elem_of_lookup_2.
Qed.

(** The sanity check of [state_extract] is exactly the partial-vector
    invariant: the assertion fails iff some position has a mismatch. *)
Lemma state_extract_assertion (fv : feature_values_t) (counts : list Z)
    (ctx : list (option Z)) (obs : list bool) :
  state_extract fv counts ctx obs = Raise AssertionError ↔
  ∃ i x o, ctx !! i = Some x ∧ obs !! i = Some o ∧ mismatch x o.
Proof.
  assert (Hex : Exists (λ xo, mismatch xo.1 xo.2) (zip ctx obs) ↔
    ∃ i x o, ctx !! i = Some x ∧ obs !! i = Some o ∧ mismatch x o).
  { rewrite Exists_exists. split.
    - intros ([x o] & Hin & Hm). apply list_elem_of_lookup in Hin as [i Hi].
      apply lookup_zip_with_Some in Hi as (x' & o' & [= <- <-] & Hx & Ho).
      by exists i, x, o.
    - intros (i & x & o & Hx & Ho & Hm). exists (x, o). split; [|done].
      apply list_elem_of_lookup. exists i.
      apply lookup_zip_with_Some. by exists x, o. }
  rewrite <- Hex. unfold state_extract.
  destruct (sanity_check_cases (zip ctx obs)) as [[Hall Hc]|[Hsome Hc]];
    rewrite Hc; cbn [mbind result_bind].
  - split.
    + intros [[=]|[=]]%index_loop_error.
    + intros Hsome. apply Exists_exists in Hsome as (xo & Hin & Hm).
      eapply Forall_forall in Hall; [|exact Hin]. done.
  - done.
Qed.

Lemma Forall2_snoc_inv_l {A B : Type} (P : A → B → Prop) (l : list A) (x : A)
    (k : list B) :
  Forall2 P (l ++ [x]) k → ∃ k' y, k = k' ++ [y] ∧ Forall2 P l k' ∧ P x y.
Proof.
  intros (k' & k2 & Hl & Hx & ->)%Forall2_app_inv_l.
  apply Forall2_cons_inv_l in Hx as (y & k3 & Hxy & ->%Forall2_nil_inv_l & ->).
  by exists k', y.
Qed.

Lemma foldr_mul_snoc (counts : list Z) (c : Z) :
  foldr Z.mul 1%Z (counts ++ [c]) = (foldr Z.mul 1 counts * c)%Z.
Proof. induction counts as [|c' counts IH]; simpl; [lia|]. rewrite IH. lia. Qed.

Lemma feature_ok_NoDup (vals : list (option Z)) (c : Z) :
  feature_ok vals c → NoDup vals ∧ (0 < c)%Z.
Proof.
  intros (-> & vs & -> & Hs). split; [|simpl; lia].
  constructor.
  - intros (v & [=] & _)%list_elem_of_fmap.
  - apply NoDup_fmap; [apply _|].
    induction Hs as [|v vs Hs IH Hv]; constructor; [|done].
    intros Hin. eapply Forall_forall in Hv; [|exact Hin]. lia.
Qed.

(** On a partial vector over the catalog the index loop returns, and the
    index is below the product of all the counts. *)
Lemma state_extract_valid (ctx : list (option Z)) :
  ∀ (fv : feature_values_t) (counts : list Z) (obs : list bool),
  catalog_ok fv counts → in_catalog fv ctx → sentinel_iff_unobserved ctx obs →
  ∃ idx, state_extract fv counts ctx obs = Ok idx ∧
         (0 ≤ idx < foldr Z.mul 1 counts)%Z.
Proof.
  induction ctx as [|x ctx IH] using rev_ind; intros fv counts obs Hcat Hin Hinv.
  - apply Forall2_nil_inv_l in Hin as ->. apply Forall2_nil_inv_l in Hcat as ->.
    apply Forall2_nil_inv_l in Hinv as ->. exists 0%Z. simpl. split; [done|lia].
  - apply Forall2_snoc_inv_l in Hin as (fv' & vals & -> & Hin & Hx).
    apply Forall2_snoc_inv_l in Hcat as (counts' & c & -> & Hcat & Hc).
    apply Forall2_snoc_inv_l in Hinv as (obs' & o & -> & Hinv & Ho).
    destruct (IH fv' counts' obs' Hcat Hin Hinv) as (idx & Hidx & Hrange).
    pose proof (Forall2_length _ _ _ Hin) as L1.
    pose proof (Forall2_length _ _ _ Hcat) as L2.
    pose proof (Forall2_length _ _ _ Hinv) as L3.
    rewrite state_extract_snoc by lia. rewrite Hidx.
    rewrite decide_False by done. cbn [mbind result_bind].
    destruct (list_index_elem vals x Hx) as (d & Hd & Hl). rewrite Hd.
    cbn [mbind result_bind]. eexists. split; [done|].
    apply lookup_lt_Some in Hl. destruct Hc as [-> _].
    rewrite foldr_mul_snoc. nia.
Qed.


(** ** The feature-value catalog *)

Lemma sort_list_sorted {T : Type} (cmp : T → T → comparison) (l : list T) :
  StronglySorted (λ x y, cmp x y = Lt) l → sort_list cmp l = l.
Proof.
  induction 1 as [|x l Hl IH Hx]; simpl; [done|].
  rewrite IH. destruct Hx as [|y l Hy _]; simpl; [done|]. by rewrite Hy.
Qed.

Lemma np_unique_sorted (l : list Z) : StronglySorted Z.lt (np_unique l).
Proof.
  pose proof (sort_unique_sorted Z.compare Z.compare_eq_iff
    (λ x y, Z.compare_antisym x y) Z_compare_trans l) as H.
  unfold np_unique. induction H as [|x k Hk IH Hx]; constructor; [done|].
  eapply Forall_impl; [exact Hx|]. intros y. apply Z.compare_lt_iff.
Qed.

Lemma sorted_np_unique (l : list Z) : sorted (np_unique l) = np_unique l.
Proof.
  apply sort_list_sorted, sort_unique_sorted.
  - apply Z.compare_eq_iff.
  - intros x y. apply Z.compare_antisym.
  - apply Z_compare_trans.
Qed.

Lemma save_feature_values_loop (all_contexts : array2 Z) (k m : nat)
    (fv : list (list (option Z))) (fc : list Z) :
  let values := λ i,
    None :: (Some <$> sorted (np_unique (column 0%Z all_contexts i))) in
  k + m ≤ length fc →
  foldl (λ '(feature_values, feature_counts) i,
      let unique_features := np_unique (column 0%Z all_contexts i) in
      let values := None :: (Some <$> sorted unique_features) in
      (feature_values ++ [values],
       <[i:=Z.of_nat (length values)]> feature_counts))
    (fv, fc) (seq k m)
  = (fv ++ (values <$> seq k m),
     take k fc ++ ((λ i, Z.of_nat (length (values i))) <$> seq k m)
       ++ drop (k + m) fc).
Proof.
  intros values. revert k fv fc.
  induction m as [|m IH]; intros k fv fc Hlen; simpl.
  - by rewrite Nat.add_0_r, take_drop, app_nil_r.
  - rewrite IH by (rewrite length_insert; lia).
    rewrite <- (assoc_L (++)). f_equal.
    rewrite drop_insert_lt by lia.
    rewrite (take_S_r _ _ (Z.of_nat (length (values k))))
      by (apply list_lookup_insert_eq; lia).
    rewrite take_insert_ge by lia.
    rewrite <- (assoc_L (++)). simpl. do 4 f_equal. lia.
Qed.

(** What [save_feature_values] builds is a catalog with one entry per
    column. *)
Lemma save_feature_values_ok (all_contexts : array2 Z) :
  catalog_ok (save_feature_values all_contexts).1 (save_feature_values all_contexts).2 ∧
  length (save_feature_values all_contexts).1 = shape1 all_contexts.
Proof.
  unfold save_feature_values, range, np_zeros.
  rewrite save_feature_values_loop by (by rewrite length_replicate).
  simpl. rewrite drop_ge, app_nil_r by (by rewrite length_replicate).
  split; [|by rewrite length_fmap, length_seq].
  apply Forall2_fmap, Forall_Forall2_diag, Forall_forall. intros i _.
  split; [done|]. eexists. split; [done|].
  rewrite sorted_np_unique. apply np_unique_sorted.
Qed.

Lemma prod_observed_all (f : Z → Z) (counts : list Z) :
  prod_observed f counts (replicate (length counts) true) = foldr Z.mul 1%Z (f <$> counts).
Proof.
  unfold prod_observed. induction counts as [|c counts IH]; simpl; [done|].
  by rewrite IH.
Qed.


Lemma two_feature_catalog :
  save_feature_values two_feature_contexts
  = ([[None; Some 5; Some 7]; [None; Some 1; Some 2]]%Z, [3; 3]%Z).
Proof. reflexivity. Qed.

Lemma partial_vector_7 : sentinel_iff_unobserved [Some 7%Z; None] [true; false].
Proof.
  repeat constructor; [apply not_mismatch_observed|apply not_mismatch_unobserved].
Qed.

Lemma in_catalog_7 :
  in_catalog (save_feature_values two_feature_contexts).1 [Some 7%Z; None].
Proof.
  rewrite two_feature_catalog. repeat constructor.
Qed.







(** ** Decoding a state index *)

Lemma setitem_app_l {A : Type} (a tail : list A) (i : nat) (x : A) :
  i < length a → setitem (a ++ tail) i x = (λ a', a' ++ tail) <$> setitem a i x.
Proof.
  intros Hi. unfold setitem.
  rewrite !decide_True by (rewrite ?length_app; lia).
  simpl. by rewrite insert_app_l.
Qed.

(** The decoding loop on the positions [idxs] does not look at the catalog
    or the context beyond them. *)
Lemma state_create_loop_frame (fv fv2 : feature_values_t)
    (tail : list (option Z)) (n : nat) (idxs : list nat) :
  Forall (λ i, i < n) idxs → n ≤ length fv →
  ∀ (s : Z) (context : list (option Z)), length context = n →
  for_each idxs (λ i '(state_index, context),
      let feature_count := Z.of_nat (length (fv_get (fv ++ fv2) i)) in
      if decide (feature_count = 0%Z) then Raise ZeroDivisionError
      else
        let feature_index := (state_index `mod` feature_count)%Z in
        v ← getitem (fv_get (fv ++ fv2) i) (Z.to_nat feature_index);
        context ← setitem context i v;
        let state_index := (state_index - feature_index)%Z in
        let state_index := (state_index `quot` feature_count)%Z in
        Ok (state_index, context)) (s, context ++ tail)
  = (λ sc, (sc.1, sc.2 ++ tail)) <$>
    for_each idxs (λ i '(state_index, context),
      let feature_count := Z.of_nat (length (fv_get fv i)) in
      if decide (feature_count = 0%Z) then Raise ZeroDivisionError
      else
        let feature_index := (state_index `mod` feature_count)%Z in
        v ← getitem (fv_get fv i) (Z.to_nat feature_index);
        context ← setitem context i v;
        let state_index := (state_index - feature_index)%Z in
        let state_index := (state_index `quot` feature_count)%Z in
        Ok (state_index, context)) (s, context).
Proof.
  intros His Hn. induction His as [|i idxs Hi His IH]; intros s context Hlen.
  - done.
  - cbn [for_each]. cbv zeta.
    rewrite fv_get_app_l by lia.
    case_decide; [done|].
    destruct (getitem (fv_get fv i) _) as [v|e]; cbn [mbind result_bind]; [|done].
    rewrite setitem_app_l by lia. rewrite setitem_lt by lia.
    cbn [fmap result_fmap mbind result_bind].
    apply IH. by rewrite length_insert.
Qed.


(** [state_create] one feature at a time, from the last feature. *)
Lemma state_create_snoc (state_index : Z) (fv : feature_values_t)
    (vals : list (option Z)) :
  state_create state_index (fv ++ [vals]) =
    let feature_count := Z.of_nat (length vals) in
    if decide (feature_count = 0%Z) then Raise ZeroDivisionError
    else
      let feature_index := (state_index `mod` feature_count)%Z in
      v ← getitem vals (Z.to_nat feature_index);
      rest ← state_create ((state_index - feature_index) `quot` feature_count) fv;
      Ok (rest ++ [v]).
Proof.
  unfold state_create. rewrite length_app, Nat.add_1_r.
  unfold range, np_zeros. rewrite seq_S, reverse_app. simpl "+".
  change (reverse [length fv]) with [length fv].
  change ([length fv] ++ reverse (seq 0 (length fv)))
    with (length fv :: reverse (seq 0 (length fv))).
  cbn [for_each]. cbv zeta.
  rewrite (fv_get_middle fv []) by done.
  case_decide; [done|].
  destruct (getitem vals _) as [v|e]; cbn [mbind result_bind]; [|done].
  rewrite replicate_S_end.
  rewrite setitem_lt by (rewrite length_app, length_replicate; simpl; lia).
  rewrite insert_app_r_alt by (by rewrite length_replicate).
  rewrite length_replicate, Nat.sub_diag. cbn [mbind result_bind].
  change (<[0:=v]> [Some 0%Z]) with [v].
  rewrite (state_create_loop_frame fv [vals] [v] (length fv)).
  - destruct (for_each _ _ _) as [[s c]|e]; done.
  - apply Forall_forall. intros i Hi%elem_of_reverse%elem_of_seq. lia.
  - done.
  - by rewrite length_replicate.
Qed.

Lemma quot_sub_mod (a c : Z) :
  (0 ≤ a)%Z → (0 < c)%Z → ((a - a `mod` c) `quot` c = a `div` c)%Z.
Proof.
  intros Ha Hc.
  replace (a - a `mod` c)%Z with ((a `div` c) * c)%Z
    by (pose proof (Z.div_mod a c); lia).
  apply Z.quot_mul. lia.
Qed.

(** Decoding a state index and encoding the vector again. *)
Lemma state_create_extract (fv : feature_values_t) :
  ∀ (counts : list Z) (state_index : Z),
  catalog_ok fv counts → (0 ≤ state_index < foldr Z.mul 1 counts)%Z →
  ∃ v, state_create state_index fv = Ok v ∧ length v = length fv ∧
       ∀ obs, sentinel_iff_unobserved v obs →
              state_extract fv counts v obs = Ok state_index.
Proof.
  induction fv as [|vals fv IH] using rev_ind; intros counts state_index Hcat Hrange.
  - apply Forall2_nil_inv_l in Hcat as ->. simpl in Hrange.
    exists []. split; [done|]. split; [done|].
    intros obs ->%Forall2_nil_inv_l. rewrite state_extract_nil. f_equal. lia.
  - apply Forall2_snoc_inv_l in Hcat as (counts' & c & -> & Hcat & Hc).
    destruct (feature_ok_NoDup _ _ Hc) as [Hnd Hpos]. destruct Hc as [Hc _].
    rewrite foldr_mul_snoc in Hrange.
    rewrite state_create_snoc. cbv zeta. rewrite <- Hc.
    rewrite decide_False by lia.
    pose proof (Z.mod_pos_bound state_index c Hpos) as Hd.
    destruct (getitem_lt vals (Z.to_nat (state_index `mod` c))) as (x & Hx & Hg);
      [lia|].
    rewrite Hg. cbn [mbind result_bind].
    rewrite quot_sub_mod by lia.
    destruct (IH counts' (state_index `div` c)%Z Hcat) as (rest & Hrest & Hlen & Hrt).
    { split; [apply Z.div_pos; lia|]. apply Z.div_lt_upper_bound; lia. }
    rewrite Hrest. cbn [mbind result_bind].
    exists (rest ++ [x]). split; [done|].
    split; [by rewrite !length_app, Hlen|].
    intros obs Hinv.
    apply Forall2_snoc_inv_l in Hinv as (obs' & o & -> & Hinv & Ho).
    pose proof (Forall2_length _ _ _ Hcat) as L1.
    pose proof (Forall2_length _ _ _ Hinv) as L2.
    rewrite state_extract_snoc by lia.
    rewrite (Hrt obs' Hinv). rewrite decide_False by done.
    cbn [mbind result_bind].
    rewrite (list_index_NoDup vals x _ Hnd Hx). cbn [mbind result_bind].
    f_equal. pose proof (Z.div_mod state_index c). lia.
Qed.



(** The index 6 decodes to the partial vector [7, None]. *)
Example state_create_6 :
  state_create 6 (save_feature_values two_feature_contexts).1 = Ok [Some 7%Z; None].
Proof. reflexivity. Qed.


(** ** The round-completion predicate *)

Lemma broadcast2_same_length {A B C : Type} (f : A → B → C) (a : list A) (b : list B) :
  length a = length b → broadcast2 f a b = Ok (zip_with f a b).
Proof. intros H. unfold broadcast2. by rewrite decide_True. Qed.

Lemma existsb_id_lookup (l : list bool) :
  existsb id l = true ↔ ∃ i, l !! i = Some true.
Proof.
  induction l as [|b l IH]; simpl.
  - split; [done|]. by intros [i Hi].
  - rewrite orb_true_iff, IH. split.
    + intros [Hb|[i Hi]]; [exists 0; simpl; by rewrite <- Hb|by exists (S i)].
    + intros [[|i] Hi]; simpl in Hi; [left; by injection Hi|right; by exists i].
Qed.

(** C9.  For same-shaped count arrays, [is_round_over] returns the flag 1
    if and only if some element satisfies
    [N - N_old >= max(N_old, 1)], and the flag 0 otherwise; it returns 1 on
    ([0], [1]), 0 on ([10], [15]) and 1 on ([10], [20]). *)
Theorem is_round_over_spec :
  (∀ N_old N : list Z, length N_old = length N →
     ∃ flag, is_round_over N_old N = Ok flag ∧
       (flag = 1 ∨ flag = 0)%Z ∧
       (flag = 1%Z ↔
        ∃ (i : nat) (old cur : Z), N_old !! i = Some old ∧ N !! i = Some cur ∧
                     (old `max` 1 ≤ cur - old)%Z)) ∧
  is_round_over [0]%Z [1]%Z = Ok 1%Z ∧
  is_round_over [10]%Z [15]%Z = Ok 0%Z ∧
  is_round_over [10]%Z [20]%Z = Ok 1%Z.
Proof.
  split; [|done]. intros N_old N Hlen. unfold is_round_over.
  rewrite broadcast2_same_length by done. cbn [mbind result_bind].
  rewrite broadcast2_same_length
    by (rewrite length_zip_with, length_fmap; lia).
  cbn [mbind result_bind]. eexists. split; [done|].
  split; [destruct (existsb _ _); simpl; lia|].
  destruct (existsb id _) eqn:E; simpl.
  - split; [intros _|done].
    apply existsb_id_lookup in E as [i Hi].
    apply lookup_zip_with_Some in Hi as (d & m & Hdm & Hd & Hm).
    apply lookup_zip_with_Some in Hd as (cur & old & -> & Hcur & Hold).
    rewrite list_lookup_fmap, Hold in Hm. injection Hm as <-.
    symmetry in Hdm. apply bool_decide_eq_true in Hdm.
    exists i, old, cur. repeat split; [done..|lia].
  - split; [done|]. intros (i & old & cur & Hold & Hcur & Hge). exfalso.
    apply not_true_iff_false in E. apply E, existsb_id_lookup.
    exists i. apply lookup_zip_with_Some.
    exists (cur - old)%Z, (old `max` 1)%Z. split; [|split].
    + symmetry. apply bool_decide_eq_true. lia.
    + apply lookup_zip_with_Some. by exists cur, old.
    + by rewrite list_lookup_fmap, Hold.
Qed.

Lemma is_round_over_spec_witness :
  length [10; 3]%Z = length [12; 6]%Z ∧
  ∃ flag, is_round_over [10; 3]%Z [12; 6]%Z = Ok flag ∧
    (flag = 1 ∨ flag = 0)%Z ∧
    (flag = 1%Z ↔
     ∃ (i : nat) (old cur : Z), [10; 3]%Z !! i = Some old ∧ [12; 6]%Z !! i = Some cur ∧
                  (old `max` 1 ≤ cur - old)%Z).
Proof.
  split; [reflexivity|].
  apply (proj1 is_round_over_spec [10; 3]%Z [12; 6]%Z). reflexivity.
Defined.


(** ** The constructor of the oracle *)

(** Whatever [perm_construct] returns has at least one row. *)
Lemma perm_construct_nonempty (D M : nat) (all_perms : array2 bool) :
  perm_construct D M = Ok all_perms → rows all_perms ≠ [].
Proof.
  unfold perm_construct. case_decide as HDM.
  - destruct (full_perm_construct_Ok D) as (rs & Hrs & Hlen & _).
    rewrite Hrs. intros [= <-]. simpl. intros ->. simpl in Hlen.
    pose proof (Nat.pow_nonzero 2 D). lia.
  - match goal with |- context [for_each _ ?b None] => set (body := b) end.
    assert (Hinv : ∀ xs st r,
      for_each xs body st = Ok r →
      (∀ a, st = Some a → rows a ≠ []) →
      (∀ a, r = Some a → rows a ≠ [])).
    { induction xs as [|i xs IH]; intros st r; simpl.
      - by intros [= ->].
      - destruct (body i st) as [st'|e] eqn:Est; simpl; [|done].
        intros Hr Hst. apply (IH st' r Hr).
        unfold body in Est. case_decide.
        + injection Est as <-. intros a [= <-]. simpl. apply weight_class_nonempty.
        + destruct st as [a0|]; [|done].
          unfold np_concatenate in Est. case_decide; [|done].
          simpl in Est. injection Est as <-. intros a [= <-]. simpl.
          intros [Ha _]%app_eq_nil. by eapply Hst. }
    destruct (for_each _ body None) as [[a|]|e] eqn:E; simpl; try done.
    intros [= <-]. eapply Hinv; [exact E| |done]. done.
Qed.

(** The first pass of the loop at lines 118-125 stores the pair returned by
    [state_construct] into one element of [self.s_o], which raises. *)
Lemma init_s_o_raises (all_feature_counts : list Z) (all_contexts : array2 Z)
    (all_perms : array2 bool) :
  rows all_perms ≠ [] →
  ∃ e, init_s_o all_feature_counts all_contexts all_perms = Raise e.
Proof.
  intros Hne. unfold init_s_o, shape0, range.
  destruct (rows all_perms) as [|one_perm rs] eqn:Hrows; [done|].
  cbn [length seq for_each getitem lookup list_lookup mbind result_bind].
  destruct (state_construct _ _ _) as [[psi s_o]|e]; cbn [mbind result_bind].
  - unfold ndarray_setitem, np_zeros.
    rewrite decide_True by (simpl; lia). by eexists.
  - by eexists.
Qed.

(** C1, on the code.  The constructor raises on every input: whatever the
    history, the cost vector, the arm count, the budget and beta, no
    oracle object is built and no observation action is selected. *)
Theorem init_raises (all_contexts : array2 Z) (all_rewards : array2 npfloat)
    (cost_vector : list npfloat) (number_of_actions max_num_observations : nat)
    (beta : npfloat) :
  ∃ e, __init__ all_contexts all_rewards cost_vector number_of_actions
         max_num_observations beta = Raise e.
Proof.
  unfold __init__.
  destruct (perm_construct _ _) as [all_perms|e] eqn:Eperm; simpl; [|by eexists].
  destruct (save_feature_values all_contexts) as [fv counts].
  destruct (init_s_o_raises counts all_contexts all_perms) as [e He].
  { by eapply perm_construct_nonempty. }
  rewrite He. by eexists.
Qed.

(** With a budget within the dimensionality the enumeration and the
    catalog succeed, [state_construct] returns its pair for the first
    action, and the error is the [ValueError] of the assignment at
    line 125. *)
Lemma init_raises_ValueError (all_contexts : array2 Z)
    (all_rewards : array2 npfloat) (cost_vector : list npfloat)
    (number_of_actions max_num_observations : nat) (beta : npfloat) :
  max_num_observations ≤ shape1 all_contexts →
  __init__ all_contexts all_rewards cost_vector number_of_actions
    max_num_observations beta = Raise ValueError.
Proof.
  intros HM. unfold __init__.
  destruct (perm_construct_rows _ _ HM) as (all_perms & Hperm & _ & Hall).
  rewrite Hperm. cbn [mbind result_bind].
  apply perm_construct_nonempty in Hperm as Hne.
  destruct (save_feature_values_ok all_contexts) as [Hcat Hlen].
  destruct (save_feature_values all_contexts) as [fv counts].
  cbn [fst snd] in Hcat, Hlen.
  apply Forall2_length in Hcat.
  unfold init_s_o, shape0, range.
  destruct (rows all_perms) as [|one_perm rs] eqn:Hrows; [done|].
  cbn [length seq for_each getitem lookup list_lookup mbind result_bind].
  apply Forall_cons in Hall as [Hl _].
  rewrite state_construct_Ok by lia. cbn [mbind result_bind].
  unfold ndarray_setitem, np_zeros.
  by rewrite decide_True by (simpl; lia).
Qed.

(** On the one-feature history the error is the [ValueError] of the
    assignment at line 125. *)
Example init_one_feature :
  __init__ one_feature_contexts one_feature_rewards free_costs 2 1 (float_of_Z 1)
  = Raise ValueError.
Proof. reflexivity. Qed.


(** ** The per-trial methods of the oracle *)

Lemma elem_of_enumerate {A : Type} (l : list A) (i : nat) (x : A) :
  (i, x) ∈ enumerate l ↔ l !! i = Some x.
Proof.
  unfold enumerate. rewrite list_elem_of_lookup. split.
  - intros [n Hn]. apply lookup_zip_with_Some in Hn as (i' & x' & [= <- <-] & Hi & Hx).
    apply lookup_seq in Hi as [-> _]. done.
  - intros Hx. exists i. apply lookup_zip_with_Some. exists i, x.
    split; [done|]. split; [|done]. apply lookup_seq. split; [done|].
    by eapply lookup_lt_Some.
Qed.


(** The observation actions of the one-feature history and the sizes
    [state_construct] gives for them. *)
Example one_feature_actions :
  perm_construct 1 1 = Ok (Array2 1 [[false]; [true]]) ∧
  state_construct (save_feature_values one_feature_contexts).2
    one_feature_contexts [false] = Ok (1%Z, 1%Z) ∧
  state_construct (save_feature_values one_feature_contexts).2
    one_feature_contexts [true] = Ok (2%Z, 3%Z).
Proof. by repeat split. Qed.

Lemma one_feature_oracle_selected :
  ∃ self, one_feature_oracle = Ok self ∧
          self_index_of_observation_action_star self = 1 ∧
          self_selected_observation_action_at_t self = [true].
Proof. vm_compute. eexists. split; [reflexivity|]. by split. Qed.





(** ** The batch statistics of [general] *)

Lemma general_loops (all_contexts : array2 Z) (all_rewards : array2 npfloat)
    (max_num_observations s_o_max_general : nat) :
  general all_contexts all_rewards max_num_observations s_o_max_general =
    (all_perms ← perm_construct (shape1 all_contexts) max_num_observations;
     let n := shape0 all_perms in
     let K := shape1 all_rewards in
     '(_, true_prob_so, S_Size, true_average_reward, _, _) ←
       for_each (range n) (action_loop all_contexts all_rewards all_perms)
         (rows (np_zeros2 0%Z n s_o_max_general),
          rows (np_zeros2 (float_of_Z 0) n s_o_max_general),
          np_zeros 0%Z n,
          np_zeros3 (float_of_Z 0) n s_o_max_general K,
          np_zeros3 0%Z n s_o_max_general K,
          np_zeros3 (float_of_Z 0) n s_o_max_general K);
     Ok (true_prob_so, true_average_reward, S_Size)).
Proof. reflexivity. Qed.

(** *** Reading and writing the cells of a table *)

Lemma getitem_insert {A : Type} (t : list A) (i : nat) (x : A) :
  i < length t → getitem (<[i:=x]> t) i = Ok x.
Proof. intros Hi. unfold getitem. by rewrite list_lookup_insert_eq. Qed.

Lemma setitem_insert {A : Type} (t : list A) (i : nat) (x y : A) :
  i < length t → setitem (<[i:=x]> t) i y = Ok (<[i:=y]> t).
Proof.
  intros Hi. unfold setitem. rewrite length_insert, decide_True by done.
  by rewrite list_insert_insert_eq.
Qed.

Lemma get2_insert {A : Type} (t : list (list A)) (i j : nat) (r : list A) (x : A) :
  i < length t → r !! j = Some x → get2 (<[i:=r]> t) i j = Ok x.
Proof.
  intros Hi Hj. unfold get2. rewrite getitem_insert by done.
  cbn [mbind result_bind]. by apply getitem_Ok.
Qed.

Lemma set2_insert {A : Type} (t : list (list A)) (i j : nat) (r : list A) (x : A) :
  i < length t → j < length r →
  set2 (<[i:=r]> t) i j x = Ok (<[i:=<[j:=x]> r]> t).
Proof.
  intros Hi Hj. unfold set2. rewrite getitem_insert by done.
  cbn [mbind result_bind]. rewrite setitem_lt by done.
  cbn [mbind result_bind]. by apply setitem_insert.
Qed.

Lemma get3_insert {A : Type} (t : list (list (list A))) (i j k : nat)
    (ti : list (list A)) (r : list A) (x : A) :
  i < length t → j < length ti → r !! k = Some x →
  get3 (<[i:=<[j:=r]> ti]> t) i j k = Ok x.
Proof.
  intros Hi Hj Hk. unfold get3.
  rewrite (get2_insert t i j _ r) by (done || by apply list_lookup_insert_eq).
  cbn [mbind result_bind]. by apply getitem_Ok.
Qed.

Lemma set3_insert {A : Type} (t : list (list (list A))) (i j k : nat)
    (ti : list (list A)) (r : list A) (x : A) :
  i < length t → j < length ti → k < length r →
  set3 (<[i:=<[j:=r]> ti]> t) i j k x = Ok (<[i:=<[j:=<[k:=x]> r]> ti]> t).
Proof.
  intros Hi Hj Hk. unfold set3.
  rewrite (get2_insert t i j _ r) by (done || by apply list_lookup_insert_eq).
  cbn [mbind result_bind]. rewrite setitem_lt by done.
  cbn [mbind result_bind]. rewrite set2_insert by (by rewrite ?length_insert).
  by rewrite list_insert_insert_eq.
Qed.

(** *** Filling a range of entries *)

Lemma filled_0 {A : Type} (f : nat → A) (k : nat) (r : list A) :
  filled f k 0 r = r.
Proof. unfold filled. simpl. by rewrite Nat.add_0_r, take_drop. Qed.

Lemma filled_S {A : Type} (f : nat → A) (k m : nat) (r : list A) :
  k < length r → filled f (S k) m (<[k:=f k]> r) = filled f k (S m) r.
Proof.
  intros Hk. unfold filled. rewrite drop_insert_lt by lia.
  rewrite (take_S_r _ _ (f k)) by (by apply list_lookup_insert_eq).
  rewrite take_insert_ge by lia.
  rewrite <- (assoc_L (++)). simpl. do 4 f_equal. lia.
Qed.

Lemma filled_S' {A : Type} (f : nat → A) (k m : nat) (r : list A) (x : A) :
  x = f k → k < length r → filled f (S k) m (<[k:=x]> r) = filled f k (S m) r.
Proof. intros ->. apply filled_S. Qed.

Lemma filled_all {A : Type} (f : nat → A) (r : list A) :
  filled f 0 (length r) r = f <$> seq 0 (length r).
Proof. unfold filled. simpl. by rewrite drop_all, app_nil_r. Qed.

Lemma lookup_filled {A : Type} (f : nat → A) (k m q : nat) (r : list A) :
  k + m ≤ length r → k ≤ q < k + m → filled f k m r !! q = Some (f q).
Proof.
  intros Hr Hq. unfold filled.
  rewrite lookup_app_r by (rewrite length_take; lia).
  rewrite length_take, Nat.min_l by lia.
  rewrite lookup_app_l by (rewrite length_fmap, length_seq; lia).
  rewrite list_lookup_fmap, lookup_seq_lt by lia. simpl. f_equal. f_equal. lia.
Qed.

(** *** The loop over the arms *)

Lemma arm_loop_step (i j k : nat) (all_rewards_temp : array2 npfloat)
    (avg : list (list (list npfloat))) (vis : list (list (list Z)))
    (sums : list (list (list npfloat))) ai vi si ra rv rs :
  let fsum := np_sum (column nan all_rewards_temp k) in
  let fvis := Z.of_nat (length (column nan all_rewards_temp k)) in
  i < length avg → i < length vis → i < length sums →
  j < length ai → j < length vi → j < length si →
  k < length ra → k < length rv → k < length rs →
  arm_loop i j all_rewards_temp k
    (<[i:=<[j:=ra]> ai]> avg, <[i:=<[j:=rv]> vi]> vis, <[i:=<[j:=rs]> si]> sums)
  = Ok (<[i:=<[j:=<[k:=fdiv fsum (float_of_Z fvis)]> ra]> ai]> avg,
        <[i:=<[j:=<[k:=fvis]> rv]> vi]> vis,
        <[i:=<[j:=<[k:=fsum]> rs]> si]> sums).
Proof.
  intros fsum fvis Ha Hv Hs Hai Hvi Hsi Hra Hrv Hrs.
  unfold arm_loop. cbv zeta.
  rewrite set3_insert by done. cbn [mbind result_bind].
  rewrite set3_insert by done. cbn [mbind result_bind].
  rewrite (get3_insert sums i j k si _ fsum)
    by (done || by apply list_lookup_insert_eq).
  cbn [mbind result_bind].
  rewrite (get3_insert vis i j k vi _ fvis)
    by (done || by apply list_lookup_insert_eq).
  cbn [mbind result_bind].
  rewrite set3_insert by done. done.
Qed.

Lemma arm_loop_fill (i j : nat) (all_rewards_temp : array2 npfloat) (m : nat) :
  let fsum := λ k, np_sum (column nan all_rewards_temp k) in
  let fvis := λ k, Z.of_nat (length (column nan all_rewards_temp k)) in
  let favg := λ k, fdiv (fsum k) (float_of_Z (fvis k)) in
  ∀ (k : nat) (avg : list (list (list npfloat))) (vis : list (list (list Z)))
    (sums : list (list (list npfloat))) ai vi si ra rv rs,
  i < length avg → i < length vis → i < length sums →
  j < length ai → j < length vi → j < length si →
  k + m ≤ length ra → k + m ≤ length rv → k + m ≤ length rs →
  for_each (seq k m) (arm_loop i j all_rewards_temp)
    (<[i:=<[j:=ra]> ai]> avg, <[i:=<[j:=rv]> vi]> vis, <[i:=<[j:=rs]> si]> sums)
  = Ok (<[i:=<[j:=filled favg k m ra]> ai]> avg,
        <[i:=<[j:=filled fvis k m rv]> vi]> vis,
        <[i:=<[j:=filled fsum k m rs]> si]> sums).
Proof.
  intros fsum fvis favg. induction m as [|m IH];
    intros k avg vis sums ai vi si ra rv rs Ha Hv Hs Hai Hvi Hsi Hra Hrv Hrs.
  - simpl. by rewrite !filled_0.
  - cbn [seq for_each]. rewrite arm_loop_step by (done || lia).
    cbn [mbind result_bind].
    rewrite IH by (done || rewrite length_insert; lia).
    fold (fsum k) (fvis k). fold (favg k).
    by rewrite !filled_S by lia.
Qed.

(** *** The loop over the states of one observation action *)

Lemma state_loop_step (all_rewards : array2 npfloat) (i j : nat)
    (S_i all_contexts_temp : array2 Z) (state : list Z)
    (cnt : list (list Z)) (prob : list (list npfloat)) (S_Size : list Z)
    (avg : list (list (list npfloat))) (vis : list (list (list Z)))
    (sums : list (list (list npfloat))) rc rp ra rv rs :
  rows S_i !! j = Some state →
  shape0 all_contexts_temp = shape0 all_rewards →
  i < length cnt → i < length prob → i < length avg → i < length vis →
  i < length sums →
  rc !! j = Some 0%Z → j < length rp →
  (∃ r, ra !! j = Some r ∧ length r = shape1 all_rewards) →
  (∃ r, rv !! j = Some r ∧ length r = shape1 all_rewards) →
  (∃ r, rs !! j = Some r ∧ length r = shape1 all_rewards) →
  state_loop all_rewards i S_i all_contexts_temp j
    (<[i:=rc]> cnt, <[i:=rp]> prob, S_Size, <[i:=ra]> avg, <[i:=rv]> vis,
     <[i:=rs]> sums)
  = Ok (<[i:=<[j:=state_count all_contexts_temp state]> rc]> cnt,
        <[i:=<[j:=state_prob all_rewards all_contexts_temp state]> rp]> prob,
        S_Size,
        <[i:=<[j:=state_averages all_rewards all_contexts_temp state]> ra]> avg,
        <[i:=<[j:=state_visits all_rewards all_contexts_temp state]> rv]> vis,
        <[i:=<[j:=state_sums all_rewards all_contexts_temp state]> rs]> sums).
Proof.
  intros HS HT Hc Hp Ha Hv Hs Hrc Hrp (a0 & Hra & Hla) (v0 & Hrv & Hlv)
    (s0 & Hrs & Hls).
  unfold state_loop. cbv zeta.
  apply getitem_Ok in HS. rewrite HS. cbn [mbind result_bind].
  rewrite (get2_insert cnt i j rc 0%Z) by done. cbn [mbind result_bind].
  rewrite set2_insert by (done || by eapply lookup_lt_Some).
  cbn [mbind result_bind].
  rewrite (get2_insert cnt i j _ (state_count all_contexts_temp state)).
  2: done.
  2: { apply list_lookup_insert_eq. by eapply lookup_lt_Some. }
  cbn [mbind result_bind].
  rewrite set2_insert by done. cbn [mbind result_bind].
  unfold np_bool_index.
  rewrite decide_True by (rewrite length_fmap; exact HT).
  cbn [mbind result_bind].
  fold (state_mask all_contexts_temp state).
  fold (state_rewards all_rewards all_contexts_temp state).
  replace (<[i:=ra]> avg) with (<[i:=<[j:=a0]> ra]> avg)
    by (by rewrite (list_insert_id ra)).
  replace (<[i:=rv]> vis) with (<[i:=<[j:=v0]> rv]> vis)
    by (by rewrite (list_insert_id rv)).
  replace (<[i:=rs]> sums) with (<[i:=<[j:=s0]> rs]> sums)
    by (by rewrite (list_insert_id rs)).
  unfold range.
  rewrite arm_loop_fill by (done || lia || by eapply lookup_lt_Some).
  cbn [mbind result_bind].
  rewrite <- Hla at 1. rewrite <- Hlv at 1. rewrite <- Hls at 1.
  rewrite !filled_all, Hla, Hlv, Hls. done.
Qed.

Lemma state_loop_fill (all_rewards : array2 npfloat) (i : nat)
    (S_i all_contexts_temp : array2 Z)
    (cnt : list (list Z)) (prob : list (list npfloat)) (S_Size : list Z)
    (avg : list (list (list npfloat))) (vis : list (list (list Z)))
    (sums : list (list (list npfloat))) (m : nat) :
  let st := state_at S_i in
  shape0 all_contexts_temp = shape0 all_rewards →
  i < length cnt → i < length prob → i < length avg → i < length vis →
  i < length sums →
  ∀ (j0 : nat) rc rp ra rv rs,
  j0 + m ≤ shape0 S_i → j0 + m ≤ length rp →
  (∀ j, j0 ≤ j < j0 + m → rc !! j = Some 0%Z) →
  (∀ j, j0 ≤ j < j0 + m → ∃ r, ra !! j = Some r ∧ length r = shape1 all_rewards) →
  (∀ j, j0 ≤ j < j0 + m → ∃ r, rv !! j = Some r ∧ length r = shape1 all_rewards) →
  (∀ j, j0 ≤ j < j0 + m → ∃ r, rs !! j = Some r ∧ length r = shape1 all_rewards) →
  for_each (seq j0 m) (state_loop all_rewards i S_i all_contexts_temp)
    (<[i:=rc]> cnt, <[i:=rp]> prob, S_Size, <[i:=ra]> avg, <[i:=rv]> vis,
     <[i:=rs]> sums)
  = Ok (<[i:=filled (λ j, state_count all_contexts_temp (st j)) j0 m rc]> cnt,
        <[i:=filled (λ j, state_prob all_rewards all_contexts_temp (st j)) j0 m rp]> prob,
        S_Size,
        <[i:=filled (λ j, state_averages all_rewards all_contexts_temp (st j)) j0 m ra]> avg,
        <[i:=filled (λ j, state_visits all_rewards all_contexts_temp (st j)) j0 m rv]> vis,
        <[i:=filled (λ j, state_sums all_rewards all_contexts_temp (st j)) j0 m rs]> sums).
Proof.
  intros st HT Hc Hp Ha Hv Hs. induction m as [|m IH];
    intros j0 rc rp ra rv rs HS Hrp Hrc Hra Hrv Hrs.
  - simpl. by rewrite !filled_0.
  - cbn [seq for_each].
    destruct (lookup_lt_is_Some_2 (rows S_i) j0) as [state Hstate];
      [unfold shape0 in HS; lia|].
    rewrite (state_loop_step all_rewards i j0 S_i all_contexts_temp state)
      by (done || lia || (apply Hrc; lia) || (apply Hra; lia)
          || (apply Hrv; lia) || (apply Hrs; lia)).
    cbn [mbind result_bind].
    assert (Hst : st j0 = state) by (unfold st, state_at; by rewrite Hstate).
    rewrite <- Hst.
    pose proof (Hrc j0 ltac:(lia)) as Hc0%lookup_lt_Some.
    destruct (Hra j0 ltac:(lia)) as (? & Ha0%lookup_lt_Some & _).
    destruct (Hrv j0 ltac:(lia)) as (? & Hv0%lookup_lt_Some & _).
    destruct (Hrs j0 ltac:(lia)) as (? & Hs0%lookup_lt_Some & _).
    rewrite IH.
    + rewrite (filled_S' (λ j, state_count all_contexts_temp (st j)) j0 m rc)
        by (done || lia).
      rewrite (filled_S' (λ j, state_prob all_rewards all_contexts_temp (st j))
                 j0 m rp) by (done || lia).
      rewrite (filled_S' (λ j, state_averages all_rewards all_contexts_temp (st j))
                 j0 m ra) by (done || lia).
      rewrite (filled_S' (λ j, state_visits all_rewards all_contexts_temp (st j))
                 j0 m rv) by (done || lia).
      rewrite (filled_S' (λ j, state_sums all_rewards all_contexts_temp (st j))
                 j0 m rs) by (done || lia).
      done.
    + lia.
    + rewrite length_insert. lia.
    + intros j Hj. rewrite list_lookup_insert_ne by lia. apply Hrc. lia.
    + intros j Hj. rewrite list_lookup_insert_ne by lia. apply Hra. lia.
    + intros j Hj. rewrite list_lookup_insert_ne by lia. apply Hrv. lia.
    + intros j Hj. rewrite list_lookup_insert_ne by lia. apply Hrs. lia.
Qed.

(** *** The loop over the observation actions *)

Lemma np_multiply_tile (all_contexts : array2 Z) (one_perm : list bool) :
  length one_perm = shape1 all_contexts →
  np_multiply all_contexts (np_tile (Z.b2z <$> one_perm) (shape0 all_contexts))
  = Ok (masked_contexts one_perm all_contexts).
Proof.
  intros HD. unfold np_multiply, np_tile, shape0. cbn [shape1 rows].
  rewrite decide_True by (by rewrite length_fmap).
  rewrite decide_True by (by rewrite length_replicate).
  by rewrite zip_with_replicate_r_eq.
Qed.

Lemma action_loop_step (all_contexts : array2 Z) (all_rewards : array2 npfloat)
    (all_perms : array2 bool) (i W : nat) (one_perm : list bool)
    (cnt : list (list Z)) (prob : list (list npfloat)) (S_Size : list Z)
    (avg : list (list (list npfloat))) (vis : list (list (list Z)))
    (sums : list (list (list npfloat))) :
  let K := shape1 all_rewards in
  rows all_perms !! i = Some one_perm →
  length one_perm = shape1 all_contexts →
  shape0 all_contexts = shape0 all_rewards →
  shape0 (action_states one_perm all_contexts) ≤ W →
  i < length S_Size →
  cnt !! i = Some (replicate W 0%Z) →
  prob !! i = Some (replicate W (float_of_Z 0)) →
  avg !! i = Some (replicate W (replicate K (float_of_Z 0))) →
  vis !! i = Some (replicate W (replicate K 0%Z)) →
  sums !! i = Some (replicate W (replicate K (float_of_Z 0))) →
  action_loop all_contexts all_rewards all_perms i
    (cnt, prob, S_Size, avg, vis, sums)
  = Ok (<[i:=action_row state_count 0%Z all_contexts W one_perm]> cnt,
        <[i:=action_row (state_prob all_rewards) (float_of_Z 0) all_contexts W
               one_perm]> prob,
        <[i:=Z.of_nat (shape0 (action_states one_perm all_contexts))]> S_Size,
        <[i:=action_row (state_averages all_rewards)
               (replicate K (float_of_Z 0)) all_contexts W one_perm]> avg,
        <[i:=action_row (state_visits all_rewards) (replicate K 0%Z)
               all_contexts W one_perm]> vis,
        <[i:=action_row (state_sums all_rewards)
               (replicate K (float_of_Z 0)) all_contexts W one_perm]> sums).
Proof.
  intros K Hperm HD HT HW HSS Hcnt Hprob Havg Hvis Hsums.
  unfold action_loop. cbv zeta.
  apply getitem_Ok in Hperm. rewrite Hperm. cbn [mbind result_bind].
  rewrite <- HT, np_multiply_tile by done. cbn [mbind result_bind].
  fold (action_states one_perm all_contexts).
  rewrite setitem_lt by done. cbn [mbind result_bind].
  rewrite getitem_insert by done. cbn [mbind result_bind].
  rewrite Nat2Z.id. unfold range.
  rewrite <- (list_insert_id cnt i _ Hcnt) at 1.
  rewrite <- (list_insert_id prob i _ Hprob) at 1.
  rewrite <- (list_insert_id avg i _ Havg) at 1.
  rewrite <- (list_insert_id vis i _ Hvis) at 1.
  rewrite <- (list_insert_id sums i _ Hsums) at 1.
  apply lookup_lt_Some in Hcnt, Hprob, Havg, Hvis, Hsums.
  assert (HT' : shape0 (masked_contexts one_perm all_contexts) = shape0 all_rewards).
  { rewrite <- HT. unfold shape0, masked_contexts. cbn [rows].
    by rewrite length_fmap. }
  rewrite state_loop_fill; [done|done..| | | | | |].
  - lia.
  - rewrite length_replicate. lia.
  - intros j Hj. apply lookup_replicate_2. lia.
  - intros j Hj. eexists. split; [apply lookup_replicate_2; lia|].
    by rewrite length_replicate.
  - intros j Hj. eexists. split; [apply lookup_replicate_2; lia|].
    by rewrite length_replicate.
  - intros j Hj. eexists. split; [apply lookup_replicate_2; lia|].
    by rewrite length_replicate.
Qed.

Lemma action_loop_fill (all_contexts : array2 Z) (all_rewards : array2 npfloat)
    (all_perms : array2 bool) (W m : nat) :
  let K := shape1 all_rewards in
  let p := perm_at all_perms in
  shape0 all_contexts = shape0 all_rewards →
  ∀ (i0 : nat) (cnt : list (list Z)) (prob : list (list npfloat))
    (S_Size : list Z) (avg : list (list (list npfloat)))
    (vis : list (list (list Z))) (sums : list (list (list npfloat))),
  i0 + m ≤ length S_Size →
  (∀ i, i0 ≤ i < i0 + m →
     is_Some (rows all_perms !! i) ∧
     length (p i) = shape1 all_contexts ∧
     shape0 (action_states (p i) all_contexts) ≤ W ∧
     cnt !! i = Some (replicate W 0%Z) ∧
     prob !! i = Some (replicate W (float_of_Z 0)) ∧
     avg !! i = Some (replicate W (replicate K (float_of_Z 0))) ∧
     vis !! i = Some (replicate W (replicate K 0%Z)) ∧
     sums !! i = Some (replicate W (replicate K (float_of_Z 0)))) →
  for_each (seq i0 m) (action_loop all_contexts all_rewards all_perms)
    (cnt, prob, S_Size, avg, vis, sums)
  = Ok (filled (λ i, action_row state_count 0%Z all_contexts W (p i)) i0 m cnt,
        filled (λ i, action_row (state_prob all_rewards) (float_of_Z 0)
                       all_contexts W (p i)) i0 m prob,
        filled (λ i, Z.of_nat (shape0 (action_states (p i) all_contexts)))
          i0 m S_Size,
        filled (λ i, action_row (state_averages all_rewards)
                       (replicate K (float_of_Z 0)) all_contexts W (p i))
          i0 m avg,
        filled (λ i, action_row (state_visits all_rewards) (replicate K 0%Z)
                       all_contexts W (p i)) i0 m vis,
        filled (λ i, action_row (state_sums all_rewards)
                       (replicate K (float_of_Z 0)) all_contexts W (p i))
          i0 m sums).
Proof.
  intros K p HT. induction m as [|m IH];
    intros i0 cnt prob S_Size avg vis sums HSS Hpre.
  - simpl. by rewrite !filled_0.
  - cbn [seq for_each].
    destruct (Hpre i0 ltac:(lia))
      as ([one_perm Hperm] & HD & HW & Hcnt & Hprob & Havg & Hvis & Hsums).
    assert (Hp : p i0 = one_perm) by (unfold p, perm_at; by rewrite Hperm).
    rewrite Hp in HD, HW.
    rewrite (action_loop_step all_contexts all_rewards all_perms i0 W one_perm)
      by (done || lia).
    cbn [mbind result_bind]. rewrite <- Hp.
    apply lookup_lt_Some in Hcnt, Hprob, Havg, Hvis, Hsums.
    rewrite IH.
    + rewrite (filled_S' (λ i, action_row state_count 0%Z all_contexts W (p i))
                 i0 m cnt) by done.
      rewrite (filled_S' (λ i, action_row (state_prob all_rewards) (float_of_Z 0)
                                 all_contexts W (p i)) i0 m prob) by done.
      rewrite (filled_S'
                 (λ i, Z.of_nat (shape0 (action_states (p i) all_contexts)))
                 i0 m S_Size) by (done || lia).
      rewrite (filled_S' (λ i, action_row (state_averages all_rewards)
                                 (replicate K (float_of_Z 0)) all_contexts W (p i))
                 i0 m avg) by done.
      rewrite (filled_S' (λ i, action_row (state_visits all_rewards)
                                 (replicate K 0%Z) all_contexts W (p i))
                 i0 m vis) by done.
      rewrite (filled_S' (λ i, action_row (state_sums all_rewards)
                                 (replicate K (float_of_Z 0)) all_contexts W (p i))
                 i0 m sums) by done.
      done.
    + rewrite length_insert. lia.
    + intros i Hi. rewrite !list_lookup_insert_ne by lia. apply Hpre. lia.
Qed.

(** *** The cells, in terms of the groups of trials *)

Lemma length_insert_unique_le {T : Type} (cmp : T → T → comparison) (x : T)
    (l : list T) :
  length (insert_unique cmp x l) ≤ S (length l).
Proof. induction l as [|y l IH]; simpl; [lia|]. destruct (cmp x y); simpl; lia. Qed.

Lemma length_sort_unique_le {T : Type} (cmp : T → T → comparison) (l : list T) :
  length (sort_unique cmp l) ≤ length l.
Proof.
  induction l as [|y l IH]; simpl; [lia|].
  pose proof (length_insert_unique_le cmp y (sort_unique cmp l)). lia.
Qed.

Lemma distinct_states_length_le (one_perm : list bool) (all_contexts : array2 Z) :
  length (distinct_states one_perm all_contexts) ≤ shape0 all_contexts.
Proof.
  unfold distinct_states, shape0.
  etrans; [apply length_sort_unique_le|]. by rewrite length_fmap.
Qed.

Lemma distinct_states_elem (one_perm : list bool) (all_contexts : array2 Z)
    (state : list Z) :
  state ∈ distinct_states one_perm all_contexts ↔
  ∃ ctx, ctx ∈ rows all_contexts ∧ state = mask one_perm ctx.
Proof.
  unfold distinct_states.
  rewrite elem_of_sort_unique by apply lex_compare_eq, Z.compare_eq_iff.
  rewrite list_elem_of_fmap.
  split; intros (ctx & H1 & H2); by exists ctx.
Qed.

Lemma distinct_states_NoDup (one_perm : list bool) (all_contexts : array2 Z) :
  NoDup (distinct_states one_perm all_contexts).
Proof.
  apply sort_unique_NoDup.
  - apply lex_compare_eq, Z.compare_eq_iff.
  - apply lex_compare_antisym. intros x y. apply Z.compare_antisym.
  - apply lex_compare_trans; [apply Z.compare_eq_iff|apply Z_compare_trans].
Qed.

(** The rows that the boolean mask of a state selects are the reward rows
    of its group. *)
Lemma state_rewards_group (one_perm : list bool) (all_contexts : array2 Z)
    (all_rewards : array2 npfloat) (state : list Z) :
  shape0 all_contexts = shape0 all_rewards →
  rows (state_rewards all_rewards (masked_contexts one_perm all_contexts) state)
  = group_rewards one_perm all_contexts all_rewards state.
Proof.
  unfold state_rewards, group_rewards, state_mask, masked_contexts, shape0.
  cbn [rows]. generalize (rows all_rewards). generalize (rows all_contexts).
  induction l as [|ctx l IH]; intros [|rw l0] Hlen; simpl in Hlen; try done.
  cbn [fmap list_fmap zip_with]. rewrite !filter_cons. cbn [fst snd].
  destruct (decide (mask one_perm ctx = state)) as [Hm|Hm].
  - rewrite bool_decide_eq_true_2 by done. rewrite decide_True by done.
    cbn [fmap list_fmap]. f_equal. apply IH. lia.
  - rewrite bool_decide_eq_false_2 by done. rewrite decide_False by done.
    apply IH. lia.
Qed.

Lemma state_count_group (one_perm : list bool) (all_contexts : array2 Z)
    (all_rewards : array2 npfloat) (state : list Z) :
  shape0 all_contexts = shape0 all_rewards →
  state_count (masked_contexts one_perm all_contexts) state
  = Z.of_nat (length (group_rewards one_perm all_contexts all_rewards state)).
Proof.
  unfold state_count, group_rewards, state_mask, masked_contexts, shape0.
  cbn [rows]. intros Hlen. f_equal. rewrite length_fmap. revert Hlen.
  generalize (rows all_rewards). generalize (rows all_contexts).
  induction l as [|ctx l IH]; intros [|rw l0] Hlen; simpl in Hlen; try done.
  cbn [fmap list_fmap zip_with]. rewrite !filter_cons. cbn [fst snd].
  destruct (decide (mask one_perm ctx = state)) as [Hm|Hm].
  - rewrite bool_decide_eq_true_2 by done. rewrite decide_True by done.
    cbn [length]. f_equal. apply IH. lia.
  - rewrite bool_decide_eq_false_2 by done. rewrite decide_False by done.
    apply IH. lia.
Qed.

(** *** nan in a sum *)

Lemma np_sum_nan (l : list npfloat) : nan ∈ l → np_sum l = nan.
Proof.
  unfold np_sum. generalize (float_of_Z 0).
  induction l as [|x l IH]; intros acc; [by intros ?%elem_of_nil|].
  intros [<-|Hin]%elem_of_cons; simpl.
  - replace (fadd acc nan) with nan by (by destruct acc).
    clear. induction l as [|y l IH]; simpl; [done|]. exact IH.
  - by apply IH.
Qed.

Lemma filter_recorded_all (l : list npfloat) :
  Forall recorded l → filter recorded l = l.
Proof.
  induction 1 as [|x l Hx Hl IH]; [done|].
  rewrite filter_cons, decide_True by done. by rewrite IH.
Qed.

Lemma mean_unrecorded (l : list npfloat) : ¬ Forall recorded l → mean l = nan.
Proof.
  intros Hl. unfold mean. rewrite np_sum_nan; [done|].
  apply not_Forall_Exists in Hl; [|apply _].
  apply Exists_exists in Hl as (x & Hx & Hn).
  destruct x; [done|]. exfalso. apply Hn. unfold recorded. done.
Qed.

(** *** The tables that [general] returns *)

Lemma general_Ok (all_contexts : array2 Z) (all_rewards : array2 npfloat)
    (M W : nat) :
  let K := shape1 all_rewards in
  shape0 all_contexts = shape0 all_rewards →
  M ≤ shape1 all_contexts →
  (∀ one_perm, length (distinct_states one_perm all_contexts) ≤ W) →
  ∃ all_perms,
    perm_construct (shape1 all_contexts) M = Ok all_perms ∧
    general all_contexts all_rewards M W
    = Ok ((λ i, action_row (state_prob all_rewards) (float_of_Z 0)
                  all_contexts W (perm_at all_perms i)) <$> seq 0 (shape0 all_perms),
          (λ i, action_row (state_averages all_rewards)
                  (replicate K (float_of_Z 0)) all_contexts W
                  (perm_at all_perms i)) <$> seq 0 (shape0 all_perms),
          (λ i, Z.of_nat (shape0 (action_states (perm_at all_perms i) all_contexts)))
            <$> seq 0 (shape0 all_perms)).
Proof.
  intros K HT HM HW.
  destruct (perm_construct_rows (shape1 all_contexts) M HM)
    as (all_perms & Hperms & _ & Hall).
  exists all_perms. split; [done|].
  rewrite general_loops, Hperms. cbn [mbind result_bind]. cbv zeta.
  unfold range, np_zeros2, np_zeros3, np_zeros. cbn [rows].
  rewrite (action_loop_fill all_contexts all_rewards all_perms W) with (i0 := 0).
  - cbn [mbind result_bind]. do 2 f_equal; [f_equal|].
    + rewrite <- (length_replicate (shape0 all_perms) (replicate W (float_of_Z 0))) at 1.
      by rewrite filled_all, length_replicate.
    + rewrite <- (length_replicate (shape0 all_perms)
                    (replicate W (replicate (shape1 all_rewards) (float_of_Z 0)))) at 1.
      by rewrite filled_all, length_replicate.
    + rewrite <- (length_replicate (shape0 all_perms) 0%Z) at 1.
      by rewrite filled_all, length_replicate.
  - done.
  - by rewrite length_replicate.
  - intros i Hi.
    destruct (lookup_lt_is_Some_2 (rows all_perms) i) as [one_perm Hp];
      [unfold shape0 in Hi; lia|].
    assert (Hpi : perm_at all_perms i = one_perm)
      by (unfold perm_at; by rewrite Hp).
    rewrite Hpi. split; [by eexists|]. split.
    { eapply Forall_forall in Hall; [|by eapply list_elem_of_lookup_2]. apply Hall. }
    split; [apply HW|].
    rewrite !lookup_replicate_2 by lia. done.
Qed.

Lemma get2_fmap_seq {A : Type} (f : nat → list A) (n i j : nat) (x : A) :
  i < n → f i !! j = Some x → get2 (f <$> seq 0 n) i j = Ok x.
Proof.
  intros Hi Hj. unfold get2, getitem.
  rewrite list_lookup_fmap, lookup_seq_lt by done. simpl. by rewrite Hj.
Qed.




(** * Further properties of the code *)

(** ** The enumerator: order, completeness and the budget *)

Lemma picks_elem {A : Type} (l : list A) (x : A) :
  x ∈ l → ∃ r, (x, r) ∈ picks l.
Proof.
  induction l as [|y l IH]; [by intros ?%elem_of_nil|].
  intros [->|Hx]%elem_of_cons; simpl.
  - exists l. left.
  - destruct (IH Hx) as [r Hr]. exists (y :: r). right.
    apply list_elem_of_fmap. by exists (x, r).
Qed.

Lemma permutations_of_length_complete {A : Type} (n : nat) :
  ∀ l p : list A, n = length l → l ≡ₚ p → p ∈ permutations_of_length n l.
Proof.
  induction n as [|n IH]; intros l p Hn Hp; simpl.
  - symmetry in Hn. apply nil_length_inv in Hn as ->.
    apply Permutation_nil_l in Hp as ->. left.
  - destruct p as [|x p].
    { apply Permutation_length in Hp. simpl in Hp. lia. }
    assert (Hx : x ∈ l) by (rewrite Hp; left).
    destruct (picks_elem l x Hx) as [r Hr].
    apply list_elem_of_bind. exists (x, r). split; [|done]. simpl.
    apply list_elem_of_fmap. exists p. split; [done|].
    pose proof (picks_Permutation _ _ _ Hr) as Hl.
    apply IH.
    + apply Permutation_length in Hl. simpl in Hl. lia.
    + apply (Permutation_cons_inv (a := x)). by rewrite <- Hl.
Qed.

Lemma bool_list_sorted_Permutation (v : list bool) :
  replicate (hamming_weight v) true
    ++ replicate (length v - hamming_weight v) false ≡ₚ v.
Proof.
  induction v as [|[] v IH]; simpl; [done| |].
  - by rewrite IH.
  - pose proof (hamming_weight_le_length v).
    replace (S (length v) - hamming_weight v)
      with (S (length v - hamming_weight v)) by lia.
    simpl. rewrite <- Permutation_middle. by rewrite IH.
Qed.

Lemma weight_class_complete (D : nat) (v : list bool) :
  length v = D → v ∈ weight_class D (hamming_weight v).
Proof.
  intros <-. unfold weight_class.
  apply elem_of_sort_unique; [apply lex_compare_eq, Bool_compare_eq|].
  apply permutations_of_length_complete; [done|].
  apply bool_list_sorted_Permutation.
Qed.

Lemma bits_value_lt (v : list bool) : (bits_value v < 2 ^ N.of_nat (length v))%N.
Proof.
  induction v as [|b v IH] using rev_ind; [done|].
  rewrite bits_value_snoc, length_app, Nat.add_1_r, Nat2N.inj_succ, N.pow_succ_r'.
  destruct b; simpl; lia.
Qed.

Lemma bits_value_inj (u v : list bool) :
  length u = length v → bits_value u = bits_value v → u = v.
Proof.
  revert v. induction u as [|a u IH] using rev_ind; intros v Hlen Hval.
  - destruct v; [done|]. simpl in Hlen. lia.
  - destruct v as [|b v _] using rev_ind.
    { rewrite length_app in Hlen. simpl in Hlen. lia. }
    rewrite !length_app in Hlen. simpl in Hlen.
    rewrite !bits_value_snoc in Hval.
    assert (a = b) as -> by (destruct a, b; simpl in Hval; lia || done).
    f_equal. apply IH; [lia|]. lia.
Qed.

(** The rows of [full_perm_construct], by position. *)
Lemma full_perm_construct_lookup (size : nat) :
  ∃ rs, full_perm_construct size = Ok (Array2 size rs) ∧
        length rs = 2 ^ size ∧
        ∀ i, i < 2 ^ size →
          ∃ r, rs !! i = Some r ∧ length r = size ∧ bits_value r = N.of_nat i.
Proof.
  set (g := λ i, match broadcast_to (binary_repr i size) size with
                 | Ok r => r
                 | Raise _ => []
                 end).
  assert (Hg : ∀ i, i < 2 ^ size →
    broadcast_to (binary_repr i size) size = Ok (g i) ∧
    length (g i) = size ∧ bits_value (g i) = N.of_nat i).
  { intros i Hi. destruct (binary_repr_row i size Hi) as (r & Hr & Hl & Hv).
    unfold g. by rewrite Hr. }
  exists (g <$> seq 0 (2 ^ size)). split; [|split].
  - unfold full_perm_construct, np_zeros2, range.
    rewrite (for_each_set_row _ g).
    + rewrite take_0. simpl. rewrite drop_ge, app_nil_r; [done|].
      by rewrite length_replicate.
    + intros i Hi. apply Hg. lia.
    + by rewrite length_replicate.
  - by rewrite length_fmap, length_seq.
  - intros i Hi. exists (g i). split; [|apply Hg; lia].
    by rewrite list_lookup_fmap, lookup_seq_lt.
Qed.

(** X1.  [full_perm_construct] lists the observation actions in the order
    of the numbers they spell in binary: it returns [2^size] rows of
    [size] bits, and row [i] is the binary expansion of [i], most
    significant bit first (so the first row is all zeros). *)
Theorem full_perm_construct_binary_order (size : nat) :
  ∃ all_perms,
    full_perm_construct size = Ok all_perms ∧
    shape1 all_perms = size ∧ shape0 all_perms = 2 ^ size ∧
    ∀ (i : nat) (r : list bool), rows all_perms !! i = Some r →
      length r = size ∧ bits_value r = N.of_nat i.
Proof.
  destruct (full_perm_construct_lookup size) as (rs & Hrs & Hlen & Hrow).
  exists (Array2 size rs). split; [done|]. split; [done|]. split; [done|].
  intros i r Hr. cbn [rows] in Hr.
  destruct (Hrow i) as (r' & Hr' & Hl & Hv).
  { rewrite <- Hlen. by eapply lookup_lt_Some. }
  rewrite Hr in Hr'. by injection Hr' as <-.
Qed.

Lemma full_perm_construct_complete (size : nat) (v : list bool) :
  length v = size →
  ∃ rs, full_perm_construct size = Ok (Array2 size rs) ∧ v ∈ rs.
Proof.
  intros Hv. destruct (full_perm_construct_lookup size) as (rs & Hrs & Hlen & Hrow).
  exists rs. split; [done|].
  pose proof (bits_value_lt v) as Hlt. rewrite Hv in Hlt.
  destruct (Hrow (N.to_nat (bits_value v))) as (r & Hr & Hl & Hval).
  { pose proof (Nat2N.inj_pow 2 size) as Hp. change (N.of_nat 2) with 2%N in Hp. lia. }
  rewrite N2Nat.id in Hval.
  assert (r = v) as -> by (apply bits_value_inj; [lia|done]).
  by eapply list_elem_of_lookup_2.
Qed.

(** X2.  Within the budget the enumeration is exact: the rows of
    [perm_construct D M] are the binary vectors of length [D] and Hamming
    weight at most [M], all of them. *)
Theorem perm_construct_complete (D M : nat) :
  M ≤ D →
  ∃ all_perms,
    perm_construct D M = Ok all_perms ∧
    ∀ v : list bool,
      v ∈ rows all_perms ↔ length v = D ∧ hamming_weight v ≤ M.
Proof.
  intros HM. destruct (decide (D = M)) as [->|Hne].
  - destruct (full_perm_construct_Ok M) as (rs & Hrs & _ & Hall & _).
    exists (Array2 M rs). unfold perm_construct. rewrite decide_True by done.
    split; [done|]. intros v. cbn [rows]. split.
    + intros Hv. eapply Forall_forall in Hall; [|exact Hv]. split; [done|].
      rewrite <- Hall. apply hamming_weight_le_length.
    + intros [Hv _]. destruct (full_perm_construct_complete M v Hv) as (rs' & Hrs' & Hin).
      rewrite Hrs in Hrs'. by injection Hrs' as ->.
  - eexists. split; [apply perm_construct_partial; lia|].
    intros v. cbn [rows]. rewrite list_elem_of_join. split.
    + intros (c & Hvc & Hc). apply list_elem_of_fmap in Hc as (j & -> & Hj).
      apply elem_of_seq in Hj. apply weight_class_spec in Hvc as [Hl Hw]; lia.
    + intros [Hl Hw]. exists (weight_class D (hamming_weight v)).
      split; [by apply weight_class_complete|].
      apply list_elem_of_fmap. exists (hamming_weight v). split; [done|].
      apply elem_of_seq. lia.
Qed.

Lemma perm_construct_complete_witness :
  1 ≤ 2 ∧
  ∃ all_perms,
    perm_construct 2 1 = Ok all_perms ∧
    ∀ v : list bool,
      v ∈ rows all_perms ↔ length v = 2 ∧ hamming_weight v ≤ 1.
Proof. split; [lia|]. apply (perm_construct_complete 2 1). lia. Defined.

(** X3.  A budget above the dimensionality is an error: at weight
    [D + 1] the vector of ones has [D + 1] entries, and appending it to
    the rows of length [D] raises [ValueError]. *)
Theorem perm_construct_over_budget (D M : nat) :
  D < M → perm_construct D M = Raise ValueError.
Proof.
  intros HM. unfold perm_construct. rewrite decide_False by lia.
  unfold range.
  replace (M + 1) with (S D + S (M - S D)) by lia.
  rewrite seq_app, for_each_app.
  match goal with |- context [for_each _ ?b None] => set (body := b) end.
  assert (Hfirst : for_each (seq 0 (S D)) body None
                   = Ok (Some (Array2 D (mjoin (weight_class D <$> seq 0 (S D)))))).
  { change (seq 0 (S D)) with (0 :: seq 1 D).
    change (for_each (0 :: seq 1 D) body None)
      with (body 0 None ≫= for_each (seq 1 D) body).
    assert (H0 : body 0 None = Ok (Some (Array2 D (weight_class D 0)))).
    { unfold body, np_unique_rows, weight_class. simpl.
      by rewrite length_replicate, Nat.sub_0_r. }
    rewrite H0. cbn [mbind result_bind].
    unfold body. rewrite (perm_construct_loop D 1 D) by lia. done. }
  rewrite Hfirst. cbn [mbind result_bind]. simpl "+".
  cbn [seq for_each].
  assert (Hstep : ∀ a, body (S D) (Some (Array2 D a)) = Raise ValueError).
  { intros a. unfold body. rewrite decide_False by lia.
    unfold np_concatenate, np_unique_rows. cbn [shape1].
    rewrite decide_False; [done|].
    rewrite length_app, !length_replicate. lia. }
  by rewrite Hstep.
Qed.

Lemma perm_construct_over_budget_witness :
  2 < 3 ∧ perm_construct 2 3 = Raise ValueError.
Proof. split; [lia|]. apply (perm_construct_over_budget 2 3). lia. Defined.

(** ** The catalog of a history *)

Lemma save_feature_values_lookup (all_contexts : array2 Z) (i : nat) :
  i < shape1 all_contexts →
  (save_feature_values all_contexts).1 !! i
    = Some (None :: (Some <$> np_unique (column 0%Z all_contexts i))) ∧
  (save_feature_values all_contexts).2 !! i
    = Some (Z.of_nat (S (length (np_unique (column 0%Z all_contexts i))))).
Proof.
  intros Hi. unfold save_feature_values, range, np_zeros.
  rewrite save_feature_values_loop by (by rewrite length_replicate).
  simpl. rewrite drop_ge, app_nil_r by (by rewrite length_replicate).
  rewrite !list_lookup_fmap, lookup_seq_lt by done. simpl.
  by rewrite sorted_np_unique, length_fmap.
Qed.

(** X4.  The catalog [save_feature_values] builds holds, for each feature,
    the sentinel followed by exactly the values of that feature's column,
    each once and in increasing order; the count of the feature is the
    number of distinct values plus one. *)
Theorem save_feature_values_column (all_contexts : array2 Z) (i : nat) :
  i < shape1 all_contexts →
  ∃ vs : list Z,
    (save_feature_values all_contexts).1 !! i = Some (None :: (Some <$> vs)) ∧
    (save_feature_values all_contexts).2 !! i = Some (Z.of_nat (S (length vs))) ∧
    StronglySorted Z.lt vs ∧
    ∀ v : Z, v ∈ vs ↔ v ∈ column 0%Z all_contexts i.
Proof.
  intros Hi. destruct (save_feature_values_lookup all_contexts i Hi) as [Hv Hc].
  exists (np_unique (column 0%Z all_contexts i)).
  split; [done|]. split; [done|]. split; [apply np_unique_sorted|].
  intros v. unfold np_unique. apply elem_of_sort_unique.
  intros x y. apply Z.compare_eq_iff.
Qed.

Lemma save_feature_values_column_witness :
  0 < shape1 two_feature_contexts ∧
  ∃ vs : list Z,
    (save_feature_values two_feature_contexts).1 !! 0 = Some (None :: (Some <$> vs)) ∧
    (save_feature_values two_feature_contexts).2 !! 0 = Some (Z.of_nat (S (length vs))) ∧
    StronglySorted Z.lt vs ∧
    ∀ v : Z, v ∈ vs ↔ v ∈ column 0%Z two_feature_contexts 0.
Proof.
  split; [simpl; lia|].
  apply (save_feature_values_column two_feature_contexts 0). simpl; lia.
Defined.

Lemma observe_invariant (obs : list bool) (ctx : list Z) :
  length obs = length ctx → sentinel_iff_unobserved (observe obs ctx) obs.
Proof.
  revert ctx. induction obs as [|o obs IH]; intros [|x ctx] Hlen; try done.
  { constructor. }
  simpl. constructor; [|apply IH; simpl in Hlen; lia].
  unfold mismatch. destruct o; intros [[? ?]|[? ?]]; done.
Qed.

Lemma length_observe (obs : list bool) (ctx : list Z) :
  length obs = length ctx → length (observe obs ctx) = length ctx.
Proof. intros H. unfold observe. rewrite length_zip_with. lia. Qed.

Lemma observe_in_catalog (all_contexts : array2 Z) (obs : list bool) (ctx : list Z) :
  ctx ∈ rows all_contexts → length ctx = shape1 all_contexts →
  length obs = shape1 all_contexts →
  in_catalog (save_feature_values all_contexts).1 (observe obs ctx).
Proof.
  intros Hrow Hctx Hobs. unfold in_catalog.
  destruct (save_feature_values_ok all_contexts) as [_ Hlen].
  apply Forall2_same_length_lookup. split.
  { rewrite length_observe by lia. lia. }
  intros i x vals Hx Hvals.
  assert (Hi : i < shape1 all_contexts).
  { rewrite <- Hlen. by eapply lookup_lt_Some. }
  destruct (save_feature_values_lookup all_contexts i Hi) as [Hv _].
  rewrite Hv in Hvals. injection Hvals as <-.
  unfold observe in Hx. apply lookup_zip_with_Some in Hx as (o & c & -> & Ho & Hc).
  destruct o; [|left]. right.
  apply list_elem_of_fmap. exists c. split; [done|].
  unfold np_unique. apply elem_of_sort_unique.
  { intros ? ?. apply Z.compare_eq_iff. }
  unfold column. apply list_elem_of_fmap. exists ctx. by rewrite Hc.
Qed.



(** ** Decoding an index that was encoded *)

Lemma list_index_lookup `{EqDecision A} (l : list A) (x : A) (d : nat) :
  list_index l x = Ok d → l !! d = Some x.
Proof.
  revert d. induction l as [|y l IH]; intros d; simpl; [done|].
  destruct (decide (y = x)) as [->|Hne].
  - by intros [= <-].
  - destruct (list_index l x) as [d'|e] eqn:E; simpl; [|done].
    intros [= <-]. by apply IH.
Qed.

Lemma state_extract_create (ctx : list (option Z)) :
  ∀ (fv : feature_values_t) (counts : list Z) (obs : list bool) (idx : Z),
  catalog_ok fv counts → length ctx = length fv → length obs = length ctx →
  state_extract fv counts ctx obs = Ok idx →
  state_create idx fv = Ok ctx.
Proof.
  induction ctx as [|x ctx IH] using rev_ind; intros fv counts obs idx Hcat L1 L2 Hx.
  - destruct fv; [done|]. simpl in L1. lia.
  - destruct fv as [|vals fv _] using rev_ind.
    { rewrite length_app in L1. simpl in L1. lia. }
    destruct obs as [|o obs _] using rev_ind.
    { rewrite length_app in L2. simpl in L2. lia. }
    apply Forall2_snoc_inv_l in Hcat as (counts' & c & -> & Hcat & Hc).
    rewrite !length_app in L1, L2. simpl in L1, L2.
    pose proof (Forall2_length _ _ _ Hcat) as L3.
    rewrite state_extract_snoc in Hx by lia.
    destruct (state_extract fv counts' ctx obs) as [idx'|e] eqn:E.
    2:{ destruct e; try done; by destruct (decide (mismatch x o)). }
    destruct (decide (mismatch x o)); [done|].
    cbn [mbind result_bind] in Hx.
    destruct (list_index vals x) as [d|e] eqn:Ed; [|done].
    cbn [mbind result_bind] in Hx. injection Hx as <-.
    apply list_index_lookup in Ed.
    pose proof (lookup_lt_Some _ _ _ Ed) as Hd.
    destruct (feature_ok_NoDup _ _ Hc) as [_ Hpos]. destruct Hc as [Hc _].
    rewrite state_create_snoc. cbv zeta. rewrite <- Hc.
    rewrite decide_False by lia.
    assert (Hmod : ((idx' * c + Z.of_nat d) `mod` c = Z.of_nat d)%Z).
    { rewrite Z.add_comm, Z.mod_add by lia. apply Z.mod_small. lia. }
    rewrite Hmod, Nat2Z.id.
    replace (idx' * c + Z.of_nat d - Z.of_nat d)%Z with (idx' * c)%Z by lia.
    rewrite Z.quot_mul by lia.
    unfold getitem. rewrite Ed. cbn [mbind result_bind].
    rewrite (IH fv counts' obs idx' Hcat) by (done || lia). done.
Qed.



Lemma sentinel_iff_unobserved_fun (ctx : list (option Z)) (o1 o2 : list bool) :
  sentinel_iff_unobserved ctx o1 → sentinel_iff_unobserved ctx o2 → o1 = o2.
Proof.
  revert o1 o2. induction ctx as [|x ctx IH]; intros o1 o2 H1 H2.
  - apply Forall2_nil_inv_l in H1, H2. by subst.
  - apply Forall2_cons_inv_l in H1 as (a & o1' & Ha & H1 & ->).
    apply Forall2_cons_inv_l in H2 as (b & o2' & Hb & H2 & ->).
    f_equal; [|by apply IH].
    unfold mismatch in Ha, Hb.
    destruct x, a, b; try done; exfalso;
      first [ by (apply Ha; right) | by (apply Ha; left)
            | by (apply Hb; right) | by (apply Hb; left) ].
Qed.



(** ** The sizes [state_construct] returns *)

Lemma prod_observed_bounds (counts : list Z) :
  Forall (λ c, 1 ≤ c)%Z counts →
  ∀ perm : list bool,
  (0 ≤ prod_observed (λ c, c - 1) counts perm
     ≤ prod_observed id counts perm)%Z ∧
  (1 ≤ prod_observed id counts perm ≤ foldr Z.mul 1 counts)%Z ∧
  (true ∈ take (length counts) perm →
   prod_observed (λ c, c - 1) counts perm < prod_observed id counts perm)%Z.
Proof.
  unfold prod_observed.
  induction 1 as [|c counts Hc Hcs IH]; intros perm.
  { simpl. split; [lia|]. split; [lia|]. by intros ?%elem_of_nil. }
  destruct perm as [|b perm].
  { simpl. split; [lia|]. split; [|by intros ?%elem_of_nil].
    split; [lia|].
    assert (1 ≤ foldr Z.mul 1 counts)%Z; [|nia].
    clear IH. induction Hcs; simpl; [lia|nia]. }
  destruct (IH perm) as (H1 & H2 & H3). simpl. unfold id in *.
  split; [destruct b; nia|]. split; [destruct b; nia|].
  intros [Hb|Hin]%elem_of_cons.
  - subst b. nia.
  - specialize (H3 Hin). destruct b; nia.
Qed.

Lemma catalog_ok_counts (fv : feature_values_t) (counts : list Z) :
  catalog_ok fv counts → Forall (λ c, 1 ≤ c)%Z counts.
Proof.
  intros Hcat. apply Forall_forall. intros c Hc.
  apply list_elem_of_lookup in Hc as [i Hi].
  destruct (Forall2_lookup_r _ _ _ _ _ Hcat Hi) as (vals & _ & Hok).
  apply feature_ok_NoDup in Hok as [_ ?]. lia.
Qed.



(** ** Substates *)

Lemma sub_observations_spec (obs v : list bool) :
  v ∈ sub_observations obs ↔ sub_observation v obs.
Proof.
  revert v. induction obs as [|o obs IH]; intros v; simpl.
  - rewrite list_elem_of_singleton. split.
    + intros ->. constructor.
    + intros H. by apply Forall2_nil_inv_r in H.
  - rewrite elem_of_app, list_elem_of_fmap. split.
    + intros [(w & -> & Hw)|H].
      * constructor; [done|by apply IH].
      * destruct o; [|by apply elem_of_nil in H].
        apply list_elem_of_fmap in H as (w & -> & Hw).
        constructor; [done|by apply IH].
    + intros H. apply Forall2_cons_inv_r in H as (s & w & Hs & Hw & ->).
      destruct s.
      * right. rewrite Hs by done. apply list_elem_of_fmap.
        exists w. split; [done|by apply IH].
      * left. exists w. split; [done|by apply IH].
Qed.

Lemma sub_observations_sorted (obs : list bool) :
  StronglySorted (λ a b, lex_compare Bool.compare a b = Lt) (sub_observations obs).
Proof.
  induction obs as [|o obs IH]; simpl; [repeat constructor|].
  apply StronglySorted_app_2.
  - intros x1 x2 (w1 & -> & _)%list_elem_of_fmap H2.
    destruct o; [|by apply elem_of_nil in H2].
    by apply list_elem_of_fmap in H2 as (w2 & -> & _).
  - eapply StronglySorted_fmap; [|exact IH]. by intros x y H.
  - destruct o; [|constructor].
    eapply StronglySorted_fmap; [|exact IH]. by intros x y H.
Qed.

Lemma lex_lt_irrefl (v : list bool) : lex_compare Bool.compare v v ≠ Lt.
Proof.
  assert (H : lex_compare Bool.compare v v = Eq)
    by (by apply lex_compare_eq; [apply Bool_compare_eq|]).
  by rewrite H.
Qed.

Lemma sub_observations_NoDup (obs : list bool) : NoDup (sub_observations obs).
Proof.
  pose proof (sub_observations_sorted obs) as H.
  induction H as [|v l Hl IH Hv]; constructor; [|done].
  intros Hin. eapply Forall_forall in Hv; [|exact Hin]. by apply lex_lt_irrefl in Hv.
Qed.

Lemma length_sub_observations (obs : list bool) :
  length (sub_observations obs) = 2 ^ hamming_weight obs.
Proof.
  induction obs as [|[] obs IH]; simpl; [done| |];
    rewrite ?length_app, ?length_fmap, ?IH; simpl; lia.
Qed.

Lemma sub_observation_andb (r obs : list bool) :
  length r = length obs → sub_observation (zip_with andb r obs) obs.
Proof.
  revert obs. induction r as [|b r IH]; intros [|o obs] Hlen; try done.
  { constructor. }
  simpl. constructor; [|apply IH; simpl in Hlen; lia].
  by destruct b, o.
Qed.

Lemma sub_observation_andb_id (v obs : list bool) :
  sub_observation v obs → zip_with andb v obs = v.
Proof.
  induction 1 as [|s o v obs Hs _ IH]; [done|]. simpl. rewrite IH. f_equal.
  destruct s; [by rewrite Hs|done].
Qed.

Lemma generate_substate_observations_rows (obs : list bool) :
  generate_substate_observations obs
  = Ok (Array2 (length obs) (sub_observations obs)).
Proof.
  destruct (full_perm_construct_Ok (length obs)) as (rs & Hrs & _ & Hall & _).
  unfold generate_substate_observations. rewrite Hrs. cbn [mbind result_bind].
  unfold np_multiply_rows. cbn [shape1 rows]. rewrite decide_True by done.
  cbn [mbind result_bind]. unfold np_unique_rows. cbn [shape1 rows].
  f_equal. f_equal.
  assert (Heq : ∀ u v : list bool, lex_compare Bool.compare u v = Eq ↔ u = v)
    by (apply lex_compare_eq, Bool_compare_eq).
  assert (Hanti : ∀ u v : list bool,
            lex_compare Bool.compare v u = CompOpp (lex_compare Bool.compare u v))
    by (apply lex_compare_antisym, Bool_compare_antisym).
  assert (Htrans : ∀ u v w : list bool,
            lex_compare Bool.compare u v = Lt → lex_compare Bool.compare v w = Lt →
            lex_compare Bool.compare u w = Lt).
  { apply lex_compare_trans; [apply Bool_compare_eq|apply Bool_compare_trans]. }
  apply (StronglySorted_unique_strong (λ a b, lex_compare Bool.compare a b = Lt)).
  - intros x1 x2 _ _ H1 H2. rewrite Hanti, H1 in H2. done.
  - by apply sort_unique_sorted.
  - apply sub_observations_sorted.
  - apply NoDup_Permutation;
      [by apply sort_unique_NoDup|apply sub_observations_NoDup|].
    intros v. rewrite elem_of_sort_unique by done.
    rewrite sub_observations_spec, list_elem_of_fmap. split.
    + intros (r & -> & Hr). apply sub_observation_andb.
      eapply Forall_forall in Hall; [|exact Hr]. done.
    + intros Hsub. exists v. split; [by rewrite sub_observation_andb_id|].
      destruct (full_perm_construct_complete (length obs) v) as (rs' & Hrs' & Hin).
      { apply (Forall2_length _ _ _ Hsub). }
      rewrite Hrs in Hrs'. by injection Hrs' as ->.
Qed.

(** X9.  The substate observations of an observation action are exactly
    its sub-actions: the binary vectors of the same length that observe no
    feature the action does not observe, each once; there are
    [2^k] of them when the action observes [k] features. *)
Theorem generate_substate_observations_spec (observation : list bool) :
  ∃ a : array2 bool,
    generate_substate_observations observation = Ok a ∧
    shape1 a = length observation ∧
    shape0 a = 2 ^ hamming_weight observation ∧
    NoDup (rows a) ∧
    ∀ v : list bool, v ∈ rows a ↔ sub_observation v observation.
Proof.
  eexists. split; [apply generate_substate_observations_rows|].
  cbn [shape1 rows]. unfold shape0. cbn [rows].
  split; [done|]. split; [apply length_sub_observations|].
  split; [apply sub_observations_NoDup|]. intros v. apply sub_observations_spec.
Qed.

(** [get_substate]: the sanity loop and the comprehension. *)

Lemma get_substate_check (sub : list bool) :
  ∀ (pre_v : list (option Z)) (pre_s : list bool) (vector : list (option Z)),
  length pre_v = length pre_s →
  for_each (seq (length pre_v) (length sub)) (λ i (_ : unit),
    x ← getitem (pre_v ++ vector) i;
    if x is None then
      o ← getitem (pre_s ++ sub) i;
      if o : bool then Raise AssertionError else Ok ()
    else Ok ()) ()
  = if decide (Exists (λ xo : option Z * bool, xo.1 = None ∧ xo.2 = true)
                 (zip vector sub))
    then Raise AssertionError
    else if decide (length sub ≤ length vector) then Ok () else Raise IndexError.
Proof.
  induction sub as [|o sub IH]; intros pre_v pre_s vector Hlen.
  { cbn [length seq for_each].
    destruct (decide (Exists _ _)) as [He|He].
    - exfalso. destruct vector; by apply Exists_nil in He.
    - rewrite decide_True; [done|lia]. }
  destruct vector as [|x vector].
  { cbn [length seq for_each]. rewrite app_nil_r.
    assert (Hget : getitem pre_v (length pre_v) = Raise IndexError).
    { unfold getitem. by rewrite lookup_ge_None_2. }
    rewrite Hget. cbn [mbind result_bind].
    destruct (decide (Exists _ _)) as [He|He].
    - by apply Exists_nil in He.
    - rewrite decide_False; [done|lia]. }
  cbn [length seq for_each].
  rewrite (getitem_middle pre_v vector x) by done. cbn [mbind result_bind].
  assert (Hnext :
    for_each (seq (S (length pre_v)) (length sub)) (λ i (_ : unit),
      x0 ← getitem (pre_v ++ x :: vector) i;
      if x0 is None then
        o0 ← getitem (pre_s ++ o :: sub) i;
        if o0 : bool then Raise AssertionError else Ok ()
      else Ok ()) ()
    = if decide (Exists (λ xo : option Z * bool, xo.1 = None ∧ xo.2 = true)
                   (zip vector sub))
      then Raise AssertionError
      else if decide (length sub ≤ length vector) then Ok () else Raise IndexError).
  { rewrite (cons_middle x pre_v vector), (cons_middle o pre_s sub), !app_assoc.
    replace (S (length pre_v)) with (length (pre_v ++ [x]))
      by (rewrite length_app; simpl; lia).
    apply IH. rewrite !length_app. simpl. lia. }
  assert (Hrest : ¬ (x = None ∧ o = true) →
    (if decide (Exists (λ xo : option Z * bool, xo.1 = None ∧ xo.2 = true)
                  (zip (x :: vector) (o :: sub)))
     then Raise AssertionError
     else if decide (length (o :: sub) ≤ length (x :: vector))
          then Ok () else Raise IndexError)
    = (if decide (Exists (λ xo : option Z * bool, xo.1 = None ∧ xo.2 = true)
                    (zip vector sub))
       then Raise AssertionError
       else if decide (length sub ≤ length vector) then Ok ()
            else Raise IndexError :> result unit)).
  { intros Hhd. simpl zip. simpl length.
    destruct (decide (Exists _ (zip vector sub))) as [He|He].
    - rewrite decide_True; [done|by right].
    - rewrite decide_False.
      + destruct (decide (length sub ≤ length vector));
          [rewrite decide_True by lia|rewrite decide_False by lia]; done.
      + rewrite Exists_cons. by intros [?|?]. }
  destruct x as [z|].
  - cbn [mbind result_bind]. rewrite Hnext. symmetry. apply Hrest. by intros [? _].
  - rewrite (getitem_middle pre_s sub o) by done. cbn [mbind result_bind].
    destruct o.
    + cbn [mbind result_bind]. rewrite decide_True; [done|]. by left.
    + cbn [mbind result_bind]. rewrite Hnext. symmetry. apply Hrest. by intros [_ ?].
Qed.

Lemma mapM_cons {A B : Type} (f : A → result B) (x : A) (l : list A) :
  mapM f (x :: l) = y ← f x; k ← mapM f l; Ok (y :: k).
Proof. done. Qed.

Lemma get_substate_build (sub : list bool) :
  ∀ (pre_v : list (option Z)) (pre_s : list bool) (vector : list (option Z)),
  length pre_v = length pre_s → length sub ≤ length vector →
  mapM (λ i,
      o ← getitem (pre_s ++ sub) i;
      if o : bool then getitem (pre_v ++ vector) i else Ok None)
    (seq (length pre_v) (length sub))
  = Ok (restrict vector sub).
Proof.
  induction sub as [|o sub IH]; intros pre_v pre_s vector Hlen Hle.
  { by destruct vector. }
  destruct vector as [|x vector]; [simpl in Hle; lia|].
  cbn [length seq]. rewrite mapM_cons. cbn beta.
  rewrite (getitem_middle pre_s sub o) by done. cbn [mbind result_bind].
  assert (Hhd : (if o then getitem (pre_v ++ x :: vector) (length pre_v) else Ok None)
                = Ok (if o then x else None)).
  { destruct o; [|done]. by apply getitem_middle. }
  rewrite Hhd. cbn [mbind result_bind].
  assert (Hnext :
    mapM (λ i,
        o0 ← getitem (pre_s ++ o :: sub) i;
        if o0 : bool then getitem (pre_v ++ x :: vector) i else Ok None)
      (seq (S (length pre_v)) (length sub))
    = Ok (restrict vector sub)).
  { rewrite (cons_middle x pre_v vector), (cons_middle o pre_s sub), !app_assoc.
    replace (S (length pre_v)) with (length (pre_v ++ [x]))
      by (rewrite length_app; simpl; lia).
    apply IH; [rewrite !length_app; simpl; lia|simpl in Hle; lia]. }
  rewrite Hnext. done.
Qed.

Lemma get_substate_eq (vector : list (option Z)) (sub : list bool) :
  get_substate vector sub =
    if decide (Exists (λ xo : option Z * bool, xo.1 = None ∧ xo.2 = true)
                 (zip vector sub))
    then Raise AssertionError
    else if decide (length sub ≤ length vector) then Ok (restrict vector sub)
         else Raise IndexError.
Proof.
  unfold get_substate, range.
  pose proof (get_substate_check sub [] [] vector eq_refl) as Hcheck.
  cbn [app length] in Hcheck. rewrite Hcheck.
  destruct (decide (Exists _ _)); [done|].
  destruct (decide (length sub ≤ length vector)) as [Hle|]; [|done].
  cbn [mbind result_bind].
  apply (get_substate_build sub [] [] vector eq_refl Hle).
Qed.

Lemma Exists_zip_sentinel (vector : list (option Z)) (sub : list bool) :
  Exists (λ xo : option Z * bool, xo.1 = None ∧ xo.2 = true) (zip vector sub) ↔
  ∃ i : nat, vector !! i = Some None ∧ sub !! i = Some true.
Proof.
  rewrite Exists_exists. split.
  - intros ([x o] & Hin & Hx & Ho). simpl in *. subst.
    apply list_elem_of_lookup in Hin as [i Hi]. exists i.
    by apply lookup_zip_with_Some in Hi as (x & o & [= <- <-] & ? & ?).
  - intros (i & Hv & Hs). exists (None, true). split; [|done].
    apply list_elem_of_lookup. exists i.
    apply lookup_zip_with_Some. by exists None, true.
Qed.

(** X10.  [get_substate] checks one half of the invariant only: it fails
    with the assertion error exactly when the vector holds the sentinel at
    a position the substate observation keeps (a value at a position it
    drops is discarded without complaint), with [IndexError] when no such
    position exists and the vector is shorter than the observation, and
    otherwise returns the vector cut down to the observation. *)
Theorem get_substate_contract (vector : list (option Z))
    (substate_observation : list bool) :
  (get_substate vector substate_observation = Raise AssertionError ↔
   ∃ i : nat, vector !! i = Some None ∧ substate_observation !! i = Some true) ∧
  (get_substate vector substate_observation = Raise IndexError ↔
   length vector < length substate_observation ∧
   ¬ ∃ i : nat, vector !! i = Some None ∧ substate_observation !! i = Some true) ∧
  (length substate_observation ≤ length vector →
   (¬ ∃ i : nat, vector !! i = Some None ∧ substate_observation !! i = Some true) →
   get_substate vector substate_observation
     = Ok (restrict vector substate_observation)).
Proof.
  rewrite get_substate_eq, <- Exists_zip_sentinel.
  destruct (decide (Exists _ _)) as [He|He].
  - split; [done|]. split; [|done]. split; [done|]. by intros [_ ?].
  - destruct (decide (length substate_observation ≤ length vector)).
    + split; [done|]. split; [|done]. split; [done|]. intros [? _]. lia.
    + split; [done|]. split; [|intros; lia]. split; [|done]. intros _.
      split; [lia|done].
Qed.

(** [generate_substates]: the loop that fills the rows. *)

Lemma for_each_enumerate_set_row {A B : Type} (f : B → result (list A))
    (g : B → list A) (w : nat) (xs : list B) :
  (∀ x, x ∈ xs → f x = Ok (g x) ∧ length (g x) = w) →
  ∀ (done rs : list (list A)), length rs = length xs →
  for_each (zip (seq (length done) (length xs)) xs)
    (λ '(i, x) a, r ← f x; set_row a i r) (Array2 w (done ++ rs))
  = Ok (Array2 w (done ++ (g <$> xs))).
Proof.
  induction xs as [|x xs IH]; intros Hf done rs Hlen.
  { destruct rs; [done|]. simpl in Hlen. lia. }
  destruct rs as [|r0 rs]; [simpl in Hlen; lia|].
  cbn [length seq zip zip_with for_each].
  destruct (Hf x) as [Hx Hw]; [left|]. rewrite Hx. cbn [mbind result_bind].
  rewrite (set_row_Ok w (length done) _ (g x) (g x)).
  - cbn [mbind result_bind].
    rewrite insert_app_r_alt, Nat.sub_diag by lia. cbn [insert list_insert].
    rewrite (cons_middle (g x) done rs), app_assoc.
    replace (S (length done)) with (length (done ++ [g x]))
      by (rewrite length_app; simpl; lia).
    rewrite IH.
    + by rewrite <- app_assoc.
    + intros y Hy. apply Hf. by right.
    + simpl in Hlen. lia.
  - rewrite length_app. simpl. lia.
  - unfold broadcast_to. by rewrite decide_True.
Qed.

Lemma length_restrict (vector : list (option Z)) (sub : list bool) :
  length (restrict vector sub) = length vector `min` length sub.
Proof. unfold restrict. by rewrite length_zip_with. Qed.

Lemma get_substate_sub (vector : list (option Z)) (obs sub : list bool) :
  Forall2 (λ x (o : bool), o = true → x ≠ None) vector obs →
  sub_observation sub obs →
  get_substate vector sub = Ok (restrict vector sub).
Proof.
  intros Hv Hsub. rewrite get_substate_eq.
  pose proof (Forall2_length _ _ _ Hv) as L1.
  pose proof (Forall2_length _ _ _ Hsub) as L2.
  rewrite decide_False, decide_True; [done|lia|].
  rewrite Exists_zip_sentinel. intros (i & Hx & Hs).
  destruct (Forall2_lookup_l _ _ _ _ _ Hsub Hs) as (o & Ho & Himp).
  destruct (Forall2_lookup_l _ _ _ _ _ Hv Hx) as (o' & Ho' & Hne).
  rewrite Ho in Ho'. injection Ho' as <-. by apply Hne; [apply Himp|].
Qed.

Lemma generate_substates_rows (partial_vector : list (option Z))
    (observation : list bool) :
  Forall2 (λ x (o : bool), o = true → x ≠ None) partial_vector observation →
  generate_substates partial_vector observation
  = Ok (Array2 (length observation)
          (restrict partial_vector <$> sub_observations observation),
        Array2 (length observation) (sub_observations observation)).
Proof.
  intros Hv. unfold generate_substates.
  rewrite generate_substate_observations_rows. cbn [mbind result_bind].
  unfold np_zeros2, shape0, enumerate. cbn [shape1 rows].
  assert (Hf : ∀ s, s ∈ sub_observations observation →
            get_substate partial_vector s = Ok (restrict partial_vector s) ∧
            length (restrict partial_vector s) = length observation).
  { intros s Hs. apply sub_observations_spec in Hs.
    split; [by eapply get_substate_sub|].
    rewrite length_restrict.
    apply Forall2_length in Hv, Hs. lia. }
  pose proof (for_each_enumerate_set_row (get_substate partial_vector)
             (restrict partial_vector) (length observation)
             (sub_observations observation) Hf []
             (replicate (length (sub_observations observation))
                (replicate (length observation) (Some 0%Z)))
             (length_replicate _ _)) as Hloop.
  cbn [app length] in Hloop. rewrite Hloop. done.
Qed.

Lemma invariant_observed (ctx : list (option Z)) (obs : list bool) :
  sentinel_iff_unobserved ctx obs →
  Forall2 (λ x (o : bool), o = true → x ≠ None) ctx obs.
Proof.
  intros H. eapply Forall2_impl; [exact H|].
  intros x o Hm -> ->. apply Hm. by left.
Qed.

Lemma restrict_invariant (vector : list (option Z)) (obs sub : list bool) :
  Forall2 (λ x (o : bool), o = true → x ≠ None) vector obs →
  sub_observation sub obs →
  sentinel_iff_unobserved (restrict vector sub) sub.
Proof.
  intros Hv. revert sub.
  induction Hv as [|x o vector obs Hx _ IH]; intros sub Hsub.
  - apply Forall2_nil_inv_r in Hsub as ->. constructor.
  - apply Forall2_cons_inv_r in Hsub as (s & sub' & Hs & Hsub & ->).
    simpl. constructor; [|by apply IH].
    destruct s.
    + intros [[-> _]|[_ ?]]; [|done]. by apply Hx; [apply Hs|].
    + intros [[_ ?]|[? _]]; done.
Qed.

(** X11.  For a partial vector that satisfies the invariant under an
    observation action observing [k] features, [generate_substates]
    returns [2^k] substates, one per substate observation and in the
    same order: each is the vector cut down to its substate observation,
    and is itself a partial vector satisfying the invariant under it. *)
Theorem generate_substates_spec (partial_vector : list (option Z))
    (observation : list bool) :
  sentinel_iff_unobserved partial_vector observation →
  ∃ (substates : array2 (option Z)) (substate_observations : array2 bool),
    generate_substates partial_vector observation
      = Ok (substates, substate_observations) ∧
    generate_substate_observations observation = Ok substate_observations ∧
    shape1 substates = length observation ∧
    shape0 substates = 2 ^ hamming_weight observation ∧
    rows substates = restrict partial_vector <$> rows substate_observations ∧
    Forall2 sentinel_iff_unobserved (rows substates) (rows substate_observations).
Proof.
  intros Hinv. apply invariant_observed in Hinv.
  eexists _, _. split; [by apply generate_substates_rows|].
  split; [apply generate_substate_observations_rows|].
  unfold shape0. cbn [shape1 rows]. split; [done|].
  split; [by rewrite length_fmap, length_sub_observations|].
  split; [done|].
  apply Forall2_fmap_l, Forall_Forall2_diag, Forall_forall. intros s Hs.
  apply (restrict_invariant _ observation); [done|].
  by apply sub_observations_spec.
Qed.

Lemma generate_substates_spec_witness :
  sentinel_iff_unobserved [Some 7%Z; None] [true; false] ∧
  ∃ (substates : array2 (option Z)) (substate_observations : array2 bool),
    generate_substates [Some 7%Z; None] [true; false]
      = Ok (substates, substate_observations) ∧
    generate_substate_observations [true; false] = Ok substate_observations ∧
    shape1 substates = length [true; false] ∧
    shape0 substates = 2 ^ hamming_weight [true; false] ∧
    rows substates = restrict [Some 7%Z; None] <$> rows substate_observations ∧
    Forall2 sentinel_iff_unobserved (rows substates) (rows substate_observations).
Proof.
  split; [exact partial_vector_7|].
  apply (generate_substates_spec [Some 7%Z; None] [true; false] partial_vector_7).
Defined.

Lemma restrict_in_catalog (fv : feature_values_t) (counts : list Z)
    (vector : list (option Z)) (sub : list bool) :
  catalog_ok fv counts → in_catalog fv vector → length sub = length vector →
  in_catalog fv (restrict vector sub).
Proof.
  intros Hcat Hin Hlen. unfold in_catalog in *.
  apply Forall2_same_length_lookup. split.
  { rewrite length_restrict. apply Forall2_length in Hin. lia. }
  intros i y vals Hy Hvals.
  unfold restrict in Hy. apply lookup_zip_with_Some in Hy as (x & o & -> & Hx & Ho).
  destruct o.
  - destruct (Forall2_lookup_l _ _ _ _ _ Hin Hx) as (vals' & Hv' & Hel).
    rewrite Hvals in Hv'. by injection Hv' as <-.
  - destruct (Forall2_lookup_l _ _ _ _ _ Hcat Hvals) as (c & _ & _ & vs & -> & _).
    left.
Qed.



Lemma for_each_enumerate_set_row_raise {A B : Type} (f : B → result (list A))
    (e : exn) (w : nat) (xs : list B) :
  (∀ x, x ∈ xs → f x = Raise e ∨ ∃ r, f x = Ok r ∧ length r = w) →
  (∃ x, x ∈ xs ∧ f x = Raise e) →
  ∀ (done rs : list (list A)), length rs = length xs →
  for_each (zip (seq (length done) (length xs)) xs)
    (λ '(i, x) a, r ← f x; set_row a i r) (Array2 w (done ++ rs))
  = Raise e.
Proof.
  induction xs as [|x xs IH]; intros Hf (y & Hy & Hraise) done rs Hlen.
  { by apply elem_of_nil in Hy. }
  destruct rs as [|r0 rs]; [simpl in Hlen; lia|].
  cbn [length seq zip zip_with for_each].
  destruct (Hf x) as [Hx|(r & Hx & Hw)]; [left| |]; rewrite Hx; [done|].
  cbn [mbind result_bind].
  rewrite (set_row_Ok w (length done) _ r r).
  - cbn [mbind result_bind].
    rewrite insert_app_r_alt, Nat.sub_diag by lia. cbn [insert list_insert].
    rewrite (cons_middle r done rs), app_assoc.
    replace (S (length done)) with (length (done ++ [r]))
      by (rewrite length_app; simpl; lia).
    apply IH.
    + intros z Hz. apply Hf. by right.
    + exists y. split; [|done].
      apply elem_of_cons in Hy as [->|Hy]; [|done]. by rewrite Hx in Hraise.
    + simpl in Hlen. lia.
  - rewrite length_app. simpl. lia.
  - unfold broadcast_to. by rewrite decide_True.
Qed.

Lemma sub_observation_refl (obs : list bool) : sub_observation obs obs.
Proof. by apply Forall_Forall2_diag, Forall_forall. Qed.

(** X13.  A sentinel at an observed position makes [generate_substates]
    fail: for a vector as long as the observation action that holds the
    sentinel where the action has bit 1, the call raises the assertion
    error of [get_substate] and returns no substates. *)
Theorem generate_substates_assertion (partial_vector : list (option Z))
    (observation : list bool) :
  length partial_vector = length observation →
  (∃ i : nat, partial_vector !! i = Some None ∧ observation !! i = Some true) →
  generate_substates partial_vector observation = Raise AssertionError.
Proof.
  intros Hlen Hbad. unfold generate_substates.
  rewrite generate_substate_observations_rows. cbn [mbind result_bind].
  unfold np_zeros2, shape0, enumerate. cbn [shape1 rows].
  assert (Hf : ∀ s, s ∈ sub_observations observation →
            get_substate partial_vector s = Raise AssertionError ∨
            ∃ r, get_substate partial_vector s = Ok r ∧
                 length r = length observation).
  { intros s Hs. apply sub_observations_spec, Forall2_length in Hs.
    rewrite get_substate_eq.
    destruct (decide (Exists _ _)); [by left|].
    rewrite decide_True by lia. right. eexists. split; [done|].
    rewrite length_restrict. lia. }
  assert (Hraise : ∃ s, s ∈ sub_observations observation ∧
            get_substate partial_vector s = Raise AssertionError).
  { exists observation. split; [apply sub_observations_spec, sub_observation_refl|].
    rewrite get_substate_eq, decide_True; [done|]. by apply Exists_zip_sentinel. }
  pose proof (for_each_enumerate_set_row_raise (get_substate partial_vector)
                AssertionError (length observation)
                (sub_observations observation) Hf Hraise []
                (replicate (length (sub_observations observation))
                   (replicate (length observation) (Some 0%Z)))
                (length_replicate _ _)) as Hloop.
  cbn [app length] in Hloop. by rewrite Hloop.
Qed.

Lemma generate_substates_assertion_witness :
  length [Some 7%Z; None] = length [true; true] ∧
  (∃ i : nat, [Some 7%Z; None] !! i = Some None ∧ [true; true] !! i = Some true) ∧
  generate_substates [Some 7%Z; None] [true; true] = Raise AssertionError.
Proof.
  assert (H : ∃ i : nat,
            [Some 7%Z; None] !! i = Some None ∧ [true; true] !! i = Some true)
    by (by exists 1).
  split; [reflexivity|]. split; [exact H|].
  apply (generate_substates_assertion [Some 7%Z; None] [true; true] eq_refl H).
Defined.

(** ** The tables of [general]: sizes, padding, probabilities *)

Lemma lookup_filled_ge {A : Type} (f : nat → A) (k m q : nat) (r : list A) :
  k + m ≤ length r → k + m ≤ q → filled f k m r !! q = r !! q.
Proof.
  intros Hlen Hq. unfold filled.
  rewrite lookup_app_r; rewrite length_take; [|lia].
  rewrite lookup_app_r; rewrite length_fmap, length_seq; [|lia].
  rewrite lookup_drop. f_equal. lia.
Qed.

Lemma perm_at_lookup (all_perms : array2 bool) (i : nat) (one_perm : list bool) :
  rows all_perms !! i = Some one_perm → perm_at all_perms i = one_perm.
Proof. intros H. unfold perm_at. by rewrite H. Qed.



(** The occurrence probabilities of one observation action add up to 1. *)

Lemma sum_indicator `{EqDecision X} (x : X) (ds : list X) :
  NoDup ds → x ∈ ds →
  foldr Z.add 0%Z ((λ d, if decide (x = d) then 1 else 0)%Z <$> ds) = 1%Z.
Proof.
  induction 1 as [|d ds Hd Hnd IH]; [by intros ?%elem_of_nil|].
  intros [->|Hin]%elem_of_cons; rewrite fmap_cons; cbn [foldr].
  - rewrite decide_True by done.
    assert (H0 : foldr Z.add 0%Z ((λ d0, if decide (d = d0) then 1 else 0)%Z <$> ds)
                 = 0%Z).
    { clear IH Hnd. induction ds as [|e ds IH]; [done|].
      rewrite fmap_cons. cbn [foldr].
      rewrite decide_False, IH; [done| |].
      - intros ?. apply Hd. by right.
      - intros ->. apply Hd. left. }
    rewrite H0. done.
  - rewrite decide_False, IH; [done|done|]. by intros ->.
Qed.

Lemma sum_fmap_add {X : Type} (f g : X → Z) (ds : list X) :
  foldr Z.add 0%Z ((λ d, f d + g d)%Z <$> ds)
  = (foldr Z.add 0 (f <$> ds) + foldr Z.add 0 (g <$> ds))%Z.
Proof.
  induction ds as [|d ds IH]; [done|].
  rewrite !fmap_cons. cbn [foldr]. rewrite IH. lia.
Qed.

Lemma sum_state_counts (w : nat) (l ds : list (list Z)) :
  NoDup ds → (∀ x, x ∈ l → x ∈ ds) →
  foldr Z.add 0%Z (state_count (Array2 w l) <$> ds) = Z.of_nat (length l).
Proof.
  intros Hnd. unfold state_count, state_mask. cbn [rows].
  induction l as [|x l IH]; intros Hin.
  - clear Hnd Hin. induction ds as [|d ds IH]; [done|].
    rewrite fmap_cons. cbn [foldr]. by rewrite IH.
  - erewrite (list_fmap_ext _ (λ d, (if decide (x = d) then 1 else 0)
              + Z.of_nat (length (filter (λ b : bool, b = true)
                                    ((λ r, bool_decide (r = d)) <$> l))))%Z).
    + rewrite sum_fmap_add, sum_indicator, IH.
      * simpl length. lia.
      * intros y Hy. apply Hin. by right.
      * done.
      * apply Hin. left.
    + intros _ d _. cbv beta. rewrite fmap_cons, filter_cons.
      destruct (decide (x = d)) as [->|Hne].
      * rewrite bool_decide_eq_true_2 by done.
        rewrite decide_True by done. cbn [length]. lia.
      * rewrite bool_decide_eq_false_2 by done.
        rewrite decide_False by done. lia.
Qed.

Lemma np_sum_fractions (T : Z) (cs : list Z) :
  T ≠ 0%Z →
  ∀ acc : Z,
  foldl fadd (num (Qc_of_Z acc / Qc_of_Z T)%Qc)
    ((λ c, fdiv (float_of_Z c) (float_of_Z T)) <$> cs)
  = num (Qc_of_Z (acc + foldr Z.add 0%Z cs)%Z / Qc_of_Z T)%Qc.
Proof.
  intros HT.
  assert (HT' : Qc_of_Z T ≠ 0%Qc).
  { rewrite <- Z2Qc_inj_0. by intros ?%Z2Qc_inj. }
  induction cs as [|c cs IH]; intros acc.
  - simpl. by rewrite Z.add_0_r.
  - rewrite fmap_cons. cbn [foldl foldr].
    assert (Hstep : fadd (num (Qc_of_Z acc / Qc_of_Z T)%Qc)
                      (fdiv (float_of_Z c) (float_of_Z T))
                    = num (Qc_of_Z (acc + c)%Z / Qc_of_Z T)%Qc).
    { unfold fdiv, float_of_Z. rewrite decide_False by done. cbn [fadd].
      f_equal. rewrite Z2Qc_inj_add. by field. }
    rewrite Hstep, IH. do 3 f_equal. lia.
Qed.

Lemma np_sum_app_zeros (xs : list npfloat) (n : nat) :
  np_sum (xs ++ replicate n (float_of_Z 0)) = np_sum xs.
Proof.
  unfold np_sum. rewrite foldl_app. generalize (foldl fadd (float_of_Z 0) xs).
  induction n as [|n IH]; intros acc; [done|]. simpl. rewrite <- (IH acc) at 2.
  f_equal. destruct acc as [|q]; [done|]. unfold float_of_Z. simpl.
  by rewrite Z2Qc_inj_0, Qcplus_0_r.
Qed.

Lemma fmap_state_at {A : Type} (g : list Z → A) (S_i : array2 Z) :
  (λ j, g (state_at S_i j)) <$> seq 0 (shape0 S_i) = g <$> rows S_i.
Proof.
  unfold shape0, state_at. apply list_eq. intros j.
  rewrite !list_lookup_fmap.
  destruct (decide (j < length (rows S_i))) as [Hj|Hj].
  - rewrite lookup_seq_lt by done. simpl.
    destruct (lookup_lt_is_Some_2 _ _ Hj) as [r Hr]. by rewrite Hr.
  - rewrite lookup_seq_ge by lia. by rewrite lookup_ge_None_2 by lia.
Qed.

Lemma action_row_prob_sum (all_contexts : array2 Z) (all_rewards : array2 npfloat)
    (W : nat) (one_perm : list bool) :
  shape0 all_contexts = shape0 all_rewards → 0 < shape0 all_rewards →
  length (distinct_states one_perm all_contexts) ≤ W →
  np_sum (action_row (state_prob all_rewards) (float_of_Z 0) all_contexts W one_perm)
  = float_of_Z 1.
Proof.
  intros HT Hpos HW. unfold action_row, filled.
  rewrite take_0, app_nil_l, Nat.add_0_l.
  rewrite drop_replicate, np_sum_app_zeros.
  rewrite (fmap_state_at
             (state_prob all_rewards (masked_contexts one_perm all_contexts))).
  unfold state_prob.
  rewrite (list_fmap_compose (state_count (masked_contexts one_perm all_contexts))
             (λ c, fdiv (float_of_Z c) (float_of_Z (Z.of_nat (shape0 all_rewards))))).
  unfold np_sum. unfold float_of_Z at 1.
  replace (Qc_of_Z 0) with (Qc_of_Z 0 / Qc_of_Z (Z.of_nat (shape0 all_rewards)))%Qc
    by (rewrite Z2Qc_inj_0; apply Qcmult_0_l).
  rewrite np_sum_fractions by lia.
  unfold action_states, np_unique_rows, masked_contexts. cbn [rows shape1].
  fold (distinct_states one_perm all_contexts).
  rewrite sum_state_counts.
  - rewrite length_fmap. fold (shape0 all_contexts). rewrite HT, Z.add_0_l.
    unfold float_of_Z. f_equal. rewrite Z2Qc_inj_1.
    apply Qcmult_inv_r. rewrite <- Z2Qc_inj_0. intros ?%Z2Qc_inj. lia.
  - apply distinct_states_NoDup.
  - intros x (ctx & -> & Hctx)%list_elem_of_fmap.
    apply distinct_states_elem. by exists ctx.
Qed.



(** ** Tables too narrow for the states of the history *)

Lemma length_filled_0 {A : Type} (f : nat → A) (m : nat) (r : list A) :
  m ≤ length r → length (filled f 0 m r) = length r.
Proof.
  intros Hm. unfold filled.
  rewrite take_0, app_nil_l, length_app, length_fmap, length_seq, length_drop. lia.
Qed.

Lemma action_loop_narrow (all_contexts : array2 Z) (all_rewards : array2 npfloat)
    (all_perms : array2 bool) (i W : nat) (one_perm : list bool)
    (cnt : list (list Z)) (prob : list (list npfloat)) (S_Size : list Z)
    (avg : list (list (list npfloat))) (vis : list (list (list Z)))
    (sums : list (list (list npfloat))) :
  let K := shape1 all_rewards in
  rows all_perms !! i = Some one_perm →
  length one_perm = shape1 all_contexts →
  shape0 all_contexts = shape0 all_rewards →
  W < shape0 (action_states one_perm all_contexts) →
  i < length S_Size →
  cnt !! i = Some (replicate W 0%Z) →
  prob !! i = Some (replicate W (float_of_Z 0)) →
  avg !! i = Some (replicate W (replicate K (float_of_Z 0))) →
  vis !! i = Some (replicate W (replicate K 0%Z)) →
  sums !! i = Some (replicate W (replicate K (float_of_Z 0))) →
  action_loop all_contexts all_rewards all_perms i
    (cnt, prob, S_Size, avg, vis, sums)
  = Raise IndexError.
Proof.
  intros K Hperm HD HT HW HSS Hcnt Hprob Havg Hvis Hsums.
  unfold action_loop. cbv zeta.
  apply getitem_Ok in Hperm. rewrite Hperm. cbn [mbind result_bind].
  rewrite <- HT, np_multiply_tile by done. cbn [mbind result_bind].
  fold (action_states one_perm all_contexts).
  rewrite setitem_lt by done. cbn [mbind result_bind].
  rewrite getitem_insert by done. cbn [mbind result_bind].
  rewrite Nat2Z.id. unfold range.
  rewrite <- (list_insert_id cnt i _ Hcnt) at 1.
  rewrite <- (list_insert_id prob i _ Hprob) at 1.
  rewrite <- (list_insert_id avg i _ Havg) at 1.
  rewrite <- (list_insert_id vis i _ Hvis) at 1.
  rewrite <- (list_insert_id sums i _ Hsums) at 1.
  apply lookup_lt_Some in Hcnt, Hprob, Havg, Hvis, Hsums.
  assert (HT' : shape0 (masked_contexts one_perm all_contexts) = shape0 all_rewards).
  { rewrite <- HT. unfold shape0, masked_contexts. cbn [rows].
    by rewrite length_fmap. }
  replace (shape0 (action_states one_perm all_contexts))
    with (W + S (shape0 (action_states one_perm all_contexts) - S W)) by lia.
  rewrite seq_app, for_each_app.
  rewrite state_loop_fill; [|done..| | | | | |].
  - cbn [mbind result_bind]. rewrite Nat.add_0_l. cbn [seq for_each].
    assert (Hstep : ∀ p SS a v s,
      state_loop all_rewards i (action_states one_perm all_contexts)
        (masked_contexts one_perm all_contexts) W
        (<[i:=filled (λ j, state_count (masked_contexts one_perm all_contexts)
                             (state_at (action_states one_perm all_contexts) j))
                0 W (replicate W 0%Z)]> cnt, p, SS, a, v, s)
      = Raise IndexError).
    { intros p SS a v s. unfold state_loop. cbv zeta.
      destruct (lookup_lt_is_Some_2 (rows (action_states one_perm all_contexts)) W)
        as [state Hstate]; [exact HW|].
      apply getitem_Ok in Hstate. rewrite Hstate. cbn [mbind result_bind].
      unfold get2. rewrite getitem_insert by done. cbn [mbind result_bind].
      unfold getitem. rewrite lookup_ge_None_2; [done|].
      rewrite length_filled_0; rewrite length_replicate; lia. }
    by rewrite Hstep.
  - lia.
  - rewrite length_replicate. lia.
  - intros j Hj. apply lookup_replicate_2. lia.
  - intros j Hj. eexists. split; [apply lookup_replicate_2; lia|].
    by rewrite length_replicate.
  - intros j Hj. eexists. split; [apply lookup_replicate_2; lia|].
    by rewrite length_replicate.
  - intros j Hj. eexists. split; [apply lookup_replicate_2; lia|].
    by rewrite length_replicate.
Qed.

Lemma action_loop_raises (all_contexts : array2 Z) (all_rewards : array2 npfloat)
    (all_perms : array2 bool) (W m : nat) :
  let K := shape1 all_rewards in
  let p := perm_at all_perms in
  shape0 all_contexts = shape0 all_rewards →
  ∀ (i0 : nat) (cnt : list (list Z)) (prob : list (list npfloat))
    (S_Size : list Z) (avg : list (list (list npfloat)))
    (vis : list (list (list Z))) (sums : list (list (list npfloat))),
  i0 + m ≤ length S_Size →
  (∀ i, i0 ≤ i < i0 + m →
     is_Some (rows all_perms !! i) ∧
     length (p i) = shape1 all_contexts ∧
     cnt !! i = Some (replicate W 0%Z) ∧
     prob !! i = Some (replicate W (float_of_Z 0)) ∧
     avg !! i = Some (replicate W (replicate K (float_of_Z 0))) ∧
     vis !! i = Some (replicate W (replicate K 0%Z)) ∧
     sums !! i = Some (replicate W (replicate K (float_of_Z 0)))) →
  (∃ i, i0 ≤ i < i0 + m ∧ W < shape0 (action_states (p i) all_contexts)) →
  for_each (seq i0 m) (action_loop all_contexts all_rewards all_perms)
    (cnt, prob, S_Size, avg, vis, sums)
  = Raise IndexError.
Proof.
  intros K p HT. induction m as [|m IH];
    intros i0 cnt prob S_Size avg vis sums Hlen Hrows (i & Hi & Hbig); [lia|].
  cbn [seq for_each].
  destruct (Hrows i0) as ([one_perm Hp] & HD & Hc & Hpr & Ha & Hv & Hs); [lia|].
  assert (Hpi : p i0 = one_perm) by (unfold p, perm_at; by rewrite Hp).
  rewrite Hpi in HD.
  destruct (decide (shape0 (action_states one_perm all_contexts) ≤ W)) as [Hle|Hgt].
  - rewrite (action_loop_step all_contexts all_rewards all_perms i0 W one_perm)
      by (done || lia).
    cbn [mbind result_bind]. apply IH.
    + rewrite length_insert. lia.
    + intros i' Hi'. destruct (Hrows i') as (H1 & H2 & H3 & H4 & H5 & H6 & H7); [lia|].
      rewrite !list_lookup_insert_ne by lia. done.
    + exists i. split; [|done].
      destruct (decide (i = i0)) as [->|]; [|lia]. rewrite Hpi in Hbig. lia.
  - rewrite (action_loop_narrow all_contexts all_rewards all_perms i0 W one_perm)
      by (done || lia).
    done.
Qed.

(** X16.  [general] does not guard the width of its tables: when some
    observation action has more distinct masked contexts in the history
    than [s_o_max_general], the loop over its states runs past the end of
    the row and the call raises [IndexError]. *)
Theorem general_too_narrow (all_contexts : array2 Z)
    (all_rewards : array2 npfloat) (M W : nat) (all_perms : array2 bool)
    (one_perm : list bool) :
  shape0 all_contexts = shape0 all_rewards →
  M ≤ shape1 all_contexts →
  perm_construct (shape1 all_contexts) M = Ok all_perms →
  one_perm ∈ rows all_perms →
  W < length (distinct_states one_perm all_contexts) →
  general all_contexts all_rewards M W = Raise IndexError.
Proof.
  intros HT HM Hperms Hin HW.
  destruct (perm_construct_rows (shape1 all_contexts) M HM)
    as (all_perms' & Hperms' & _ & Hall).
  rewrite Hperms in Hperms'. injection Hperms' as <-.
  rewrite general_loops, Hperms. cbn [mbind result_bind]. cbv zeta.
  unfold range, np_zeros2, np_zeros3, np_zeros. cbn [rows].
  rewrite (action_loop_raises all_contexts all_rewards all_perms W); [done|done| | |].
  - by rewrite length_replicate.
  - intros i Hi.
    destruct (lookup_lt_is_Some_2 (rows all_perms) i) as [q Hq];
      [unfold shape0 in Hi; lia|].
    rewrite (perm_at_lookup _ _ _ Hq). split; [by eexists|]. split.
    { eapply Forall_forall in Hall; [|by eapply list_elem_of_lookup_2]. apply Hall. }
    rewrite !lookup_replicate_2 by lia. done.
  - apply list_elem_of_lookup in Hin as [i Hi]. exists i.
    pose proof (lookup_lt_Some _ _ _ Hi). split; [unfold shape0; lia|].
    by rewrite (perm_at_lookup _ _ _ Hi).
Qed.

Lemma general_too_narrow_witness :
  (shape0 one_feature_contexts = shape0 one_feature_rewards ∧
   1 ≤ shape1 one_feature_contexts ∧
   perm_construct (shape1 one_feature_contexts) 1
     = Ok (Array2 1 [[false]; [true]]) ∧
   [true] ∈ rows (Array2 1 [[false]; [true]]) ∧
   1 < length (distinct_states [true] one_feature_contexts)) ∧
  general one_feature_contexts one_feature_rewards 1 1 = Raise IndexError.
Proof.
  assert (H1 : 1 ≤ shape1 one_feature_contexts) by (vm_compute; lia).
  assert (H2 : [true] ∈ rows (Array2 1 [[false]; [true]])) by (right; left).
  assert (H3 : 1 < length (distinct_states [true] one_feature_contexts))
    by (vm_compute; lia).
  split; [split; [reflexivity|split; [exact H1|split; [reflexivity|split;
    [exact H2|exact H3]]]]|].
  apply (general_too_narrow one_feature_contexts one_feature_rewards 1 1
           (Array2 1 [[false]; [true]]) [true] eq_refl H1 eq_refl H2 H3).
Defined.

(** ** [np.argmax] *)

Lemma argmax_scan_nan (l : list npfloat) (i max_ind : nat) :
  argmax_scan l i nan max_ind = max_ind.
Proof. by destruct l. Qed.

Lemma argmax_scan_lt (l : list npfloat) :
  ∀ (i : nat) (mp : npfloat) (max_ind : nat),
  max_ind < i → argmax_scan l i mp max_ind < i + length l.
Proof.
  induction l as [|x l IH]; intros i mp max_ind Hlt; simpl; [lia|].
  destruct mp as [|m]; [lia|].
  destruct (fle x (num m)).
  - specialize (IH (S i) (num m) max_ind). lia.
  - specialize (IH (S i) x i). lia.
Qed.

Lemma np_argmax_lt (l : list npfloat) (i : nat) :
  np_argmax l = Ok i → i < length l.
Proof.
  destruct l as [|x l]; [done|]. simpl. intros [= <-].
  pose proof (argmax_scan_lt l 1 x 0). lia.
Qed.

Lemma argmax_scan_first_max (l : list npfloat) :
  ∀ (pre : list npfloat) (m : Qc) (max_ind : nat),
  Forall recorded l →
  pre !! max_ind = Some (num m) →
  (∀ j y, pre !! j = Some (num y) → (y ≤ m)%Qc) →
  (∀ j y, j < max_ind → pre !! j = Some (num y) → (y < m)%Qc) →
  ∃ m' : Qc,
    (pre ++ l) !! argmax_scan l (length pre) (num m) max_ind = Some (num m') ∧
    (∀ j y, (pre ++ l) !! j = Some (num y) → (y ≤ m')%Qc) ∧
    (∀ j y, j < argmax_scan l (length pre) (num m) max_ind →
            (pre ++ l) !! j = Some (num y) → (y < m')%Qc).
Proof.
  induction l as [|x l IH]; intros pre m max_ind Hrec Hmax Hle Hlt.
  { rewrite app_nil_r. simpl. by exists m. }
  apply Forall_cons in Hrec as [Hx Hrec].
  destruct x as [|y]; [done|].
  pose proof (lookup_lt_Some _ _ _ Hmax) as Hmi.
  rewrite (cons_middle (num y) pre l), app_assoc.
  cbn [argmax_scan]. unfold fle. case_bool_decide as Hym.
  - replace (S (length pre)) with (length (pre ++ [num y]))
      by (rewrite length_app; simpl; lia).
    apply IH; [done| | |].
    + by rewrite lookup_app_l.
    + intros j z Hj. destruct (decide (j < length pre)).
      * rewrite lookup_app_l in Hj by done. by eapply Hle.
      * rewrite lookup_app_r in Hj by lia.
        destruct (j - length pre) as [|?]; [|done]. by injection Hj as <-.
    + intros j z Hj Hz. rewrite lookup_app_l in Hz by lia. by eapply Hlt.
  - apply Qcnot_le_lt in Hym.
    replace (S (length pre)) with (length (pre ++ [num y]))
      by (rewrite length_app; simpl; lia).
    apply IH; [done| | |].
    + rewrite lookup_app_r by lia. by rewrite Nat.sub_diag.
    + intros j z Hj. destruct (decide (j < length pre)).
      * rewrite lookup_app_l in Hj by done.
        apply Qclt_le_weak. eapply Qcle_lt_trans; [by eapply Hle|done].
      * rewrite lookup_app_r in Hj by lia.
        destruct (j - length pre) as [|?]; [|done]. injection Hj as <-.
        apply Qcle_refl.
    + intros j z Hj Hz. rewrite lookup_app_l in Hz by lia.
      eapply Qcle_lt_trans; [by eapply Hle|done].
Qed.

Lemma np_argmax_first_max (l : list npfloat) :
  l ≠ [] → Forall recorded l →
  ∃ (i : nat) (m : Qc),
    np_argmax l = Ok i ∧ l !! i = Some (num m) ∧
    (∀ j y, l !! j = Some (num y) → (y ≤ m)%Qc) ∧
    (∀ j y, j < i → l !! j = Some (num y) → (y < m)%Qc).
Proof.
  destruct l as [|x l]; [done|]. intros _ [Hx Hrec]%Forall_cons.
  destruct x as [|m]; [done|].
  destruct (argmax_scan_first_max l [num m] m 0 Hrec) as (m' & H1 & H2 & H3).
  - done.
  - intros [|j] y; [|done]. intros [= <-]. apply Qcle_refl.
  - intros j y Hj. lia.
  - eexists _, m'. split; [done|]. by split.
Qed.

Lemma argmax_scan_first_nan (l1 l2 : list npfloat) :
  Forall recorded l1 →
  ∀ (i : nat) (m : Qc) (max_ind : nat),
  argmax_scan (l1 ++ nan :: l2) i (num m) max_ind = i + length l1.
Proof.
  induction 1 as [|x l1 Hx _ IH]; intros i m max_ind.
  { simpl. rewrite argmax_scan_nan. lia. }
  destruct x as [|y]; [done|]. simpl.
  case_bool_decide; rewrite IH; lia.
Qed.

Lemma np_argmax_first_nan (l1 l2 : list npfloat) :
  Forall recorded l1 → np_argmax (l1 ++ nan :: l2) = Ok (length l1).
Proof.
  destruct l1 as [|x l1]; intros Hrec.
  { simpl. by rewrite argmax_scan_nan. }
  apply Forall_cons in Hrec as [Hx Hrec]. destruct x as [|m]; [done|].
  simpl. by rewrite argmax_scan_first_nan.
Qed.

(** ** The second part of the constructor *)

Lemma best_arm_inner_fill (avg : list (list (list npfloat))) (i : nat)
    (cell : nat → list npfloat) (m : nat) :
  let fb := λ j, match np_max (cell j) with Ok x => x | Raise _ => nan end in
  let fa := λ j, match np_argmax (cell j) with
                 | Ok a => Z.of_nat a
                 | Raise _ => 0%Z
                 end in
  ∀ (j0 : nat) (R : list (list npfloat)) (A : list (list Z))
    (rr : list npfloat) (ra : list Z),
  i < length R → i < length A → j0 + m ≤ length rr → j0 + m ≤ length ra →
  (∀ j, j0 ≤ j < j0 + m → get2 avg i j = Ok (cell j) ∧ cell j ≠ []) →
  for_each (seq j0 m) (λ j '(r_star, action_star),
      rewards ← get2 avg i j;
      best ← np_max rewards;
      r_star ← set2 r_star i j best;
      arm ← np_argmax rewards;
      action_star ← set2 action_star i j (Z.of_nat arm);
      Ok (r_star, action_star)) (<[i:=rr]> R, <[i:=ra]> A)
  = Ok (<[i:=filled fb j0 m rr]> R, <[i:=filled fa j0 m ra]> A).
Proof.
  intros fb fa. induction m as [|m IH]; intros j0 R A rr ra HR HA Hrr Hra Hcell.
  - simpl. by rewrite !filled_0.
  - cbn [seq for_each].
    destruct (Hcell j0) as [Hget Hne]; [lia|].
    rewrite Hget. cbn [mbind result_bind].
    destruct (cell j0) as [|x l] eqn:Hc; [done|].
    cbn [np_max np_argmax mbind result_bind].
    rewrite set2_insert by (done || lia). cbn [mbind result_bind].
    rewrite set2_insert by (done || lia). cbn [mbind result_bind].
    rewrite IH.
    + rewrite (filled_S' fb j0 m rr), (filled_S' fa j0 m ra); [done| |lia| |lia].
      * unfold fa. by rewrite Hc.
      * unfold fb. by rewrite Hc.
    + done.
    + done.
    + rewrite length_insert. lia.
    + rewrite length_insert. lia.
    + intros j Hj. apply Hcell. lia.
Qed.

Lemma best_arm_outer_fill (avg : list (list (list npfloat))) (S_Size : list Z)
    (sz : nat → nat) (cell : nat → nat → list npfloat) (W m : nat) :
  let fR := λ i,
    filled (λ j, match np_max (cell i j) with Ok x => x | Raise _ => nan end)
      0 (sz i) (replicate W (float_of_Z 0)) in
  let fA := λ i,
    filled (λ j, match np_argmax (cell i j) with
                 | Ok a => Z.of_nat a
                 | Raise _ => 0%Z
                 end)
      0 (sz i) (replicate W 0%Z) in
  ∀ (i0 : nat) (R : list (list npfloat)) (A : list (list Z)),
  (∀ i, i0 ≤ i < i0 + m →
     S_Size !! i = Some (Z.of_nat (sz i)) ∧ sz i ≤ W ∧
     R !! i = Some (replicate W (float_of_Z 0)) ∧
     A !! i = Some (replicate W 0%Z) ∧
     ∀ j, j < sz i → get2 avg i j = Ok (cell i j) ∧ cell i j ≠ []) →
  for_each (seq i0 m) (λ i '(r_star, action_star),
      S_Size_i ← getitem S_Size i;
      for_each (range (Z.to_nat S_Size_i)) (λ j '(r_star, action_star),
        rewards ← get2 avg i j;
        best ← np_max rewards;
        r_star ← set2 r_star i j best;
        arm ← np_argmax rewards;
        action_star ← set2 action_star i j (Z.of_nat arm);
        Ok (r_star, action_star)) (r_star, action_star)) (R, A)
  = Ok (filled fR i0 m R, filled fA i0 m A).
Proof.
  intros fR fA. induction m as [|m IH]; intros i0 R A Hpre.
  - simpl. by rewrite !filled_0.
  - cbn [seq for_each].
    destruct (Hpre i0) as (HS & Hsz & HR & HA & Hcell); [lia|].
    apply getitem_Ok in HS. rewrite HS. cbn [mbind result_bind].
    rewrite Nat2Z.id. unfold range.
    rewrite <- (list_insert_id R i0 _ HR) at 1.
    rewrite <- (list_insert_id A i0 _ HA) at 1.
    apply lookup_lt_Some in HR, HA.
    rewrite (best_arm_inner_fill avg i0 (cell i0) (sz i0) 0)
      by (done || rewrite ?length_replicate; lia || (intros j Hj; apply Hcell; lia)).
    cbn [mbind result_bind].
    rewrite IH.
    + by rewrite (filled_S' fR i0 m R), (filled_S' fA i0 m A).
    + intros i Hi. rewrite !list_lookup_insert_ne by lia. apply Hpre. lia.
Qed.

Lemma value_loop_fill (true_prob_so r_star : list (list npfloat))
    (all_perms : array2 bool) (cost_vector : list npfloat) (beta : npfloat)
    (val : nat → npfloat) (m : nat) :
  ∀ (i0 : nat) (value_o : list npfloat),
  i0 + m ≤ length value_o →
  (∀ i, i0 ≤ i < i0 + m →
     ∃ prob_i r_star_i one_perm expected cost,
       true_prob_so !! i = Some prob_i ∧ r_star !! i = Some r_star_i ∧
       rows all_perms !! i = Some one_perm ∧
       np_dot prob_i r_star_i = Ok expected ∧
       np_dot ((λ b : bool, float_of_Z (Z.b2z b)) <$> one_perm) cost_vector
         = Ok cost ∧
       val i = fsub (fmul beta expected) cost) →
  for_each (seq i0 m) (λ i value_o,
      prob_i ← getitem true_prob_so i;
      r_star_i ← getitem r_star i;
      expected ← np_dot prob_i r_star_i;
      one_perm ← getitem (rows all_perms) i;
      cost ← np_dot ((λ b : bool, float_of_Z (Z.b2z b)) <$> one_perm) cost_vector;
      setitem value_o i (fsub (fmul beta expected) cost)) value_o
  = Ok (filled val i0 m value_o).
Proof.
  induction m as [|m IH]; intros i0 value_o Hlen Hpre.
  - simpl. by rewrite filled_0.
  - cbn [seq for_each].
    destruct (Hpre i0) as (prob_i & r_i & one_perm & e & c & H1 & H2 & H3 & H4 & H5 & H6);
      [lia|].
    apply getitem_Ok in H1, H2, H3.
    rewrite H1. cbn [mbind result_bind]. rewrite H2. cbn [mbind result_bind].
    rewrite H4. cbn [mbind result_bind]. rewrite H3. cbn [mbind result_bind].
    rewrite H5. cbn [mbind result_bind].
    rewrite setitem_lt by lia. cbn [mbind result_bind].
    rewrite IH.
    + by rewrite (filled_S' val i0 m value_o) by (done || lia).
    + rewrite length_insert. lia.
    + intros i Hi. apply Hpre. lia.
Qed.

Lemma length_action_row {A : Type} (cell : array2 Z → list Z → A) (zero : A)
    (all_contexts : array2 Z) (W : nat) (one_perm : list bool) :
  length (distinct_states one_perm all_contexts) ≤ W →
  length (action_row cell zero all_contexts W one_perm) = W.
Proof.
  intros HW. unfold action_row.
  rewrite length_filled_0; rewrite length_replicate; [done|exact HW].
Qed.

Lemma filled_replicate {A : Type} (f : nat → A) (n : nat) (x : A) :
  filled f 0 n (replicate n x) = f <$> seq 0 n.
Proof.
  unfold filled. rewrite take_0, drop_ge by (by rewrite length_replicate).
  by rewrite app_nil_r.
Qed.

Lemma init_tables_Ok (all_contexts : array2 Z) (all_rewards : array2 npfloat)
    (cost_vector : list npfloat) (number_of_actions M : nat) (beta : npfloat)
    (all_perms : array2 bool) (feature_values : list (list (option Z)))
    (all_feature_counts s_o : list Z) (mx : Z) :
  let W := Z.to_nat mx in
  let n := shape0 all_perms in
  let p := perm_at all_perms in
  let sz := λ i, shape0 (action_states (p i) all_contexts) in
  let cell := λ i j,
    state_averages all_rewards (masked_contexts (p i) all_contexts)
      (state_at (action_states (p i) all_contexts) j) in
  let prob_row := λ i,
    action_row (state_prob all_rewards) (float_of_Z 0) all_contexts W (p i) in
  let best_row := λ i,
    filled (λ j, match np_max (cell i j) with Ok x => x | Raise _ => nan end)
      0 (sz i) (replicate W (float_of_Z 0)) in
  let arm_row := λ i,
    filled (λ j, match np_argmax (cell i j) with
                 | Ok a => Z.of_nat a
                 | Raise _ => 0%Z
                 end)
      0 (sz i) (replicate W 0%Z) in
  let val := λ i,
    fsub (fmul beta (np_sum (zip_with fmul (prob_row i) (best_row i))))
         (np_sum (zip_with fmul ((λ b : bool, float_of_Z (Z.b2z b)) <$> p i)
                    cost_vector)) in
  shape0 all_contexts = shape0 all_rewards →
  M ≤ shape1 all_contexts →
  perm_construct (shape1 all_contexts) M = Ok all_perms →
  np_amax_Z s_o = Ok mx →
  (∀ one_perm, length (distinct_states one_perm all_contexts) ≤ W) →
  length cost_vector = shape1 all_contexts →
  0 < shape1 all_rewards →
  ∃ self,
    init_tables all_contexts all_rewards cost_vector number_of_actions M beta
      all_perms feature_values all_feature_counts s_o = Ok self ∧
    general all_contexts all_rewards M W
      = Ok (self_true_prob_so self, self_true_average_reward self,
            self_S_Size self) ∧
    self_true_prob_so self = prob_row <$> seq 0 n ∧
    self_true_average_reward self
      = (λ i, action_row (state_averages all_rewards)
                (replicate (shape1 all_rewards) (float_of_Z 0)) all_contexts W
                (p i)) <$> seq 0 n ∧
    self_r_star self = best_row <$> seq 0 n ∧
    self_action_star self = arm_row <$> seq 0 n ∧
    self_value_o self = val <$> seq 0 n ∧
    np_argmax (self_value_o self) = Ok (self_index_of_observation_action_star self) ∧
    rows all_perms !! self_index_of_observation_action_star self
      = Some (self_selected_observation_action_at_t self) ∧
    self_observation_action_at_t self = None.
Proof.
  intros W n p sz cell prob_row best_row arm_row val HT HM Hperms Hmax HW Hcost HK.
  destruct (general_Ok all_contexts all_rewards M W HT HM HW)
    as (all_perms' & Hperms' & Hgen).
  rewrite Hperms in Hperms'. injection Hperms' as <-.
  destruct (perm_construct_rows (shape1 all_contexts) M HM)
    as (all_perms' & Hperms' & _ & Hall).
  rewrite Hperms in Hperms'. injection Hperms' as <-.
  assert (Hrow : ∀ i, i < n → ∃ one_perm,
            rows all_perms !! i = Some one_perm ∧ p i = one_perm ∧
            length one_perm = shape1 all_contexts).
  { intros i Hi.
    destruct (lookup_lt_is_Some_2 (rows all_perms) i) as [q Hq]; [exact Hi|].
    exists q. split; [done|]. split; [by apply perm_at_lookup|].
    eapply Forall_forall in Hall; [|by eapply list_elem_of_lookup_2]. apply Hall. }
  unfold init_tables. rewrite Hmax. cbn [fmap result_fmap mbind result_bind].
  fold W. rewrite Hgen. cbn [mbind result_bind]. cbv zeta.
  unfold range, np_zeros2, np_zeros. cbn [rows]. fold n. fold p.
  rewrite (best_arm_outer_fill _ _ sz cell W n 0).
  2:{ intros i Hi. split; [|split; [apply HW|]].
      { rewrite list_lookup_fmap, lookup_seq_lt by lia. done. }
      rewrite !lookup_replicate_2 by lia. split; [done|]. split; [done|].
      intros j Hj. unfold sz in Hj. split.
      - apply get2_fmap_seq; [lia|]. unfold action_row.
        rewrite lookup_filled; [done| |lia].
        rewrite length_replicate. apply (HW (p i)).
      - unfold cell, state_averages. intros Hnil.
        apply (f_equal length) in Hnil.
        rewrite length_fmap, length_seq in Hnil. simpl in Hnil. lia. }
  cbn [mbind result_bind].
  rewrite !filled_replicate.
  fold best_row. fold arm_row.
  rewrite (value_loop_fill _ _ all_perms cost_vector beta val n 0).
  2:{ by rewrite length_replicate. }
  2:{ intros i Hi. destruct (Hrow i) as (one_perm & Hq & Hpi & Hlen); [lia|].
      exists (prob_row i), (best_row i), one_perm. eexists _, _.
      split; [by rewrite list_lookup_fmap, lookup_seq_lt by lia|].
      split; [by rewrite list_lookup_fmap, lookup_seq_lt by lia|].
      split; [done|].
      split; [|split].
      - unfold np_dot. rewrite decide_True; [done|].
        unfold prob_row, best_row. rewrite length_action_row by apply HW.
        rewrite length_filled_0; rewrite length_replicate; [done|apply (HW (p i))].
      - unfold np_dot. rewrite decide_True; [done|].
        rewrite length_fmap. lia.
      - unfold val. by rewrite Hpi. }
  cbn [mbind result_bind].
  rewrite filled_replicate.
  destruct (np_argmax (val <$> seq 0 n)) as [idx|e] eqn:Harg.
  2:{ exfalso. destruct (val <$> seq 0 n) as [|x l] eqn:HV; [|done].
      apply (f_equal length) in HV. rewrite length_fmap, length_seq in HV.
      apply (perm_construct_nonempty _ _ _ Hperms).
      apply nil_length_inv. exact HV. }
  cbn [mbind result_bind].
  pose proof (np_argmax_lt _ _ Harg) as Hidx.
  rewrite length_fmap, length_seq in Hidx.
  destruct (Hrow idx Hidx) as (sel & Hsel & _ & _).
  apply getitem_Ok in Hsel as Hget. rewrite Hget. cbn [mbind result_bind].
  eexists. split; [reflexivity|]. cbn.
  repeat split; done.
Qed.

Lemma foldl_fmax_max (l : list npfloat) :
  Forall recorded l →
  ∀ m : Qc, ∃ m' : Qc,
    foldl fmax (num m) l = num m' ∧ (m ≤ m')%Qc ∧
    (∀ y, num y ∈ l → (y ≤ m')%Qc) ∧
    (m' = m ∨ num m' ∈ l).
Proof.
  induction 1 as [|x l Hx _ IH]; intros m.
  { exists m. split; [done|]. split; [apply Qcle_refl|].
    split; [by intros y ?%elem_of_nil|by left]. }
  destruct x as [|y]; [done|]. cbn [foldl fmax]. case_bool_decide as Hmy.
  - destruct (IH y) as (m' & H1 & H2 & H3 & H4). exists m'.
    split; [done|]. split; [by eapply Qcle_trans|]. split.
    + intros z [[= ->]|Hz]%elem_of_cons; [done|by apply H3].
    + right. destruct H4 as [->|H4]; [left|by right].
  - apply Qcnot_le_lt, Qclt_le_weak in Hmy.
    destruct (IH m) as (m' & H1 & H2 & H3 & H4). exists m'.
    split; [done|]. split; [done|]. split.
    + intros z [[= ->]|Hz]%elem_of_cons; [by eapply Qcle_trans|by apply H3].
    + destruct H4 as [->|H4]; [by left|right; by right].
Qed.

Lemma np_max_first_max (l : list npfloat) :
  l ≠ [] → Forall recorded l →
  ∃ (a : nat) (m : Qc),
    np_argmax l = Ok a ∧ np_max l = Ok (num m) ∧ l !! a = Some (num m) ∧
    (∀ k y, l !! k = Some (num y) → (y ≤ m)%Qc) ∧
    (∀ k y, k < a → l !! k = Some (num y) → (y < m)%Qc).
Proof.
  intros Hne Hrec.
  destruct (np_argmax_first_max l Hne Hrec) as (a & m & Ha & Hm & Hle & Hlt).
  exists a, m. split; [done|]. split; [|by split].
  destruct l as [|x l]; [done|]. apply Forall_cons in Hrec as [Hx Hrec].
  destruct x as [|m0]; [done|]. cbn [np_max].
  destruct (foldl_fmax_max l Hrec m0) as (m' & H1 & H2 & H3 & H4).
  rewrite H1. do 2 f_equal. apply Qcle_antisym.
  - destruct H4 as [->|H4].
    + by apply (Hle 0).
    + apply list_elem_of_lookup in H4 as [k Hk]. by apply (Hle (S k)).
  - destruct a as [|a]; simpl in Hm.
    + by injection Hm as <-.
    + apply H3. by eapply list_elem_of_lookup_2.
Qed.

Lemma first_nan (l : list npfloat) :
  ¬ Forall recorded l →
  ∃ l1 l2, l = l1 ++ nan :: l2 ∧ Forall recorded l1.
Proof.
  induction l as [|x l IH]; intros Hn; [by destruct Hn|].
  destruct x as [|q].
  - by exists [], l.
  - destruct IH as (l1 & l2 & -> & H1).
    + intros Hl. apply Hn. by constructor.
    + exists (num q :: l1), l2. split; [done|]. by constructor.
Qed.






(** ** Decoding any integer *)

Lemma foldr_mul_pos (counts : list Z) :
  Forall (λ c, 1 ≤ c)%Z counts → (1 ≤ foldr Z.mul 1 counts)%Z.
Proof. induction 1; simpl; [lia|nia]. Qed.



(** ** Shapes that [is_round_over] rejects *)

(** X20.  [is_round_over] on two arrays of different lengths, neither of
    length one, raises [ValueError]: the shapes cannot be broadcast. *)
Theorem is_round_over_shape_mismatch (N_old N : list Z) :
  length N_old ≠ length N → length N_old ≠ 1 → length N ≠ 1 →
  is_round_over N_old N = Raise ValueError.
Proof.
  intros Hlen H1 H2. unfold is_round_over, broadcast2.
  rewrite decide_False by done.
  destruct N as [|n [|n' N]], N_old as [|o [|o' N_old]]; simpl in *; done.
Qed.

Lemma is_round_over_shape_mismatch_witness :
  (length [1; 2; 3]%Z ≠ length [1; 2]%Z ∧ length [1; 2; 3]%Z ≠ 1 ∧
   length [1; 2]%Z ≠ 1) ∧
  is_round_over [1; 2; 3]%Z [1; 2]%Z = Raise ValueError.
Proof.
  assert (H : length [1; 2; 3]%Z ≠ length [1; 2]%Z) by (simpl; lia).
  assert (H1 : length [1; 2; 3]%Z ≠ 1) by (simpl; lia).
  assert (H2 : length [1; 2]%Z ≠ 1) by (simpl; lia).
  split; [split; [exact H|split; [exact H1|exact H2]]|].
  apply (is_round_over_shape_mismatch [1; 2; 3]%Z [1; 2]%Z H H1 H2).
Defined.

(** ** The oracle stays within the budget *)

Lemma perm_construct_weight (D M : nat) (all_perms : array2 bool) :
  M ≤ D → perm_construct D M = Ok all_perms →
  Forall (λ v, length v = D ∧ hamming_weight v ≤ M) (rows all_perms).
Proof.
  intros HM. destruct (decide (D = M)) as [->|Hne].
  - destruct (full_perm_construct_Ok M) as (rs & Hrs & _ & Hall & _).
    unfold perm_construct. rewrite decide_True by done. rewrite Hrs.
    intros [= <-]. cbn [rows]. eapply Forall_impl; [exact Hall|].
    intros v Hv. split; [done|]. rewrite <- Hv. apply hamming_weight_le_length.
  - rewrite perm_construct_partial by lia. intros Heq.
    assert (Hrows : rows all_perms = mjoin (weight_class D <$> seq 0 (S M)))
      by (by inversion Heq).
    rewrite Hrows. apply Forall_forall. intros v Hv.
    apply list_elem_of_join in Hv as (c & Hvc & Hc).
    apply list_elem_of_fmap in Hc as (j & -> & Hj).
    apply elem_of_seq in Hj.
    apply weight_class_spec in Hvc as [Hl Hw]; lia.
Qed.

Lemma observed_indices (l : list bool) :
  ∀ k : nat,
  let r := (λ iv : nat * bool, iv.1)
             <$> filter (λ iv : nat * bool, iv.2 = true) (zip (seq k (length l)) l) in
  length r = hamming_weight l ∧ StronglySorted lt r ∧
  Forall (λ i, k ≤ i < k + length l) r.
Proof.
  induction l as [|b l IH]; intros k; cbn zeta.
  { split; [done|]. split; constructor. }
  destruct (IH (S k)) as (H1 & H2 & H3). cbn zeta in H1, H2, H3.
  cbn [length seq zip zip_with]. rewrite filter_cons. destruct b.
  - rewrite decide_True by done. rewrite fmap_cons. cbn [fst length hamming_weight foldr].
    split; [by rewrite H1|]. split.
    + constructor; [done|]. eapply Forall_impl; [exact H3|]. intros i Hi. simpl in Hi. lia.
    + constructor; [simpl; lia|]. eapply Forall_impl; [exact H3|].
      intros i Hi. simpl in *. lia.
  - rewrite decide_False by done. cbn [hamming_weight foldr].
    split; [by rewrite H1|]. split; [done|].
    eapply Forall_impl; [exact H3|]. intros i Hi. simpl in *. lia.
Qed.


